(** * The crawler's resolution-and-linking core, embedded from the JavaScript
    sources [lib/baseHandler.js], [providers/process/mavenExtract.js] and the
    docker extract processor.

    Strings are sequences of 8-bit code units (the Latin-1 range of a
    JavaScript string).  Calls on the request carrier and on helpers of other
    classes are recorded, in order, in a trace of effects; a thrown exception
    ends the computation and keeps the trace produced so far. *)

From Stdlib Require Import Strings.String Strings.Ascii ZArith Lia.
From stdpp Require Import base option list strings gmap pretty.

Open Scope string_scope.
Open Scope list_scope.

(** ** JavaScript string primitives *)
Module JS.

(** Code units removed by [String.prototype.trim] and skipped by the
    string-to-number conversion: TAB, LF, VT, FF, CR, SP and NBSP. *)
Definition is_ws (c : ascii) : bool :=
  match nat_of_ascii c with
  | 9 | 10 | 11 | 12 | 13 | 32 | 160 => true
  | _ => false
  end.

Fixpoint trimStart (s : string) : string :=
  match s with
  | String c s' => if is_ws c then trimStart s' else s
  | EmptyString => EmptyString
  end.

(** [trimEnd] drops a trailing run of blanks: a blank is kept only when
    something is left after it. *)
Fixpoint trimEnd (s : string) : string :=
  match s with
  | String c s' =>
      match trimEnd s' with
      | EmptyString => if is_ws c then EmptyString else String c EmptyString
      | r => String c r
      end
  | EmptyString => EmptyString
  end.

Definition trim (s : string) : string := trimEnd (trimStart s).

Fixpoint str_take (n : nat) (s : string) : string :=
  match n, s with
  | S n', String c s' => String c (str_take n' s')
  | _, _ => EmptyString
  end.

Fixpoint str_drop (n : nat) (s : string) : string :=
  match n, s with
  | S n', String _ s' => str_drop n' s'
  | _, _ => s
  end.

(** [s.indexOf(pat)]: position of the first occurrence, [None] for -1. *)
Fixpoint indexOf (pat s : string) : option nat :=
  if String.prefix pat s then Some 0
  else match s with
       | String _ s' => S <$> indexOf pat s'
       | EmptyString => None
       end.

Definition chars (s : string) : list string :=
  (fun c => String c EmptyString) <$> list_ascii_of_string s.

(** [s.split(sep)] for a string separator: cut at every occurrence, left to
    right.  The fuel bounds the number of cuts; [split] gives one unit per
    code unit, which is never exhausted (lemma [split_unfold]). *)
Fixpoint split_fuel (fuel : nat) (sep s : string) : list string :=
  match fuel with
  | 0 => [s]
  | S fuel' =>
      match indexOf sep s with
      | None => [s]
      | Some i => str_take i s :: split_fuel fuel' sep (str_drop (i + String.length sep) s)
      end
  end.

Definition split (sep s : string) : list string :=
  match sep with
  | EmptyString => chars s
  | _ => split_fuel (String.length s) sep s
  end.

(** [s.replace(pat, repl)] with a string pattern and a replacement text
    without [$]: only the first occurrence is replaced, wherever it stands. *)
Definition replace (pat repl s : string) : string :=
  match indexOf pat s with
  | None => s
  | Some i => str_take i s +:+ repl +:+ str_drop (i + String.length pat) s
  end.

(** [xs.join(sep)] on an array of strings. *)
Fixpoint join (sep : string) (xs : list string) : string :=
  match xs with
  | [] => EmptyString
  | [x] => x
  | x :: rest => x +:+ sep +:+ join sep rest
  end.

(** The line feed, written ['\n'] in the sources. *)
Definition LF : string := String "010" EmptyString.

(** A value interpolated in a template literal; [None] is [undefined]. *)
Definition show (v : option string) : string := default "undefined" v.

End JS.

(** ** Outcomes and the trace of collaborator calls *)

Inductive error :=
| TypeError (what : string)
| Error (message : string).

Inductive res (A : Type) :=
| Ok (a : A)
| Throw (e : error).
Arguments Ok {A} a.
Arguments Throw {A} e.

#[global] Instance res_ret : MRet res := fun A a => Ok a.
#[global] Instance res_bind : MBind res := fun A B k m =>
  match m with
  | Ok a => k a
  | Throw e => Throw e
  end.

Inductive effect :=
| LinkResource (name urn : string)
| LinkSiblings (urn : string)
| LinkCollection (name urn : string)
| Queue (name url : string)
| AddEmbeddedComponent (url : string)
| NewRequest (type url : string).

Definition Eff (A : Type) : Type := list effect * res A.

Definition emit (e : effect) : Eff unit := ([e], Ok tt).
Definition raise {A} (e : error) : Eff A := ([], Throw e).

#[global] Instance Eff_ret : MRet Eff := fun A a => ([], Ok a).
#[global] Instance Eff_bind : MBind Eff := fun A B k m =>
  match m with
  | (t, Ok a) => let '(t', r) := k a in (t ++ t', r)
  | (t, Throw e) => (t, Throw e)
  end.

Definition trace {A} (m : Eff A) : list effect := fst m.
Definition outcome {A} (m : Eff A) : res A := snd m.

(** ** providers/process/dockerExtract.js *)
Module DockerExtract.

Record apk_listing := { names : string; namesAndVersions : string }.

(** The fields of the fetched document that the processor reads; [None] is
    a null or missing field. *)
Record document := { apk : option apk_listing; dpkg : option string }.

(** The body of the [for]-[of] loop of [_queueDpkgs]: the array pattern
    [[name, version]] takes the first two pieces of the split. *)
Definition dpkg_record (line : string) : string * option string :=
  let parts := JS.split "___" line in
  (default EmptyString (parts !! 0), parts !! 1).

Definition dpkg_url (line : string) : string :=
  let '(name, version) := dpkg_record line in
  "cd:/dpkg/dpkg/-/" +:+ name +:+ "/" +:+ JS.show version.

Fixpoint _queueDpkgs_loop (dpkgList : list string) : Eff unit :=
  match dpkgList with
  | [] => mret tt
  | line :: rest =>
      let url := dpkg_url line in
      emit (AddEmbeddedComponent url) ;;
      emit (NewRequest "dpkg" url) ;;
      _queueDpkgs_loop rest
  end.

Definition _queueDpkgs (doc : document) : Eff unit :=
  match dpkg doc with
  | None | Some EmptyString => mret tt
  | Some listing => _queueDpkgs_loop (JS.split JS.LF listing)
  end.

Definition apk_version (name entry : string) : string :=
  JS.replace (name +:+ "-") EmptyString entry.

Definition apk_url (name version : string) : string :=
  "cd:/apk/apk/-/" +:+ name +:+ "/" +:+ version.

(** What one iteration of the loop of [_queueApks] does with its url: the
    component is recorded on the document and a request is built; the
    request is bound to a local and not handed to anything. *)
Definition apk_effects (name entry : string) : list effect :=
  let url := apk_url name (apk_version name entry) in
  [AddEmbeddedComponent url; NewRequest "apk" url].

(** The counting loop of [_queueApks] from index [i], with [todo] =
    [apkNameList.length - i] iterations left.  Reading past the end of
    [apkNameAndVersionList] gives [undefined], and calling [replace] on it
    throws. *)
Fixpoint _queueApks_loop (apkNameList apkNameAndVersionList : list string)
    (i todo : nat) : Eff unit :=
  match todo with
  | 0 => mret tt
  | S todo' =>
      let name := default EmptyString (apkNameList !! i) in
      match apkNameAndVersionList !! i with
      | None => raise (TypeError "Cannot read property 'replace' of undefined")
      | Some entry =>
          let url := apk_url name (apk_version name entry) in
          emit (AddEmbeddedComponent url) ;;
          emit (NewRequest "apk" url) ;;
          _queueApks_loop apkNameList apkNameAndVersionList (S i) todo'
      end
  end.

Definition _queueApks (doc : document) : Eff unit :=
  match apk doc with
  | None => mret tt
  | Some a =>
      let apkNameList := JS.split JS.LF (names a) in
      let apkNameAndVersionList := JS.split JS.LF (namesAndVersions a) in
      _queueApks_loop apkNameList apkNameAndVersionList 0 (length apkNameList)
  end.

(** A property of the document as the request carries it: undefined (or
    not there), null, or set. *)
Inductive slot (A : Type) :=
| Undefined
| Null
| Value (a : A).
Arguments Undefined {A}.
Arguments Null {A}.
Arguments Value {A} a.

(** The two properties of [request.document] that [handle] reads and
    carries over. *)
Record stored := { stored_apk : slot apk_listing; stored_dpkg : slot string }.

Definition read {A} (s : slot A) : option A :=
  match s with
  | Value a => Some a
  | _ => None
  end.

(** The document as [_queueDpkgs] and [_queueApks] read it. *)
Definition view (doc : stored) : document :=
  {| apk := read (stored_apk doc); dpkg := read (stored_dpkg doc) |}.

(** [merge(object, { apk, dpkg })] of lodash on the two properties: a
    source that is undefined leaves the destination as it is, null and a
    string are assigned, and an apk object is merged into the destination,
    where its two listings replace what was there. *)
Definition merge (object : stored) (apk : slot apk_listing) (dpkg : slot string) : stored :=
  {| stored_apk :=
       match apk with
       | Undefined => stored_apk object
       | Null => Null
       | Value a => Value a
       end;
     stored_dpkg :=
       match dpkg with
       | Undefined => stored_dpkg object
       | Null => Null
       | Value listing => Value listing
       end |}.

Section Handler.
(** [super.handle(request)] of AbstractClearlyDefinedProcessor, which is not
    part of these sources: what the call, which is not awaited, does to the
    document and to the request before it returns, and how it returns. *)
Variable inherited : stored → stored * Eff unit.
(** [this.clone(document)], inherited as well. *)
Variable clone : stored → stored.

(** [handle]: the document of the request after the call, with the effects
    and the outcome. *)
Definition handle (doc : stored) : stored * Eff unit :=
  let '(doc, before) := inherited doc in
  match outcome before with
  | Throw _ => (doc, before)
  | Ok _ =>
      let apk := stored_apk doc in
      let dpkg := stored_dpkg doc in
      let doc := merge (clone doc) apk dpkg in
      (doc, (before ;; _queueDpkgs (view doc) ;; _queueApks (view doc)))
  end.

End Handler.

End DockerExtract.

(** ** JavaScript numbers

    The Number values, up to the sign of zero, which neither the addition of
    the handlers nor the printing shows: NaN, the two infinities, and the
    finite doubles by their exact value, [Int z] for an integer and
    [Frac m k] for the fraction m / 2^k with m odd and k positive. *)
Module Number.

Inductive number :=
| NaN
| Int (z : Z)
| Frac (m k : Z)
| Inf (negative : bool).

Definition eqb (a b : number) : bool :=
  match a, b with
  | NaN, NaN => true
  | Int x, Int y => (x =? y)%Z
  | Frac m k, Frac n j => (m =? n)%Z && (k =? j)%Z
  | Inf s, Inf t => Bool.eqb s t
  | _, _ => false
  end.

(** The integers that every double arithmetic keeps exact. *)
Definition safe (z : Z) : bool := (Z.abs z <=? 2 ^ 53)%Z.

(** The double nearest to the ratio n / d, for d positive: 53 bits of
    precision above the exponent -1074, ties to the even significand, and
    an infinity from 2^1024 on. *)
Definition round_ratio (n d : Z) : number :=
  if (n =? 0)%Z then Int 0
  else
    let a := Z.abs n in
    let e0 := (Z.log2 a - Z.log2 d)%Z in
    let below := if (0 <=? e0)%Z then (a <? d * 2 ^ e0)%Z else (a * 2 ^ (- e0) <? d)%Z in
    let e := (if below then e0 - 1 else e0)%Z in
    let u := Z.max (e - 52) (-1074) in
    let num := (if u <? 0 then a * 2 ^ (- u) else a)%Z in
    let den := (if u <? 0 then d else d * 2 ^ u)%Z in
    let q := (num / den)%Z in
    let r := (num mod den)%Z in
    let m := (if 2 * r <? den then q
              else if den <? 2 * r then q + 1
              else if Z.even q then q else q + 1)%Z in
    let sign := (if n <? 0 then -1 else 1)%Z in
    if (0 <=? u)%Z then
      if (2 ^ 1024 <=? m * 2 ^ u)%Z then Inf (n <? 0)%Z else Int (sign * (m * 2 ^ u))
    else
      let g := Z.gcd m (2 ^ (- u)) in
      if (g =? 2 ^ (- u))%Z then Int (sign * (m / g))
      else Frac (sign * (m / g)) (- u - Z.log2 g).

(** The double of an integer. *)
Definition of_Z (z : Z) : number := if safe z then Int z else round_ratio z 1.

Definition isNaN (n : number) : bool :=
  match n with NaN => true | _ => false end.

(** A finite number as a ratio. *)
Definition ratio (n : number) : Z * Z :=
  match n with
  | Int z => (z, 1%Z)
  | Frac m k => (m, (2 ^ k)%Z)
  | _ => (0%Z, 1%Z)
  end.

(** [a + b] on doubles: the exact sum, rounded. *)
Definition add (a b : number) : number :=
  match a, b with
  | NaN, _ | _, NaN => NaN
  | Inf s, Inf t => if Bool.eqb s t then Inf s else NaN
  | Inf s, _ | _, Inf s => Inf s
  | Int x, Int y => of_Z (x + y)
  | _, _ =>
      let '(n1, d1) := ratio a in
      let '(n2, d2) := ratio b in
      round_ratio (n1 * d2 + n2 * d1) (d1 * d2)
  end.

(** The n with 10^(n-1) <= p / q < 10^n, for p and q positive. *)
Definition decimal_exponent (p q : Z) : Z :=
  if (q <=? p)%Z then Z.of_nat (String.length (pretty (p / q)%Z))
  else
    let t := Z.of_nat (String.length (pretty (q / p)%Z)) in
    (if q <=? p * 10 ^ (t - 1) then 2 - t else 1 - t)%Z.

(** The double of s * 10^(n-k). *)
Definition of_digits (s n k : Z) : number :=
  if (k <=? n)%Z then round_ratio (s * 10 ^ (n - k)) 1 else round_ratio s (10 ^ (k - n)).

(** The digits of [Number::toString] for the positive double [v] = p / q
    with decimal exponent n: the least count k, tried in the order [ks], of
    decimal digits s with s * 10^(n-k) read back as [v]; of two such s the
    one nearer to [v], and the even one when both are as near. *)
Fixpoint shortest (v : number) (p q n : Z) (ks : list Z) : Z * Z :=
  match ks with
  | [] => (0%Z, n)
  | k :: ks' =>
      let num := (if k <=? n then p else p * 10 ^ (k - n))%Z in
      let den := (if k <=? n then q * 10 ^ (n - k) else q)%Z in
      let lo := (num / den)%Z in
      let r := (num mod den)%Z in
      let hi := (lo + 1)%Z in
      let up := if (hi =? 10 ^ k)%Z then ((10 ^ (k - 1))%Z, (n + 1)%Z) else (hi, n) in
      let ok_lo := eqb (of_digits lo n k) v in
      let ok_hi := negb (r =? 0)%Z && eqb (of_digits hi n k) v in
      if ok_lo && ok_hi then
        (if (2 * r <? den)%Z then (lo, n)
         else if (den <? 2 * r)%Z then up
         else if Z.even lo then (lo, n) else up)
      else if ok_lo then (lo, n)
      else if ok_hi then up
      else shortest v p q n ks'
  end.

Fixpoint zeros (n : nat) : string :=
  match n with
  | O => EmptyString
  | S n' => String "0" (zeros n')
  end.

(** The text of the digits [ds] at the decimal exponent n: plain up to 21
    digits before the point and 6 zeros after it, else in exponent form. *)
Definition format (ds : string) (n : Z) : string :=
  let k := Z.of_nat (String.length ds) in
  if ((k <=? n) && (n <=? 21))%Z then ds +:+ zeros (Z.to_nat (n - k))
  else if ((0 <? n) && (n <=? 21))%Z
  then JS.str_take (Z.to_nat n) ds +:+ "." +:+ JS.str_drop (Z.to_nat n) ds
  else if ((-6 <? n) && (n <=? 0))%Z then "0." +:+ zeros (Z.to_nat (- n)) +:+ ds
  else
    let e := (n - 1)%Z in
    let exponent := (if (e <? 0)%Z then "e-" else "e+") +:+ pretty (Z.abs e) in
    match ds with
    | String c EmptyString => String c exponent
    | String c rest => String c ("." +:+ rest +:+ exponent)
    | EmptyString => exponent
    end.

(** [String(n)] of the finite double n / d other than 0. *)
Definition print_ratio (n d : Z) : string :=
  let p := Z.abs n in
  let '(s, e) := shortest (round_ratio p d) p d (decimal_exponent p d)
                   (Z.of_nat <$> seq 1 17) in
  (if (n <? 0)%Z then "-" else EmptyString) +:+ format (pretty s) e.

(** [String(n)]; a safe integer prints as its decimal digits. *)
Definition toString (n : number) : string :=
  match n with
  | NaN => "NaN"
  | Inf negative => if negative then "-Infinity" else "Infinity"
  | Int z => if safe z then pretty z else print_ratio z 1
  | Frac m k => print_ratio m (2 ^ k)
  end.

Definition digit_of (c : ascii) : option Z :=
  let n := Z.of_nat (nat_of_ascii c) in
  if ((48 <=? n) && (n <=? 57))%Z then Some (n - 48)%Z
  else if ((97 <=? n) && (n <=? 102))%Z then Some (n - 87)%Z
  else if ((65 <=? n) && (n <=? 70))%Z then Some (n - 55)%Z
  else None.

(** The value of a non-empty run of digits of the given radix. *)
Fixpoint digits_from (radix acc : Z) (s : string) : option Z :=
  match s with
  | EmptyString => Some acc
  | String c s' =>
      match digit_of c with
      | Some d => if (d <? radix)%Z then digits_from radix (radix * acc + d) s' else None
      | None => None
      end
  end.

Definition digits (radix : Z) (s : string) : option Z :=
  match s with
  | EmptyString => None
  | _ => digits_from radix 0 s
  end.

Definition all_digits (s : string) : bool := bool_decide (is_Some (digits 10 s)).

(** [ExponentPart] without its letter: an optionally signed run of digits. *)
Definition is_signed_integer (s : string) : bool :=
  match s with
  | String "+" r | String "-" r => all_digits r
  | _ => all_digits s
  end.

(** The mantissa forms [D+], [D+ . D*] and [. D+]. *)
Definition is_mantissa (s : string) : bool :=
  match JS.indexOf "." s with
  | None => all_digits s
  | Some i =>
      let int := JS.str_take i s in
      let frac := JS.str_drop (S i) s in
      match int, frac with
      | EmptyString, _ => all_digits frac
      | _, EmptyString => all_digits int
      | _, _ => all_digits int && all_digits frac
      end
  end.

Definition exponent_at (s : string) : option nat :=
  match JS.indexOf "e" s, JS.indexOf "E" s with
  | Some i, Some j => Some (min i j)
  | Some i, None | None, Some i => Some i
  | None, None => None
  end.

(** The value of a signed run of digits. *)
Definition signed_integer (s : string) : Z :=
  match s with
  | String "+" r => default 0%Z (digits 10 r)
  | String "-" r => (- default 0 (digits 10 r))%Z
  | _ => default 0%Z (digits 10 s)
  end.

(** The double of a mantissa at a decimal exponent.  With digits of value
    z, not 0, the value is z * 10^e: above every double when e is over 400,
    and below half the least double when e is under -400 less the count of
    digits. *)
Definition scientific (mantissa : string) (exponent : Z) : number :=
  let i := default (String.length mantissa) (JS.indexOf "." mantissa) in
  let int := JS.str_take i mantissa in
  let frac := JS.str_drop (S i) mantissa in
  let z := default 0%Z (digits_from 10 0 (int +:+ frac)) in
  let e := (exponent - Z.of_nat (String.length frac))%Z in
  if (z =? 0)%Z then Int 0
  else if (400 <? e)%Z then Inf false
  else if (e <? - (400 + Z.of_nat (String.length (int +:+ frac))))%Z then Int 0
  else if (0 <=? e)%Z then round_ratio (z * 10 ^ e) 1
  else round_ratio z (10 ^ (- e)).

(** [StrUnsignedDecimalLiteral]: [Infinity], a plain run of digits, or a
    mantissa with or without exponent part. *)
Definition unsigned_decimal (s : string) : number :=
  if String.eqb s "Infinity" then Inf false
  else match digits 10 s with
       | Some z => of_Z z
       | None =>
           match exponent_at s with
           | Some i =>
               if is_mantissa (JS.str_take i s) && is_signed_integer (JS.str_drop (S i) s)
               then scientific (JS.str_take i s) (signed_integer (JS.str_drop (S i) s))
               else NaN
           | None => if is_mantissa s then scientific s 0 else NaN
           end
       end.

Definition negate (n : number) : number :=
  match n with
  | NaN => NaN
  | Int z => Int (- z)
  | Frac m k => Frac (- m) k
  | Inf negative => Inf (negb negative)
  end.

(** [StrNumericLiteral]: a signed decimal literal, or an unsigned binary,
    octal or hexadecimal integer. *)
Definition numeric_literal (s : string) : number :=
  match s with
  | String "0" (String "x" r) | String "0" (String "X" r) =>
      from_option of_Z NaN (digits 16 r)
  | String "0" (String "o" r) | String "0" (String "O" r) =>
      from_option of_Z NaN (digits 8 r)
  | String "0" (String "b" r) | String "0" (String "B" r) =>
      from_option of_Z NaN (digits 2 r)
  | String "+" r => unsigned_decimal r
  | String "-" r => negate (unsigned_decimal r)
  | _ => unsigned_decimal s
  end.

(** The unary plus on a string: blanks around the literal are dropped and
    the empty string is 0. *)
Definition ofString (s : string) : number :=
  match JS.trim s with
  | EmptyString => Int 0
  | t => numeric_literal t
  end.

End Number.

(** ** lib/baseHandler.js: version aggregation *)
Module Aggregate.
Import Number.

(** [result[i] += x].  Reading a missing element gives [undefined], and
    [undefined + x] is NaN; the loop writes at indices 0, 1, 2 in turn, so
    a missing index is the array's length and the write appends. *)
Definition bump (result : list number) (i : nat) (x : number) : list number :=
  match result !! i with
  | Some r => <[i := add r x]> result
  | None => result ++ [NaN]
  end.

(** The callback of the [reduce] in [_aggregateVersions]. *)
Definition accumulate (errorRoot : string) (result : list number) (version : string)
    : res (list number) :=
  let parts := JS.split "." version in
  if negb (length parts =? 3)%nat || existsb (fun part => isNaN (ofString part)) parts
  then Throw (Error (errorRoot +:+ ": " +:+ version))
  else
    Ok (foldl (fun result i => bump result i (ofString (default EmptyString (parts !! i))))
              result [0; 1; 2]%nat).

(** [xs.reduce(f, init)] with a callback that may throw. *)
Fixpoint reduce {A B} (f : B → A → res B) (xs : list A) (init : B) : res B :=
  match xs with
  | [] => Ok init
  | x :: rest =>
      match f init x with
      | Ok acc => reduce f rest acc
      | Throw e => Throw e
      end
  end.

(** [join('.')] on an array of numbers. *)
Definition join_numbers (ns : list number) : string :=
  JS.join "." (toString <$> ns).

(** [base] is [None] when the caller leaves it out. *)
Definition _aggregateVersions (versions : list string) (errorRoot : string)
    (base : option string) : res string :=
  match reduce (accumulate errorRoot) versions
          (ofString <$> JS.split "." (default "0.0.0" base)) with
  | Ok result => Ok (join_numbers result)
  | Throw e => Throw e
  end.

End Aggregate.

(** ** The semver package, as far as [getLatestVersion] calls it

    A model of [semver.prerelease] and [semver.gt] in strict mode: the
    grammar of the package's FULL pattern, its length and integer limits, and
    its precedence rules. *)
Module Semver.

Record SemVer := {
  major : Z; minor : Z; patch : Z;
  prerelease_ids : list string;
  build : list string
}.

Definition MAX_LENGTH : nat := 256.
Definition MAX_SAFE_INTEGER : Z := (2 ^ 53 - 1)%Z.

Definition is_ident_char (c : ascii) : bool :=
  let n := nat_of_ascii c in
  ((48 <=? n) && (n <=? 57) || (65 <=? n) && (n <=? 90) || (97 <=? n) && (n <=? 122)
   || (n =? 45))%nat.

Fixpoint all_chars (p : ascii → bool) (s : string) : bool :=
  match s with
  | EmptyString => true
  | String c s' => p c && all_chars p s'
  end.

(** [0|[1-9]\d*] *)
Definition numeric_identifier (s : string) : option Z :=
  match s with
  | String "0" EmptyString => Some 0%Z
  | String "0" _ => None
  | _ => Number.digits 10 s
  end.

(** [[0-9A-Za-z-]+] *)
Definition build_identifier (s : string) : bool :=
  match s with
  | EmptyString => false
  | _ => all_chars is_ident_char s
  end.

(** [0|[1-9]\d*|\d*[a-zA-Z-][a-zA-Z0-9-]*]: a build identifier that, when
    made of digits only, has no leading zero. *)
Definition prerelease_identifier (s : string) : bool :=
  build_identifier s &&
  (negb (Number.all_digits s) || bool_decide (is_Some (numeric_identifier s))).

(** Cut [s] at the first [c]: the text before it, and the text after it
    when [c] occurs. *)
Definition cut (c : string) (s : string) : string * option string :=
  match JS.indexOf c s with
  | None => (s, None)
  | Some i => (JS.str_take i s, Some (JS.str_drop (i + String.length c) s))
  end.

Definition identifiers (check : string → bool) (part : option string)
    : option (list string) :=
  match part with
  | None => Some []
  | Some text =>
      let ids := JS.split "." text in
      if forallb check ids then Some ids else None
  end.

(** A match of [^v?MAIN(-PRERELEASE)?(\+BUILD)?$]; the numbers are the
    values of the three captured runs of digits. *)
Definition match_FULL (s : string) : option SemVer :=
  let s := match s with String "v" r => r | _ => s end in
  let '(front, build_part) := cut "+" s in
  let '(main, pre_part) := cut "-" front in
  match JS.split "." main with
  | [a; b; c] =>
      ma ← numeric_identifier a;
      mi ← numeric_identifier b;
      pa ← numeric_identifier c;
      pre ← identifiers prerelease_identifier pre_part;
      bld ← identifiers build_identifier build_part;
      Some {| major := ma; minor := mi; patch := pa; prerelease_ids := pre; build := bld |}
  | _ => None
  end.

(** [new SemVer(version)] *)
Definition make (version : string) : res SemVer :=
  if (MAX_LENGTH <? String.length version)%nat
  then Throw (TypeError "version is longer than 256 characters")
  else match match_FULL (JS.trim version) with
       | None => Throw (TypeError ("Invalid Version: " +:+ version))
       | Some v =>
           if (MAX_SAFE_INTEGER <? major v)%Z then Throw (TypeError "Invalid major version")
           else if (MAX_SAFE_INTEGER <? minor v)%Z then Throw (TypeError "Invalid minor version")
           else if (MAX_SAFE_INTEGER <? patch v)%Z then Throw (TypeError "Invalid patch version")
           else Ok v
       end.

(** [semver.parse(version)]: the pattern is tested on the string as given,
    and a version the constructor rejects parses to null. *)
Definition parse (version : string) : option SemVer :=
  if (MAX_LENGTH <? String.length version)%nat then None
  else match match_FULL version with
       | None => None
       | Some _ => match make version with Ok v => Some v | Throw _ => None end
       end.

(** [semver.prerelease(version)]: the identifiers, or null ([None]) when
    the version has none or does not parse. *)
Definition prerelease (version : string) : option (list string) :=
  match parse version with
  | Some v => match prerelease_ids v with [] => None | ids => Some ids end
  | None => None
  end.

(** The double nearest to a non-negative integer (ties to even). *)
Definition to_double (z : Z) : Z :=
  if (z <? 2 ^ 53)%Z then z
  else
    let e := (Z.log2 z - 52)%Z in
    let q := Z.shiftr z e in
    let r := Z.land z (2 ^ e - 1) in
    let half := (2 ^ (e - 1))%Z in
    let q' := if (half <? r)%Z || ((r =? half)%Z && Z.odd q) then (q + 1)%Z else q in
    Z.shiftl q' e.

(** [compareIdentifiers]: digit-only identifiers compare as numbers and
    sort before the others, which compare as strings. *)
Definition compareIdentifiers (a b : string) : comparison :=
  match Number.digits 10 a, Number.digits 10 b with
  | Some x, Some y => (to_double x ?= to_double y)%Z
  | Some _, None => Lt
  | None, Some _ => Gt
  | None, None => String.compare a b
  end.

(** The loop of [comparePre] over two non-empty identifier lists. *)
Fixpoint compare_ids (xs ys : list string) : comparison :=
  match xs, ys with
  | [], [] => Eq
  | _ :: _, [] => Gt
  | [], _ :: _ => Lt
  | a :: xs', b :: ys' =>
      if String.eqb a b then compare_ids xs' ys' else compareIdentifiers a b
  end.

Definition comparePre (a b : SemVer) : comparison :=
  match prerelease_ids a, prerelease_ids b with
  | _ :: _, [] => Lt
  | [], _ :: _ => Gt
  | [], [] => Eq
  | xs, ys => compare_ids xs ys
  end.

Definition compareMain (a b : SemVer) : comparison :=
  match (major a ?= major b)%Z with
  | Eq => match (minor a ?= minor b)%Z with
          | Eq => (patch a ?= patch b)%Z
          | c => c
          end
  | c => c
  end.

Definition compare (a b : SemVer) : comparison :=
  match compareMain a b with
  | Eq => comparePre a b
  | c => c
  end.

(** [semver.gt(a, b)]: throws when either string is not a version. *)
Definition gt (a b : string) : res bool :=
  match make a with
  | Throw e => Throw e
  | Ok va =>
      match make b with
      | Throw e => Throw e
      | Ok vb => Ok (match compare va vb with Gt => true | _ => false end)
      end
  end.

End Semver.

(** ** lib/baseHandler.js: version selection *)
Module Versions.

Definition isPreReleaseVersion (version : string) : bool :=
  bool_decide (Semver.prerelease version ≠ None).

(** [getLatestVersion] on an array of strings; [None] is null.  (A value
    that is not an array is handed back as it is.) *)
Definition getLatestVersion (versions : list string) : res (option string) :=
  match versions with
  | [] => Ok None
  | [v] => Ok (Some v)
  | first :: _ =>
      match
        Aggregate.reduce
          (fun max current =>
             match Semver.gt current max with
             | Ok b => Ok (if b then current else max)
             | Throw e => Throw e
             end)
          (filter (fun v => isPreReleaseVersion v = false) versions)
          first
      with
      | Ok v => Ok (Some v)
      | Throw e => Throw e
      end
  end.

End Versions.

(** ** lib/entitySpec.js *)
Module EntitySpec.

(** Modelled from the spec: the identity class of lib/entitySpec.js, whose
    source is not at hand.  "Identity (spec): {ecosystem, provider,
    namespace, name, revision, tool, toolVersion}"; [None] is a field that
    is null or not set.  The serialisations [toUrn], [toUrl] and [fromUrl]
    stay parameters of the handlers. *)
Record t := {
  type : option string;
  provider : option string;
  namespace : option string;
  name : option string;
  revision : option string;
  tool : option string;
  toolVersion : option string
}.

(** Modelled from the spec: the constructor of the same class, as the
    handlers call it, [new EntitySpec(type, provider, namespace, name,
    revision, tool)]; it keeps its six arguments, and the seventh field is
    not set. *)
Definition make (type provider namespace name revision tool : option string) : t :=
  {| type := type; provider := provider; namespace := namespace; name := name;
     revision := revision; tool := tool; toolVersion := None |}.

End EntitySpec.

(** ** lib/baseHandler.js: links *)
Module Links.

(** [this.toolSpec], as the handlers define it. *)
Record ToolSpec := { tool : string; toolVersion : string }.

Record request := { casedSpec : option EntitySpec.t; url : string }.

(** [a || b] on values that are strings when present. *)
Definition or_else (a : option string) (b : string) : option string :=
  match a with
  | Some (String _ _) => a
  | _ => Some b
  end.

Section Handler.
Variable toUrn : EntitySpec.t → string.
Variable toUrl : EntitySpec.t → string.
Variable fromUrl : string → EntitySpec.t.
Variable toolSpec : ToolSpec.

Definition toSpec (r : request) : EntitySpec.t :=
  default (fromUrl (url r)) (casedSpec r).

(** [Object.assign(Object.create(spec), spec, this.toolSpec)] *)
Definition withTool (spec : EntitySpec.t) : EntitySpec.t :=
  {| EntitySpec.type := EntitySpec.type spec;
     EntitySpec.provider := EntitySpec.provider spec;
     EntitySpec.namespace := EntitySpec.namespace spec;
     EntitySpec.name := EntitySpec.name spec;
     EntitySpec.revision := EntitySpec.revision spec;
     EntitySpec.tool := Some (tool toolSpec);
     EntitySpec.toolVersion := Some (toolVersion toolSpec) |}.

Definition getUrnFor (r : request) (spec : option EntitySpec.t) : string :=
  toUrn (withTool (default (toSpec r) spec)).

(** The identity whose URN [addBasicToolLinks] links as sibling. *)
Definition siblingSpec (spec : EntitySpec.t) : EntitySpec.t :=
  let newSpec :=
    EntitySpec.make (EntitySpec.type spec) (EntitySpec.provider spec)
      (EntitySpec.namespace spec) (EntitySpec.name spec)
      (EntitySpec.revision spec) (EntitySpec.tool spec) in
  {| EntitySpec.type := EntitySpec.type newSpec;
     EntitySpec.provider := EntitySpec.provider newSpec;
     EntitySpec.namespace := EntitySpec.namespace newSpec;
     EntitySpec.name := EntitySpec.name newSpec;
     EntitySpec.revision := EntitySpec.revision newSpec;
     EntitySpec.tool := or_else (EntitySpec.tool newSpec) (tool toolSpec);
     EntitySpec.toolVersion := None |}.

Definition addBasicToolLinks (r : request) (spec : option EntitySpec.t) : Eff unit :=
  emit (LinkResource "self" (getUrnFor r spec)) ;;
  match spec with
  | None => raise (TypeError "Cannot read property 'type' of null")
  | Some spec => emit (LinkSiblings (toUrn (siblingSpec spec)))
  end.

(** [linkAndQueue]; the policy handed to [queue] is the request's own
    [getNextPolicy(name)] and is left out of the effect. *)
Definition linkAndQueue (r : request) (name : string) (spec : option EntitySpec.t)
    : Eff unit :=
  let spec := default (toSpec r) spec in
  emit (LinkResource name (toUrn spec)) ;;
  emit (Queue name (toUrl spec)).

End Handler.

End Links.

(** ** lib/baseHandler.js: attachments *)
Module Attachments.

(** An element of the hidden [_attachments] list. *)
Record stashed := { path : string; token : string; attachment : string }.

(** An element of the public [attachments] list, [{ path, token }]. *)
Record listed := { listed_path : string; listed_token : string }.

(** The two properties of the document that [attachFiles] touches; [None]
    is a property that is not set. *)
Record document := {
  _attachments : option (list stashed);
  attachments : option (list listed)
}.

Section Files.
(** [shajs('sha256').update(content).digest('hex')] *)
Variable sha256_hex : string → string.
(** [path.join] *)
Variable join : string → string → string.

Definition computeToken (content : string) : string := sha256_hex content.

(** The [forEach] of [attachFiles] over the two lists of the document;
    [readFileSync] throws on a file it cannot read, which ends the loop
    and leaves what was pushed so far. *)
Fixpoint attach_each (readFileSync : string → res string) (location : string)
    (stash : list stashed) (public : list listed) (files : list string)
    : document * res unit :=
  match files with
  | [] => ({| _attachments := Some stash; attachments := Some public |}, Ok tt)
  | file :: rest =>
      match readFileSync (join location file) with
      | Throw e => ({| _attachments := Some stash; attachments := Some public |}, Throw e)
      | Ok content =>
          let token := computeToken content in
          attach_each readFileSync location
            (stash ++ [{| path := file; token := token; attachment := content |}])
            (public ++ [{| listed_path := file; listed_token := token |}])
            rest
      end
  end.

(** [attachFiles(document, files, location)]: the document after the
    call, and how the call ended.  [files] is [None] when null. *)
Definition attachFiles (readFileSync : string → res string) (doc : document)
    (files : option (list string)) (location : string) : document * res unit :=
  match files with
  | None | Some [] => (doc, Ok tt)
  | Some files =>
      attach_each readFileSync location
        (default [] (_attachments doc)) (default [] (attachments doc)) files
  end.

End Files.

End Attachments.

(** ** providers/process/mavenExtract.js *)
Module MavenExtract.

(** The values that the XML parser hands back: strings, arrays and objects;
    [VUndef] is [undefined] or [null].  An object is the finite map of its
    own properties. *)
#[warnings="-register-all"]
Inductive value :=
| VUndef
| VStr (s : string)
| VArr (items : list value)
| VObj (fields : gmap string value).

Definition indexed (items : list value) : gmap string value :=
  list_to_map (imap (fun i v => (pretty i, v)) items).

(** The own enumerable properties of a value, which [Object.assign] copies:
    the fields of an object, the elements of an array and the code units of
    a string under their indices. *)
Definition own (v : value) : gmap string value :=
  match v with
  | VUndef => ∅
  | VStr s => indexed (VStr <$> JS.chars s)
  | VArr items => indexed items
  | VObj fields => fields
  end.

(** [v.k] and [v[0]] for the names the processor reads (element names and
    the index 0, never [length] or a method): reading from [undefined]
    throws, a missing property is [undefined]. *)
Definition get (v : value) (k : string) : res value :=
  match v with
  | VUndef => Throw (TypeError ("Cannot read property '" +:+ k +:+ "' of undefined"))
  | _ => Ok (default VUndef (own v !! k))
  end.

(** [v.trim()] *)
Definition trim (v : value) : res string :=
  match v with
  | VStr s => Ok (JS.trim s)
  | VUndef => Throw (TypeError "Cannot read property 'trim' of undefined")
  | _ => Throw (TypeError "trim is not a function")
  end.

Definition truthy (v : value) : bool :=
  match v with
  | VUndef | VStr EmptyString => false
  | _ => true
  end.

(** [delete v.k]: throws on [undefined], removes a field of an object and
    leaves any other value as it is. *)
Definition delete_field (k : string) (v : value) : res value :=
  match v with
  | VUndef => Throw (TypeError "Cannot convert undefined or null to object")
  | VObj fields => Ok (VObj (delete k fields))
  | _ => Ok v
  end.

Definition stripped_fields : list string :=
  ["build"; "dependencies"; "dependencyManagement"; "modules"; "profiles"].

(** The five [delete pom.project.x] statements of [_getManifest]. *)
Definition strip (pom : value) : res value :=
  project ← get pom "project";
  project ← foldl (fun acc k => project ← acc; delete_field k project)
              (Ok project) stripped_fields;
  match pom with
  | VObj fields => Ok (VObj (<["project" := project]> fields))
  | _ => Ok pom
  end.

(** [pom && pom.project && pom.project.parent] *)
Definition has_parent (pom : value) : bool :=
  truthy pom &&
  match get pom "project" with
  | Ok project =>
      truthy project &&
      match get project "parent" with
      | Ok parent => truthy parent
      | Throw _ => false
      end
  | Throw _ => false
  end.

Record manifest := { summary : value; poms : list value }.

(** [parent.k[0].trim()] *)
Definition first_trimmed (parent : value) (k : string) : res string :=
  elements ← get parent k;
  element ← get elements "0";
  trim element.

(** The coordinates read by [_fetchParentPomManifest]; the arguments of the
    constructor are evaluated from left to right. *)
Definition parent_spec (pom : value) : res EntitySpec.t :=
  project ← get pom "project";
  parents ← get project "parent";
  parent ← get parents "0";
  groupId ← first_trimmed parent "groupId";
  artifactId ← first_trimmed parent "artifactId";
  version ← first_trimmed parent "version";
  Ok (EntitySpec.make (Some "maven") (Some "mavencentral")
        (Some groupId) (Some artifactId) (Some version) None).

(** [Object.assign({}, a, b)]: the properties of [b] win. *)
Definition assign (a b : value) : value := VObj (own b ∪ own a).

Definition _mergePomInto (pom : value) (m : manifest) : res manifest :=
  inherited ← get (summary m) "project";
  project ← get pom "project";
  Ok {| summary := VObj {[ "project" := assign inherited project ]};
        poms := pom :: poms m |}.

Section Resolver.
(** [parseString] of xml2js. *)
Variable parseString : string → res value.
(** [mavenCentral.fetchPom(spec, file)]: the status code, with the text
    that the call left in the temporary file; a rejected fetch throws. *)
Variable fetchPom : EntitySpec.t → res (Z * string).

Definition _fetchParentPomManifest
    (_getManifest : string → option (res manifest)) (pom : value)
    : option (res manifest) :=
  match parent_spec pom with
  | Throw e => Some (Throw e)
  | Ok spec =>
      match fetchPom spec with
      | Throw e => Some (Throw e)
      | Ok (code, file) =>
          if (code =? 404)%Z then Some (Ok {| summary := VObj ∅; poms := [] |})
          else _getManifest file
      end
  end.

(** [_getManifest] on the text of the file at [location].  Each level of
    the ancestor chain takes one unit of fuel; [None] is a chain longer
    than the fuel given. *)
Fixpoint _getManifest (fuel : nat) (content : string) : option (res manifest) :=
  match fuel with
  | 0 => None
  | S fuel' =>
      match (pom ← parseString (JS.trim content); strip pom) with
      | Throw e => Some (Throw e)
      | Ok pom =>
          if has_parent pom then
            match _fetchParentPomManifest (_getManifest fuel') pom with
            | Some (Ok parentManifest) => Some (_mergePomInto pom parentManifest)
            | other => other
            end
          else Some (Ok {| summary := pom; poms := [pom] |})
      end
  end.

End Resolver.

End MavenExtract.

(** ** providers/fetch/dockerFetch.js *)
Module DockerFetch.

(** What the callback of [exec] receives: an error, or the standard output
    of the command. *)
Inductive exec_result :=
| Failed (e : error)
| Stdout (out : string).

(** [spec.namespace ? a : b] *)
Definition has_namespace (spec : EntitySpec.t) : bool :=
  match EntitySpec.namespace spec with
  | Some (String _ _) => true
  | _ => false
  end.

Definition _getTagImageName (spec : EntitySpec.t) : string :=
  if has_namespace spec
  then JS.show (EntitySpec.namespace spec) +:+ "/" +:+ JS.show (EntitySpec.name spec)
         +:+ ":" +:+ JS.show (EntitySpec.revision spec)
  else JS.show (EntitySpec.name spec) +:+ ":" +:+ JS.show (EntitySpec.revision spec).

Definition _getHashImageName (spec : EntitySpec.t) : string :=
  if has_namespace spec
  then JS.show (EntitySpec.namespace spec) +:+ "/" +:+ JS.show (EntitySpec.name spec)
         +:+ "@sha256:" +:+ JS.show (EntitySpec.revision spec)
  else JS.show (EntitySpec.name spec) +:+ "@sha256:" +:+ JS.show (EntitySpec.revision spec).

(** The double quote of the command lines. *)
Definition quote : string := String "034" EmptyString.

Definition apk_info_command (spec : EntitySpec.t) : string :=
  "docker run --entrypoint " +:+ quote +:+ "apk" +:+ quote +:+ " "
    +:+ _getHashImageName spec +:+ " info".

Definition apk_info_v_command (spec : EntitySpec.t) : string :=
  "docker run --entrypoint " +:+ quote +:+ "apk" +:+ quote +:+ " "
    +:+ _getHashImageName spec +:+ " info -v".

Definition dpkg_list_command (spec : EntitySpec.t) : string :=
  "docker run --entrypoint " +:+ quote +:+ "dpkg" +:+ quote +:+ " "
    +:+ (if has_namespace spec
         then JS.show (EntitySpec.namespace spec) +:+ "/" +:+ JS.show (EntitySpec.name spec)
         else JS.show (EntitySpec.name spec))
    +:+ "@sha256:" +:+ JS.show (EntitySpec.revision spec)
    +:+ " --list | awk 'NR>5 {print $2 " +:+ quote +:+ "___" +:+ quote +:+ " $3}'".

Section Fetch.
(** [child_process.exec], by the command line. *)
Variable exec : string → exec_result.
(** [_getRevision]: the digest that [docker pull] and [docker inspect]
    resolve for the tagged image, or the rejection. *)
Variable _getRevision : EntitySpec.t → res string.
Variable toUrl : EntitySpec.t → string.

(** [_getApk]: a failing [apk info] and an empty listing both give null; a
    failing [apk info -v] rejects. *)
Definition _getApk (spec : EntitySpec.t) : res (option DockerExtract.apk_listing) :=
  let names :=
    match exec (apk_info_command spec) with
    | Failed _ => None
    | Stdout out => Some (JS.trim out)
    end in
  match names with
  | None | Some EmptyString => Ok None
  | Some names =>
      match exec (apk_info_v_command spec) with
      | Failed e => Throw e
      | Stdout out =>
          Ok (Some {| DockerExtract.names := names;
                      DockerExtract.namesAndVersions := JS.trim out |})
      end
  end.

Definition _getDpkg (spec : EntitySpec.t) : option string :=
  match exec (dpkg_list_command spec) with
  | Failed _ => None
  | Stdout out => Some (JS.trim out)
  end.

(** How [handle] leaves the request: marked as skipped, or with a document
    [{ apk, dpkg, location }], the location being the empty string; in both
    cases with the url of the spec at the resolved revision. *)
Inductive fetched :=
| Skipped (url : string)
| Document (url : string) (document : DockerExtract.document).

Definition withRevision (revision : string) (spec : EntitySpec.t) : EntitySpec.t :=
  {| EntitySpec.type := EntitySpec.type spec;
     EntitySpec.provider := EntitySpec.provider spec;
     EntitySpec.namespace := EntitySpec.namespace spec;
     EntitySpec.name := EntitySpec.name spec;
     EntitySpec.revision := Some revision;
     EntitySpec.tool := EntitySpec.tool spec;
     EntitySpec.toolVersion := EntitySpec.toolVersion spec |}.

Definition handle (spec : EntitySpec.t) : res fetched :=
  revision ← _getRevision spec;
  let spec := withRevision revision spec in
  let url := toUrl spec in
  apk ← _getApk spec;
  let dpkg := _getDpkg spec in
  match apk, dpkg with
  | None, None | None, Some EmptyString => Ok (Skipped url)
  | _, _ => Ok (Document url {| DockerExtract.apk := apk; DockerExtract.dpkg := dpkg |})
  end.

End Fetch.

(** The document [{ apk, dpkg, location }] as it sits on the request:
    [_getApk] and [_getDpkg] answer null, not undefined, when they find
    nothing. *)
Definition stored_document (doc : DockerExtract.document) : DockerExtract.stored :=
  {| DockerExtract.stored_apk :=
       match DockerExtract.apk doc with
       | Some a => DockerExtract.Value a
       | None => DockerExtract.Null
       end;
     DockerExtract.stored_dpkg :=
       match DockerExtract.dpkg doc with
       | Some listing => DockerExtract.Value listing
       | None => DockerExtract.Null
       end |}.

End DockerFetch.

(** ** lib/baseHandler.js: the files with telling names *)
Module NamedFiles.

Definition patterns : list string :=
  ["license"; "license-mit"; "license-apache"; "unlicense"; "copying";
   "notice"; "notices"; "contributors"; "patents"].

Definition buildGlob (roots : list string) : string :=
  "+(" +:+ JS.join "|" (flat_map (fun root => [root; root +:+ ".{md,txt,html}"]) roots) +:+ ")".

Section Files.
Variable sha256_hex : string → string.
Variable join : string → string → string.
(** [glob(pattern, { cwd, nocase: true, onlyFiles: true })]: the matches,
    relative to [cwd]. *)
Variable glob : string → string → res (list string).

(** [attachInterestinglyNamedFiles(document, location, folder)]; [location] is
    [None] when undefined or null, and [folder] is the empty string when
    the caller leaves it out. *)
Definition attachInterestinglyNamedFiles (readFileSync : string → res string)
    (doc : Attachments.document) (location : option string) (folder : string)
    : Attachments.document * res unit :=
  match location with
  | None => (doc, Ok tt)
  | Some location =>
      match glob (buildGlob patterns) (join location folder) with
      | Throw e => (doc, Throw e)
      | Ok [] => (doc, Ok tt)
      | Ok files =>
          Attachments.attachFiles sha256_hex join readFileSync doc
            (Some (join folder <$> files)) location
      end
  end.

End Files.

End NamedFiles.

(** ** lib/baseHandler.js: the remaining links *)
Module ToolLinks.

Definition setTool (tool : string) (spec : EntitySpec.t) : EntitySpec.t :=
  {| EntitySpec.type := EntitySpec.type spec;
     EntitySpec.provider := EntitySpec.provider spec;
     EntitySpec.namespace := EntitySpec.namespace spec;
     EntitySpec.name := EntitySpec.name spec;
     EntitySpec.revision := EntitySpec.revision spec;
     EntitySpec.tool := Some tool;
     EntitySpec.toolVersion := EntitySpec.toolVersion spec |}.

Section Handler.
Variable toUrn : EntitySpec.t → string.
Variable toUrl : EntitySpec.t → string.
Variable fromUrl : string → EntitySpec.t.

(** [link(request, name, spec)] *)
Definition link (name : string) (spec : EntitySpec.t) : Eff unit :=
  emit (LinkResource name (toUrn spec)).

(** [addSelfLink(request, urn)]; [urn] is [None] when left out. *)
Definition addSelfLink (r : Links.request) (urn : option string) : Eff unit :=
  emit (LinkResource "self"
          (match urn with
           | Some (String c u) => String c u
           | _ => toUrn (Links.toSpec fromUrl r)
           end)).

(** [linkAndQueueTool(request, name, tool)]; [tool] is [None] when left out
    and then stands for [name].  The spec is the object of the request when
    the request has a cased spec, so the assignment to [spec.tool] stays on
    the request; a spec parsed from the url is a fresh object.  The request
    after the call is returned with the effects. *)
Definition linkAndQueueTool (r : Links.request) (name : string) (tool : option string)
    : Links.request * Eff unit :=
  let tool := default name tool in
  let spec := Links.toSpec fromUrl r in
  let url := toUrl spec in
  let spec := setTool tool spec in
  (match Links.casedSpec r with
   | Some _ => {| Links.casedSpec := Some spec; Links.url := Links.url r |}
   | None => r
   end,
   emit (LinkCollection name (toUrn spec)) ;; emit (Queue tool url)).

End Handler.

End ToolLinks.

(** ** providers/process/mavenExtract.js: the handler *)
Module MavenHandle.
Import MavenExtract.

(** [_.get(object, path)] of lodash for a dotted path of plain names, given
    as the list of its keys: [undefined] as soon as a step is missing. *)
Fixpoint lodash_get (v : value) (path : list string) : value :=
  match path with
  | [] => v
  | k :: rest =>
      match v with
      | VUndef => VUndef
      | _ => lodash_get (default VUndef (own v !! k)) rest
      end
  end.

(** The manifest [{ summary, poms }] as the object that lodash walks. *)
Definition manifest_value (m : manifest) : value :=
  VObj (<["summary" := summary m]> {[ "poms" := VArr (poms m) ]}).

Definition _discoverCandidateSourceLocations (m : manifest) : list value :=
  filter (fun e => truthy e = true) [lodash_get (manifest_value m) ["project"; "scm"; "url"]].

(** The registry data that the handler reads: the timestamp, a number, and
    the list [ec] of file extensions; [None] is a missing field. *)
Record registry := { timestamp : option Z; ec : option (list string) }.

Definition schemaVersion : string := "1.1.2".

Definition toolSpec : Links.ToolSpec :=
  {| Links.tool := "clearlydefined"; Links.toolVersion := schemaVersion |}.

Section Handler.
(** The source specs of lib/sourceSpec.js, kept abstract. *)
Variable source : Type.

Record document := {
  version : option string;
  location : option string;
  registryData : option registry;
  manifest_of : option manifest;
  releaseDate : option string;
  sourceInfo : option source;
  attached : Attachments.document
}.

Record request := {
  type : string;
  processMode : string;
  spec_of : Links.request;
  doc : document
}.

Variable toUrn : EntitySpec.t → string.
Variable toUrl : EntitySpec.t → string.
Variable fromUrl : string → EntitySpec.t.
Variable parseString : string → res value.
Variable fetchPom : EntitySpec.t → res (Z * string).
(** [fs.readFileSync(location).toString()] *)
Variable readFile : string → res string.
(** [new Date(timestamp).toISOString()] *)
Variable toISOString : Z → res string.
(** [this.sourceFinder(spec.version, candidates, options)], by the spec that
    the version is read from; [None] is a finder that found nothing. *)
Variable sourceFinder : EntitySpec.t → list value → res (option source).
(** [SourceSpec.fromObject(spec)] with its type set to 'sourcearchive'. *)
Variable sourceArchive : EntitySpec.t → source.
(** [SourceSpec.fromObject(sourceInfo).toEntitySpec()] *)
Variable sourceEntity : source → EntitySpec.t.
(** [mavenCentral.sourceExtension] *)
Variable sourceExtension : string.
Variable sha256_hex : string → string.
Variable join : string → string → string.
Variable glob : string → string → res (list string).
Variable readFileSync : string → res string.

Definition canHandle (r : request) : bool :=
  String.eqb (type r) "maven" &&
  bool_decide (EntitySpec.type (Links.toSpec fromUrl (spec_of r)) = Some "maven").

Definition isProcessing (r : request) : bool := String.eqb (processMode r) "process".

Definition _discoverSource (spec : EntitySpec.t) (m : manifest) (rd : registry)
    : res (option source) :=
  match sourceFinder spec (_discoverCandidateSourceLocations m) with
  | Throw e => Throw e
  | Ok (Some githubSource) => Ok (Some githubSource)
  | Ok None =>
      match ec rd with
      | None => Ok None
      | Some extensions =>
          if bool_decide (sourceExtension ∈ extensions)
          then Ok (Some (sourceArchive spec))
          else Ok None
      end
  end.

(** [_createDocument]: the document of the request is replaced first, by an
    object with the metadata, the manifest and the registry data only; the
    release date and the source are added to it afterwards. *)
Definition _createDocument (old : document) (spec : EntitySpec.t) (m : manifest)
    (rd : option registry) : document * res unit :=
  let fresh :=
    {| version := version old; location := None; registryData := rd;
       manifest_of := Some m; releaseDate := None; sourceInfo := None;
       attached := {| Attachments._attachments := None; Attachments.attachments := None |} |} in
  match rd with
  | None => (fresh, Throw (TypeError "Cannot read property 'timestamp' of undefined"))
  | Some rd =>
      let dated :=
        match timestamp rd with
        | None | Some 0%Z => Ok None
        | Some t => date ← toISOString t; Ok (Some date)
        end in
      match dated with
      | Throw e => (fresh, Throw e)
      | Ok date =>
          let fresh :=
            {| version := version fresh; location := location fresh;
               registryData := registryData fresh; manifest_of := manifest_of fresh;
               releaseDate := date; sourceInfo := None; attached := attached fresh |} in
          match _discoverSource spec m rd with
          | Throw e => (fresh, Throw e)
          | Ok found =>
              ({| version := version fresh; location := location fresh;
                  registryData := registryData fresh; manifest_of := manifest_of fresh;
                  releaseDate := releaseDate fresh; sourceInfo := found;
                  attached := attached fresh |}, Ok tt)
          end
      end
  end.

(** The second part of [handle]: the source, when the document names one,
    is linked and queued. *)
Definition linkSource (r : Links.request) (d : document) : Eff unit :=
  match sourceInfo d with
  | Some info => Links.linkAndQueue toUrn toUrl fromUrl r "source" (Some (sourceEntity info))
  | None => mret tt
  end.

Definition withAttached (d : document) (a : Attachments.document) : document :=
  {| version := version d; location := location d; registryData := registryData d;
     manifest_of := manifest_of d; releaseDate := releaseDate d;
     sourceInfo := sourceInfo d; attached := a |}.

Definition stamped (d : document) : document :=
  {| version := Some schemaVersion; location := location d; registryData := registryData d;
     manifest_of := manifest_of d; releaseDate := releaseDate d;
     sourceInfo := sourceInfo d; attached := attached d |}.

(** [handle]: the document of the request after the call, with the effects
    and the outcome; [None] is an ancestor chain longer than the fuel. *)
Definition handle (fuel : nat) (r : request) : option (document * Eff unit) :=
  if isProcessing r then
    let d := stamped (doc r) in
    let spec := Links.toSpec fromUrl (spec_of r) in
    let links := Links.addBasicToolLinks toUrn fromUrl toolSpec (spec_of r) (Some spec) in
    let content :=
      match location d with
      | Some file => readFile file
      | None => Throw (TypeError "The path argument must be a string")
      end in
    match content with
    | Throw e => Some (d, (links ;; raise e))
    | Ok content =>
        match _getManifest parseString fetchPom fuel content with
        | None => None
        | Some (Throw e) => Some (d, (links ;; raise e))
        | Some (Ok m) =>
            match _createDocument d spec m (registryData d) with
            | (d, Throw e) => Some (d, (links ;; raise e))
            | (d, Ok _) =>
                match NamedFiles.attachInterestinglyNamedFiles sha256_hex join glob
                        readFileSync (attached d) (location d) EmptyString with
                | (a, Throw e) => Some (withAttached d a, (links ;; raise e))
                | (a, Ok _) =>
                    Some (withAttached d a, (links ;; linkSource (spec_of r) (withAttached d a)))
                end
            end
        end
    end
  else Some (doc r, linkSource (spec_of r) (doc r)).

End Handler.

End MavenHandle.

(** * Notions used to state the properties *)

Module DockerSpec.

Definition missing_entry : error :=
  TypeError "Cannot read property 'replace' of undefined".

End DockerSpec.

Module AggregateSpec.
Import Number.

(** A component counts as numeric when the unary plus does not give NaN. *)
Definition numeric (part : string) : bool := negb (isNaN (ofString part)).

(** A version that splits at its dots into exactly three numeric
    components. *)
Definition valid_version (version : string) : bool :=
  match JS.split "." version with
  | [a; b; c] => numeric a && numeric b && numeric c
  | _ => false
  end.

Definition components (version : string) : list number :=
  ofString <$> JS.split "." version.

Definition message (errorRoot version : string) : error :=
  Error (errorRoot +:+ ": " +:+ version).

(** The numbers at position i of the versions, in order. *)
Definition column (i : nat) (versions : list string) : list number :=
  (fun version => ofString (default EmptyString (JS.split "." version !! i))) <$> versions.

(** The sum, in the arithmetic of doubles, of a component of the base and
    the numbers at position i of the versions. *)
Definition sum (b : string) (i : nat) (versions : list string) : number :=
  foldl add (ofString b) (column i versions).

(** A version in plain form: three components that are integers. *)
Definition triple (version : string) : option (Z * Z * Z) :=
  match components version with
  | [Int a; Int b; Int c] => Some (a, b, c)
  | _ => None
  end.

Definition add3 (x y : Z * Z * Z) : Z * Z * Z :=
  (x.1.1 + y.1.1, x.1.2 + y.1.2, x.2 + y.2)%Z.

Definition nonneg3 (t : Z * Z * Z) : Prop := (0 ≤ t.1.1 ∧ 0 ≤ t.1.2 ∧ 0 ≤ t.2)%Z.

Definition safe3 (t : Z * Z * Z) : Prop :=
  (t.1.1 ≤ 2 ^ 53 ∧ t.1.2 ≤ 2 ^ 53 ∧ t.2 ≤ 2 ^ 53)%Z.

Definition dotted (t : Z * Z * Z) : string :=
  pretty t.1.1 +:+ "." +:+ pretty t.1.2 +:+ "." +:+ pretty t.2.

End AggregateSpec.

Module LinksSpec.
Import Links.

(** A serialisation that shows every field, used to tell identities apart
    in examples; the handlers are stated for any [toUrn]. *)
Definition show_urn (spec : EntitySpec.t) : string :=
  JS.join ":"
    (default "-" <$>
       [EntitySpec.type spec; EntitySpec.provider spec; EntitySpec.namespace spec;
        EntitySpec.name spec; EntitySpec.revision spec; EntitySpec.tool spec;
        EntitySpec.toolVersion spec]).

Definition redie : EntitySpec.t :=
  {| EntitySpec.type := Some "npm"; EntitySpec.provider := Some "npmjs";
     EntitySpec.namespace := None; EntitySpec.name := Some "redie";
     EntitySpec.revision := Some "0.3.0"; EntitySpec.tool := None;
     EntitySpec.toolVersion := None |}.

Definition clearlydefined : ToolSpec := {| tool := "clearlydefined"; toolVersion := "1.1.2" |}.

(** The group-qualified identity of the specification: revision and tool
    version both cleared, tool name kept or filled in. *)
Definition without_versions (toolSpec : ToolSpec) (spec : EntitySpec.t) : EntitySpec.t :=
  {| EntitySpec.type := EntitySpec.type spec;
     EntitySpec.provider := EntitySpec.provider spec;
     EntitySpec.namespace := EntitySpec.namespace spec;
     EntitySpec.name := EntitySpec.name spec;
     EntitySpec.revision := None;
     EntitySpec.tool := or_else (EntitySpec.tool spec) (tool toolSpec);
     EntitySpec.toolVersion := None |}.

End LinksSpec.

Module AttachmentsSpec.
Import Attachments.

(** Every stashed record carries the token of its own content. *)
Definition consistent (sha256_hex : string → string) (doc : document) : Prop :=
  Forall (fun a => token a = computeToken sha256_hex (attachment a))
         (default [] (_attachments doc)).

(** The public entry of a stashed record: [{ path, token }]. *)
Definition publish (a : stashed) : listed :=
  {| listed_path := path a; listed_token := token a |}.

(** A file system with the same text under two names. *)
Definition two_copies (file : string) : res string :=
  if String.eqb file "/tmp/cd-1/LICENSE" || String.eqb file "/tmp/cd-1/docs/COPYING"
  then Ok "MIT License"
  else Throw (Error ("ENOENT: " +:+ file)).

Definition slash_join (a b : string) : string := a +:+ "/" +:+ b.

End AttachmentsSpec.

Module MavenSpec.
Import MavenExtract.

(** The top-level fields that a fragment contributes: the own properties of
    its [project]. *)
Definition project_fields (pom : value) : gmap string value :=
  own (default VUndef (own pom !! "project")).

(** The override merge of a fragment list, most specific first: a field of
    an earlier fragment hides the same field of the later ones. *)
Definition merge_fragments (fragments : list value) : gmap string value :=
  foldr (fun fragment inherited => project_fields fragment ∪ inherited) ∅ fragments.

(** The value of field [k] in the first fragment that has it. *)
Fixpoint override_lookup (k : string) (fragments : list value) : option value :=
  match fragments with
  | [] => None
  | fragment :: ancestors =>
      match project_fields fragment !! k with
      | Some v => Some v
      | None => override_lookup k ancestors
      end
  end.

(** [resolves parseString fetchPom content fragments]: the text [content]
    parses and strips to the head of [fragments], and following the parent
    references through the registry gives the rest, in order, up to a
    descriptor without parent or a parent that the registry does not have
    (status 404). *)
Inductive resolves (parseString : string → res value)
    (fetchPom : EntitySpec.t → res (Z * string)) : string → list value → Prop :=
| resolves_root content pom descriptor :
    parseString (JS.trim content) = Ok pom →
    strip pom = Ok descriptor →
    has_parent descriptor = false →
    resolves parseString fetchPom content [descriptor]
| resolves_orphan content pom descriptor spec file :
    parseString (JS.trim content) = Ok pom →
    strip pom = Ok descriptor →
    has_parent descriptor = true →
    parent_spec descriptor = Ok spec →
    fetchPom spec = Ok (404%Z, file) →
    resolves parseString fetchPom content [descriptor]
| resolves_parent content pom descriptor spec code file ancestors :
    parseString (JS.trim content) = Ok pom →
    strip pom = Ok descriptor →
    has_parent descriptor = true →
    parent_spec descriptor = Ok spec →
    fetchPom spec = Ok (code, file) →
    code ≠ 404%Z →
    resolves parseString fetchPom file ancestors →
    resolves parseString fetchPom content (descriptor :: ancestors).

(** The descriptor without the five fields that [_getManifest] deletes. *)
Definition stripped (fields : gmap string value) : value :=
  VObj {[ "project" :=
            VObj (delete "profiles" (delete "modules" (delete "dependencyManagement"
                   (delete "dependencies" (delete "build" fields))))) ]}.

(** A registry with a three-level chain: [child] names [parent], [parent]
    names [root], and [orphan] names a parent that the registry lacks. *)
Definition coordinates (groupId artifactId version : string) : value :=
  VArr [VObj (list_to_map [("groupId", VArr [VStr groupId]);
                           ("artifactId", VArr [VStr artifactId]);
                           ("version", VArr [VStr version])])].

Definition text (s : string) : value := VArr [VStr s].

Definition child_fields : gmap string value :=
  list_to_map [("parent", coordinates " org.example " "parent" "2");
               ("artifactId", text "child");
               ("name", text "Child");
               ("build", text "plugins")].

Definition parent_fields : gmap string value :=
  list_to_map [("parent", coordinates "org.example" "root" "1");
               ("artifactId", text "parent");
               ("name", text "Parent");
               ("url", text "https://example.org/parent");
               ("modules", text "child")].

Definition root_fields : gmap string value :=
  list_to_map [("artifactId", text "root");
               ("url", text "https://example.org");
               ("licenses", text "MIT")].

Definition orphan_fields : gmap string value :=
  list_to_map [("parent", coordinates "org.example" "gone" "0");
               ("artifactId", text "orphan");
               ("profiles", text "release")].

Definition parse_example (content : string) : res value :=
  if String.eqb content "<child/>" then Ok (VObj {[ "project" := VObj child_fields ]})
  else if String.eqb content "<parent/>" then Ok (VObj {[ "project" := VObj parent_fields ]})
  else if String.eqb content "<root/>" then Ok (VObj {[ "project" := VObj root_fields ]})
  else if String.eqb content "<orphan/>" then Ok (VObj {[ "project" := VObj orphan_fields ]})
  else Throw (Error "Non-whitespace before first tag.").

Definition fetch_example (spec : EntitySpec.t) : res (Z * string) :=
  match EntitySpec.name spec with
  | Some "parent" => Ok (200%Z, "<parent/>" +:+ JS.LF)
  | Some "root" => Ok (200%Z, "<root/>" +:+ JS.LF)
  | _ => Ok (404%Z, EmptyString)
  end.

End MavenSpec.

(** * Notions used to state further properties *)

Module TextSpec.

(** [lacks c s]: the code unit [c] does not occur in [s]. *)
Fixpoint lacks (c : ascii) (s : string) : bool :=
  match s with
  | EmptyString => true
  | String a s' => negb (Ascii.eqb a c) && lacks c s'
  end.

(** No blank at either end: what [trim] leaves alone. *)
Definition trimmed (s : string) : Prop := JS.trim s = s.

End TextSpec.

Module DockerMoreSpec.
Import TextSpec.

(** A dpkg record as the fetcher prints it: name, three underscores,
    version. *)
Definition dpkg_line (r : string * string) : string := r.1 +:+ "___" +:+ r.2.

(** An entry of the verbose apk listing: name, hyphen, version. *)
Definition apk_entry (p : string * string) : string := p.1 +:+ "-" +:+ p.2.

Definition dpkg_effects (r : string * string) : list effect :=
  let url := "cd:/dpkg/dpkg/-/" +:+ r.1 +:+ "/" +:+ r.2 in
  [AddEmbeddedComponent url; NewRequest "dpkg" url].

(** A dpkg record that survives the listing: no line feed in either part, no
    underscore in the name, no delimiter in the version. *)
Definition dpkg_wellformed (r : string * string) : Prop :=
  lacks "010" r.1 = true ∧ lacks "010" r.2 = true ∧
  lacks "_" r.1 = true ∧ JS.indexOf "___" r.2 = None.

Definition apk_wellformed (p : string * string) : Prop :=
  lacks "010" p.1 = true ∧ lacks "010" p.2 = true.

(** A probe that found nothing: the command failed, or printed blanks
    only. *)
Definition found_nothing (r : DockerFetch.exec_result) : Prop :=
  match r with
  | DockerFetch.Failed _ => True
  | DockerFetch.Stdout out => JS.trim out = EmptyString
  end.

(** A command runner for examples: an alpine image with two packages and no
    dpkg. *)
Definition alpine_exec (command : string) : DockerFetch.exec_result :=
  if String.eqb command
       ("docker run --entrypoint " +:+ DockerFetch.quote +:+ "apk" +:+ DockerFetch.quote
          +:+ " node@sha256:abc info")
  then DockerFetch.Stdout ("musl" +:+ JS.LF +:+ "busybox" +:+ JS.LF)
  else if String.eqb command
       ("docker run --entrypoint " +:+ DockerFetch.quote +:+ "apk" +:+ DockerFetch.quote
          +:+ " node@sha256:abc info -v")
  then DockerFetch.Stdout ("musl-1.1.20-r4" +:+ JS.LF +:+ "busybox-1.29.3-r10" +:+ JS.LF)
  else DockerFetch.Failed (Error "exec failed").

Definition node_image : EntitySpec.t :=
  {| EntitySpec.type := Some "docker"; EntitySpec.provider := Some "dockerhub";
     EntitySpec.namespace := None; EntitySpec.name := Some "node";
     EntitySpec.revision := Some "11"; EntitySpec.tool := None;
     EntitySpec.toolVersion := None |}.

End DockerMoreSpec.

Module VersionsSpec.

(** A string that the version constructor of semver accepts. *)
Definition valid (version : string) : Prop := ∃ v, Semver.make version = Ok v.

(** A string that [semver.parse] accepts as it stands. *)
Definition parses (version : string) : Prop := is_Some (Semver.parse version).

(** The callback of the [reduce] in [getLatestVersion]. *)
Definition pick (max current : string) : res string :=
  match Semver.gt current max with
  | Ok b => Ok (if b then current else max)
  | Throw e => Throw e
  end.

(** The order of release versions: major, then minor, then patch. *)
Definition main_le (a b : Semver.SemVer) : Prop :=
  (Semver.major a < Semver.major b ∨
   Semver.major a = Semver.major b ∧
   (Semver.minor a < Semver.minor b ∨
    Semver.minor a = Semver.minor b ∧ Semver.patch a ≤ Semver.patch b))%Z.

(** A version that parses and carries no pre-release identifiers. *)
Definition release (version : string) : Prop :=
  ∃ v, Semver.make version = Ok v ∧ Semver.prerelease_ids v = [].

End VersionsSpec.

Module NumberSpec.

(** The decimal digits. *)
Definition is_decimal (c : ascii) : bool :=
  let n := nat_of_ascii c in ((48 <=? n) && (n <=? 57))%nat.

(** A text made of decimal digits only. *)
Fixpoint all_decimal (s : string) : bool :=
  match s with
  | EmptyString => true
  | String c s' => is_decimal c && all_decimal s'
  end.

End NumberSpec.

Module AggregateMoreSpec.
Import AggregateSpec.

(** A plain version: three components that are integers, none
    negative. *)
Definition plain (version : string) : Prop :=
  ∃ t, triple version = Some t ∧ nonneg3 t.

(** The integer sum of a base triple and the plain versions of a list. *)
Definition total (b : Z * Z * Z) (versions : list string) : Z * Z * Z :=
  foldl add3 b (omap triple versions).

End AggregateMoreSpec.

Module AttachmentsMoreSpec.
Import Attachments.

(** The stashed and the public record of a file with a given content. *)
Definition stash_of (sha256_hex : string → string) (file content : string) : stashed :=
  {| path := file; token := computeToken sha256_hex content; attachment := content |}.

Definition entry_of (sha256_hex : string → string) (file content : string) : listed :=
  {| listed_path := file; listed_token := computeToken sha256_hex content |}.

End AttachmentsMoreSpec.

Module MavenMoreSpec.
Import MavenExtract.

(** [breaks parseString fetchPom content depth e]: following the parent
    references from the text [content], the level [depth] (the descriptor
    itself is level 1) fails with [e]: its text does not parse, it has no
    project to strip, its parent reference cannot be read, or the fetch of
    its parent is rejected. *)
Inductive breaks (parseString : string → res value)
    (fetchPom : EntitySpec.t → res (Z * string)) : string → nat → error → Prop :=
| breaks_descriptor content e :
    (pom ← parseString (JS.trim content); strip pom) = Throw e →
    breaks parseString fetchPom content 1 e
| breaks_reference content descriptor e :
    (pom ← parseString (JS.trim content); strip pom) = Ok descriptor →
    has_parent descriptor = true →
    parent_spec descriptor = Throw e →
    breaks parseString fetchPom content 1 e
| breaks_fetch content descriptor spec e :
    (pom ← parseString (JS.trim content); strip pom) = Ok descriptor →
    has_parent descriptor = true →
    parent_spec descriptor = Ok spec →
    fetchPom spec = Throw e →
    breaks parseString fetchPom content 1 e
| breaks_ancestor content descriptor spec code file depth e :
    (pom ← parseString (JS.trim content); strip pom) = Ok descriptor →
    has_parent descriptor = true →
    parent_spec descriptor = Ok spec →
    fetchPom spec = Ok (code, file) →
    code ≠ 404%Z →
    breaks parseString fetchPom file depth e →
    breaks parseString fetchPom content (S depth) e.

(** A registry whose [root] cannot be fetched. *)
Definition fetch_broken (spec : EntitySpec.t) : res (Z * string) :=
  match EntitySpec.name spec with
  | Some "parent" => Ok (200%Z, "<parent/>")
  | _ => Throw (Error "ECONNRESET")
  end.

End MavenMoreSpec.

Module MavenHandleSpec.
Import MavenExtract MavenHandle.

Section Names.
Context {source : Type}.
Variable toUrn : EntitySpec.t → string.
Variable toUrl : EntitySpec.t → string.
Variable fromUrl : string → EntitySpec.t.
Variable sourceEntity : source → EntitySpec.t.

(** The two links of the tool: the identity of the request under the
    handler's tool and tool version, and its siblings. *)
Definition tool_links (r : Links.request) : list effect :=
  [LinkResource "self" (toUrn (Links.withTool toolSpec (Links.toSpec fromUrl r)));
   LinkSiblings (toUrn (Links.siblingSpec toolSpec (Links.toSpec fromUrl r)))].

(** The link and the queued request of a source. *)
Definition source_links (found : option source) : list effect :=
  match found with
  | Some info =>
      [LinkResource "source" (toUrn (sourceEntity info));
       Queue "source" (toUrl (sourceEntity info))]
  | None => []
  end.

End Names.

(** The release date of the registry data: the printed timestamp, none
    when the timestamp is missing or 0, and the error of the printing when
    the timestamp cannot be printed. *)
Definition release_date (toISOString : Z → res string) (rd : registry)
    : res (option string) :=
  match timestamp rd with
  | None | Some 0%Z => Ok None
  | Some t =>
      match toISOString t with
      | Ok iso => Ok (Some iso)
      | Throw e => Throw e
      end
  end.

(** The source of a component: what the finder found, or else the source
    archive of the component itself when the registry lists the extension
    of source archives. *)
Definition fallback {source : Type} (sourceArchive : EntitySpec.t → source)
    (sourceExtension : string) (spec : EntitySpec.t) (rd : registry)
    (first : option source) : option source :=
  match first with
  | Some found => Some found
  | None =>
      if bool_decide (sourceExtension ∈ default [] (ec rd))
      then Some (sourceArchive spec) else None
  end.

(** An example: the descriptor [<child/>] of the example registry in a
    temporary file, published 2017-07-14 with sources. *)
Definition child : EntitySpec.t :=
  EntitySpec.make (Some "maven") (Some "mavencentral") (Some "org.example")
    (Some "child") (Some "3") None.

Definition read_example (file : string) : res string :=
  if String.eqb file "/tmp/cd-abc/child-3.pom" then Ok ("<child/>" +:+ JS.LF)
  else Throw (Error ("ENOENT: " +:+ file)).

Definition iso_example (t : Z) : res string :=
  if (t =? 1500000000000)%Z then Ok "2017-07-14T02:40:00.000Z"
  else Throw (Error "Invalid time value").

Definition archive_example (spec : EntitySpec.t) : EntitySpec.t :=
  EntitySpec.make (Some "sourcearchive") (EntitySpec.provider spec)
    (EntitySpec.namespace spec) (EntitySpec.name spec) (EntitySpec.revision spec) None.

Definition registry_example : registry :=
  {| timestamp := Some 1500000000000%Z; ec := Some ["-sources.jar"; ".pom"] |}.

Definition document_example : document EntitySpec.t :=
  {| version := None; location := Some "/tmp/cd-abc/child-3.pom";
     registryData := Some registry_example; manifest_of := None;
     releaseDate := None; sourceInfo := None;
     attached := {| Attachments._attachments := None; Attachments.attachments := None |} |}.

Definition request_example (mode : string) : request EntitySpec.t :=
  {| type := "maven"; processMode := mode;
     spec_of := {| Links.casedSpec := None; Links.url := "cd:/maven/mavencentral/org.example/child/3" |};
     doc := document_example |}.

(** The handler over the example registry and file system, with a finder
    that finds nothing and a directory where every pattern matches. *)
Definition handle_example (fuel : nat) (r : request EntitySpec.t)
    : option (document EntitySpec.t * Eff unit) :=
  handle EntitySpec.t LinksSpec.show_urn LinksSpec.show_urn (fun _ => child)
    MavenSpec.parse_example MavenSpec.fetch_example read_example iso_example
    (fun _ _ => Ok None) archive_example (fun info => info) "-sources.jar"
    String.rev AttachmentsSpec.slash_join (fun _ _ => Ok ["LICENSE"])
    (fun _ => Ok "MIT License") fuel r.

End MavenHandleSpec.

(** ** Facts about the string primitives *)
Module JSFacts.
Import JS.

Lemma str_length_drop n s : String.length (str_drop n s) = String.length s - n.
Proof.
  revert s; induction n as [|n IH]; intros [|c s]; simpl; auto.
Qed.

Lemma str_length_take n s : String.length (str_take n s) = min n (String.length s).
Proof.
  revert s; induction n as [|n IH]; intros [|c s]; simpl; auto.
Qed.

Lemma append_cons c a b : String c a +:+ b = String c (a +:+ b).
Proof. reflexivity. Qed.

Lemma str_take_drop n s : str_take n s +:+ str_drop n s = s.
Proof.
  revert s; induction n as [|n IH]; intros [|c s]; cbn; auto.
  rewrite append_cons. f_equal. apply IH.
Qed.

Lemma str_drop_app p s : str_drop (String.length p) (p +:+ s) = s.
Proof.
  induction p as [|c p IH]; [now destruct s|]. rewrite append_cons. exact IH.
Qed.

Lemma append_assoc a b c : (a +:+ b) +:+ c = a +:+ (b +:+ c).
Proof.
  induction a as [|x a IH]; [reflexivity|]. rewrite !append_cons. now f_equal.
Qed.

Lemma prefix_length p s : String.prefix p s = true → (String.length p ≤ String.length s)%nat.
Proof.
  revert s; induction p as [|a p IH]; intros [|b s]; simpl; try lia; try discriminate.
  destruct (ascii_dec a b); [|discriminate]. intros H. apply IH in H. lia.
Qed.

Lemma prefix_app p s : String.prefix p (p +:+ s) = true.
Proof.
  induction p as [|a p IH]; [now destruct s|].
  rewrite append_cons. simpl.
  destruct (ascii_dec a a); [exact IH | congruence].
Qed.

Lemma prefix_split p s : String.prefix p s = true → s = p +:+ str_drop (String.length p) s.
Proof.
  revert s; induction p as [|a p IH]; intros [|b s]; simpl; auto; try discriminate.
  destruct (ascii_dec a b) as [->|]; [|discriminate]. intros H.
  rewrite append_cons. f_equal. now apply IH.
Qed.

Lemma indexOf_nil pat :
  indexOf pat EmptyString = if String.prefix pat EmptyString then Some 0 else None.
Proof. reflexivity. Qed.

Lemma indexOf_cons pat c s :
  indexOf pat (String c s) =
    if String.prefix pat (String c s) then Some 0 else S <$> indexOf pat s.
Proof. reflexivity. Qed.

Lemma indexOf_bound pat s i :
  indexOf pat s = Some i → (i + String.length pat ≤ String.length s)%nat.
Proof.
  revert i; induction s as [|c s IH]; intros i.
  - rewrite indexOf_nil. destruct (String.prefix pat EmptyString) eqn:E; [|discriminate].
    intros [= <-]. now apply prefix_length in E.
  - rewrite indexOf_cons. destruct (String.prefix pat (String c s)) eqn:E.
    + intros [= <-]. now apply prefix_length in E.
    + destruct (indexOf pat s) as [j|]; [|discriminate].
      intros [= <-]. specialize (IH j eq_refl). simpl. lia.
Qed.

(** The occurrence reported by [indexOf] is one, and it is the first. *)
Lemma indexOf_Some pat s i :
  indexOf pat s = Some i →
  String.prefix pat (str_drop i s) = true ∧
  ∀ j, (j < i)%nat → String.prefix pat (str_drop j s) = false.
Proof.
  revert i; induction s as [|c s IH]; intros i.
  - rewrite indexOf_nil. destruct (String.prefix pat EmptyString) eqn:E; [|discriminate].
    intros [= <-]. split; [exact E | lia].
  - rewrite indexOf_cons. destruct (String.prefix pat (String c s)) eqn:E.
    + intros [= <-]. split; [exact E | lia].
    + destruct (indexOf pat s) as [k|] eqn:Ek; [|discriminate].
      intros [= <-]. destruct (IH k eq_refl) as [Hp Hfirst]. split; [exact Hp|].
      intros [|j] Hj; [exact E | apply Hfirst; lia].
Qed.

Lemma indexOf_None pat s :
  indexOf pat s = None → ∀ j, String.prefix pat (str_drop j s) = false.
Proof.
  induction s as [|c s IH].
  - rewrite indexOf_nil. destruct (String.prefix pat EmptyString) eqn:E; [discriminate|].
    intros _ [|j]; exact E.
  - rewrite indexOf_cons. destruct (String.prefix pat (String c s)) eqn:E; [discriminate|].
    destruct (indexOf pat s) as [k|] eqn:Ek; [discriminate|].
    intros _ [|j]; [exact E | now apply IH].
Qed.

Lemma indexOf_prefix pat s : indexOf pat (pat +:+ s) = Some 0.
Proof.
  destruct (pat +:+ s) eqn:E; [rewrite indexOf_nil | rewrite indexOf_cons];
    rewrite <- E, prefix_app; reflexivity.
Qed.

Lemma split_fuel_S f sep s :
  split_fuel (S f) sep s =
    match indexOf sep s with
    | None => [s]
    | Some i => str_take i s :: split_fuel f sep (str_drop (i + String.length sep) s)
    end.
Proof. reflexivity. Qed.

Lemma indexOf_empty sep : sep ≠ EmptyString → indexOf sep EmptyString = None.
Proof. now destruct sep. Qed.

Lemma split_fuel_enough sep f1 f2 s :
  sep ≠ EmptyString → (String.length s ≤ f1)%nat → (String.length s ≤ f2)%nat →
  split_fuel f1 sep s = split_fuel f2 sep s.
Proof.
  intros Hsep. revert f2 s; induction f1 as [|f1 IH]; intros f2 s H1 H2.
  - destruct s; [|simpl in H1; lia].
    destruct f2; [reflexivity|]. now rewrite split_fuel_S, indexOf_empty.
  - destruct f2 as [|f2].
    + destruct s; [|simpl in H2; lia]. now rewrite split_fuel_S, indexOf_empty.
    + rewrite !split_fuel_S. destruct (indexOf sep s) as [i|] eqn:E; [|reflexivity].
      f_equal. apply indexOf_bound in E.
      assert (0 < String.length sep)%nat by (destruct sep; [congruence | simpl; lia]).
      apply IH; rewrite str_length_drop; lia.
Qed.

(** The defining equation of [split]: the fuel never runs out. *)
Lemma split_unfold sep s :
  sep ≠ EmptyString →
  split sep s =
    match indexOf sep s with
    | None => [s]
    | Some i => str_take i s :: split sep (str_drop (i + String.length sep) s)
    end.
Proof.
  intros Hsep. unfold split. destruct sep as [|a sep]; [congruence|].
  destruct (indexOf (String a sep) s) as [i|] eqn:E.
  - pose proof (indexOf_bound _ _ _ E) as Hb.
    destruct (String.length s) as [|n] eqn:En; [simpl in Hb; lia|].
    rewrite split_fuel_S, E. f_equal.
    apply split_fuel_enough; [congruence| |]; rewrite str_length_drop; simpl in *; lia.
  - destruct (String.length s); [reflexivity|]. now rewrite split_fuel_S, E.
Qed.

Lemma split_nonempty sep s : sep ≠ EmptyString → split sep s ≠ [].
Proof.
  intros H. rewrite split_unfold by exact H. now destruct (indexOf sep s).
Qed.

End JSFacts.

(** ** Reasoning about traces *)
Lemma emit_bind {A} (e : effect) (m : Eff A) :
  (emit e ;; m) = (e :: trace m, outcome m).
Proof. now destruct m. Qed.

Lemma trace_emit_bind {A} (e : effect) (m : Eff A) : trace (emit e ;; m) = e :: trace m.
Proof. now rewrite emit_bind. Qed.

Lemma outcome_emit_bind {A} (e : effect) (m : Eff A) : outcome (emit e ;; m) = outcome m.
Proof. now rewrite emit_bind. Qed.

Example split_lines : JS.split JS.LF ("a" +:+ JS.LF +:+ "b") = ["a"; "b"].
Proof. reflexivity. Qed.
Example split_trailing : JS.split "___" "a___" = ["a"; EmptyString].
Proof. reflexivity. Qed.
Example split_overlap : JS.split "___" "a____b" = ["a"; "_b"].
Proof. reflexivity. Qed.
Example trim_ex : JS.trim "  a b  " = "a b".
Proof. reflexivity. Qed.

(** ** The docker extract processor *)
Module DockerFacts.
Import JS JSFacts DockerExtract DockerSpec.

(** The loop pairs the two listings by index; it completes exactly when the
    entries it has to read exist. *)
Lemma _queueApks_loop_spec (apkNameList apkNameAndVersionList : list string) i todo :
  (i + todo ≤ length apkNameList)%nat →
  _queueApks_loop apkNameList apkNameAndVersionList i todo =
    (flat_map (fun p => apk_effects p.1 p.2)
       (zip (take todo (drop i apkNameList)) (drop i apkNameAndVersionList)),
     if decide (todo = 0 ∨ i + todo ≤ length apkNameAndVersionList)%nat
     then Ok tt else Throw missing_entry).
Proof.
  revert i; induction todo as [|todo IH]; intros i Hlen.
  - reflexivity.
  - destruct (lookup_lt_is_Some_2 apkNameList i ltac:(lia)) as [name Hname].
    rewrite (drop_S _ _ _ Hname). cbn [_queueApks_loop]. rewrite Hname.
    destruct (apkNameAndVersionList !! i) as [entry|] eqn:Hentry.
    + rewrite (drop_S _ _ _ Hentry). apply lookup_lt_Some in Hentry.
      rewrite !emit_bind, IH by lia. cbn.
      f_equal. repeat case_decide; try reflexivity; lia.
    + apply lookup_ge_None in Hentry. rewrite (drop_ge apkNameAndVersionList) by lia.
      rewrite zip_with_nil_r. rewrite decide_False by lia. reflexivity.
Qed.

Lemma no_Queue_in_apk_effects (pairs : list (string * string)) name url :
  Queue name url ∉ flat_map (fun p => apk_effects p.1 p.2) pairs.
Proof.
  induction pairs as [|[n e] pairs IH]; simpl.
  - apply not_elem_of_nil.
  - rewrite !not_elem_of_cons. repeat split; try discriminate. exact IH.
Qed.

(** [_queueDpkgs] handles every line and cannot throw. *)
Lemma _queueDpkgs_loop_spec dpkgList :
  _queueDpkgs_loop dpkgList =
    (flat_map (fun line => [AddEmbeddedComponent (dpkg_url line);
                            NewRequest "dpkg" (dpkg_url line)]) dpkgList,
     Ok tt).
Proof.
  induction dpkgList as [|line rest IH]; [reflexivity|].
  cbn [_queueDpkgs_loop flat_map]. now rewrite !emit_bind, IH.
Qed.

Lemma _queueDpkgs_no_Queue doc name url : Queue name url ∉ trace (_queueDpkgs doc).
Proof.
  unfold _queueDpkgs.
  destruct (dpkg doc) as [[|c listing]|]; try apply not_elem_of_nil.
  rewrite _queueDpkgs_loop_spec. cbn [trace fst].
  induction (split LF (String c listing)) as [|line rest IH]; [apply not_elem_of_nil|].
  cbn [flat_map app]. rewrite !not_elem_of_cons. repeat split; try discriminate. exact IH.
Qed.

(** No run of [_queueApks] hands a request to the queue. *)
Lemma _queueApks_no_Queue doc name url : Queue name url ∉ trace (_queueApks doc).
Proof.
  unfold _queueApks. destruct (apk doc) as [a|]; [|apply not_elem_of_nil].
  rewrite _queueApks_loop_spec by (simpl; lia). apply no_Queue_in_apk_effects.
Qed.

(** On listings of equal length every index is handled and the loop ends
    without error. *)
Lemma _queueApks_equal_length doc a :
  apk doc = Some a →
  length (split LF (names a)) = length (split LF (namesAndVersions a)) →
  _queueApks doc =
    (flat_map (fun p => apk_effects p.1 p.2)
       (zip (split LF (names a)) (split LF (namesAndVersions a))),
     Ok tt).
Proof.
  intros Ha Hlen. unfold _queueApks. rewrite Ha.
  rewrite _queueApks_loop_spec by lia.
  rewrite !drop_0, firstn_all, decide_True by (right; lia). reflexivity.
Qed.

(** On an entry that starts with the name and a hyphen, the recovered version
    is the rest of the entry. *)
Lemma apk_version_prefix name version :
  apk_version name (name +:+ "-" +:+ version) = version.
Proof.
  unfold apk_version, replace.
  rewrite <- append_assoc, indexOf_prefix. cbn [str_take Nat.add].
  apply str_drop_app.
Qed.

(** The version is cut out wherever the name and hyphen first occur, also
    inside the entry. *)
Example apk_version_inside : apk_version "b" "ab-1.0" = "a1.0".
Proof. reflexivity. Qed.

(** C2 (code at the spec's example).  On names "a\nb" and name+versions
    "a-1.0\nb-2.0" the processor pairs the entries by index and recovers
    ("a","1.0") and ("b","2.0"); for each pair it records the embedded
    component and builds a request, and it never queues that request: no
    follow-on work item is emitted. *)
Theorem queueApks_builds_requests_without_queueing :
  let doc := {| apk := Some {| names := "a" +:+ LF +:+ "b";
                               namesAndVersions := "a-1.0" +:+ LF +:+ "b-2.0" |};
                dpkg := None |} in
  _queueApks doc =
    ([AddEmbeddedComponent "cd:/apk/apk/-/a/1.0"; NewRequest "apk" "cd:/apk/apk/-/a/1.0";
      AddEmbeddedComponent "cd:/apk/apk/-/b/2.0"; NewRequest "apk" "cd:/apk/apk/-/b/2.0"],
     Ok tt)
  ∧ ∀ name url, Queue name url ∉ trace (_queueApks doc).
Proof.
  split; [reflexivity | intros; apply _queueApks_no_Queue].
Qed.

(** C8 (as amended).  Each dpkg line is cut at every "___": the name is the
    text before the first delimiter and the version is the text between the
    first and the second delimiter, the whole remainder only when the
    remainder holds no delimiter; a line without delimiter gives the line
    as name and an undefined version. *)
Theorem dpkg_record_first_two_pieces (line : string) :
  dpkg_record line =
    match indexOf "___" line with
    | None => (line, None)
    | Some i =>
        let rest := str_drop (i + 3) line in
        (str_take i line,
         Some (match indexOf "___" rest with
               | None => rest
               | Some j => str_take j rest
               end))
    end.
Proof.
  unfold dpkg_record. rewrite split_unfold by discriminate.
  destruct (indexOf "___" line) as [i|]; [|reflexivity].
  change (String.length "___") with 3. cbn [lookup list_lookup default].
  rewrite split_unfold by discriminate.
  cbn zeta. now destruct (indexOf "___" (str_drop (i + 3) line)).
Qed.

(** C8 (the claim fails as stated).  In "a___1___2" the first delimiter is
    at index 1 and the remainder is "1___2", but the recovered version is
    "1". *)
Lemma dpkg_record_drops_rest_of_line :
  indexOf "___" "a___1___2" = Some 1 ∧
  str_drop (1 + 3) "a___1___2" = "1___2" ∧
  dpkg_record "a___1___2" = ("a", Some "1") ∧
  dpkg_record "a___1___2" ≠ ("a", Some "1___2") ∧
  dpkg_url "a___1___2" = "cd:/dpkg/dpkg/-/a/1".
Proof. repeat split; try reflexivity; discriminate. Qed.

(** C10.  When the apk names listing has more lines than the name+version
    listing, [_queueApks] throws on the first index without a name+version
    entry, after handling the pairs before it; when the document has no apk
    listing it returns at once and records nothing. *)
Theorem queueApks_faults_on_short_listing (doc : document) :
  (apk doc = None → _queueApks doc = ([], Ok tt)) ∧
  (∀ a, apk doc = Some a →
     (length (split LF (namesAndVersions a)) < length (split LF (names a)))%nat →
     outcome (_queueApks doc) = Throw missing_entry ∧
     length (trace (_queueApks doc)) = (2 * length (split LF (namesAndVersions a)))%nat).
Proof.
  unfold _queueApks. split.
  - now intros ->.
  - intros a -> Hlt. rewrite _queueApks_loop_spec by (simpl; lia).
    unfold outcome, trace; cbn [fst snd]. split.
    + rewrite decide_False by lia. reflexivity.
    + rewrite drop_0, firstn_all. 
      generalize dependent (split LF (names a)).
      induction (split LF (namesAndVersions a)) as [|e es IH]; intros [|n ns] Hlt;
        simpl in *; try lia.
      rewrite IH by lia. lia.
Qed.

Lemma queueApks_faults_on_short_listing_witness :
  let doc := {| apk := Some {| names := "a" +:+ LF +:+ "b"; namesAndVersions := "a-1.0" |};
                dpkg := None |} in
  outcome (_queueApks doc) = Throw missing_entry ∧
  trace (_queueApks doc) =
    [AddEmbeddedComponent "cd:/apk/apk/-/a/1.0"; NewRequest "apk" "cd:/apk/apk/-/a/1.0"].
Proof.
  intros doc.
  destruct (queueApks_faults_on_short_listing doc) as [_ H].
  destruct (H _ eq_refl ltac:(vm_compute; lia)) as [Hthrow _].
  split; [exact Hthrow | reflexivity].
Defined.

End DockerFacts.

(** ** Version aggregation *)
Module AggregateFacts.
Import Number Aggregate AggregateSpec.

Lemma accumulate_invalid errorRoot result version :
  valid_version version = false →
  accumulate errorRoot result version = Throw (message errorRoot version).
Proof.
  unfold valid_version, accumulate, numeric, message.
  destruct (JS.split "." version) as [|a [|b [|c [|d parts]]]]; try reflexivity.
  cbn [length Nat.eqb negb orb existsb].
  destruct (isNaN (ofString a)), (isNaN (ofString b)), (isNaN (ofString c));
    cbn; intros; congruence.
Qed.

Lemma accumulate_valid errorRoot result version :
  valid_version version = true → length result = 3%nat →
  accumulate errorRoot result version = Ok (zip_with add result (components version)).
Proof.
  unfold valid_version, accumulate, numeric, components.
  destruct (JS.split "." version) as [|a [|b [|c [|d parts]]]]; try discriminate.
  destruct result as [|r0 [|r1 [|r2 [|r3 result]]]]; try discriminate.
  cbn [length Nat.eqb negb orb existsb].
  destruct (isNaN (ofString a)), (isNaN (ofString b)), (isNaN (ofString c));
    cbn; intros; congruence.
Qed.

Lemma accumulate_cases errorRoot result version :
  accumulate errorRoot result version = Throw (message errorRoot version) ∧
    valid_version version = false
  ∨ (∃ r, accumulate errorRoot result version = Ok r) ∧ valid_version version = true.
Proof.
  destruct (valid_version version) eqn:E.
  - right. split; [|reflexivity]. revert E.
    unfold valid_version, accumulate, numeric.
    destruct (JS.split "." version) as [|a [|b [|c [|d parts]]]]; try discriminate.
    cbn [length Nat.eqb negb orb existsb].
    destruct (isNaN (ofString a)), (isNaN (ofString b)), (isNaN (ofString c));
      cbn; intros; try congruence; eauto.
  - left. split; [|reflexivity]. now apply accumulate_invalid.
Qed.

Lemma length_sum (result : list number) version :
  valid_version version = true → length result = 3%nat →
  length (zip_with add result (components version)) = 3%nat.
Proof.
  unfold valid_version, components. intros Hv Hr.
  destruct (JS.split "." version) as [|a [|b [|c [|d parts]]]]; try discriminate.
  rewrite length_zip_with_l_eq; [exact Hr | now rewrite Hr].
Qed.

(** The reduce throws exactly at the first version that is not valid. *)
Lemma reduce_throws errorRoot versions init e :
  reduce (accumulate errorRoot) versions init = Throw e →
  ∃ v, v ∈ versions ∧ valid_version v = false ∧ e = message errorRoot v.
Proof.
  revert init; induction versions as [|v versions IH]; intros init; [discriminate|].
  cbn [reduce].
  destruct (accumulate_cases errorRoot init v) as [[-> Hv]|[[r ->] Hv]].
  - intros [= <-]. exists v. repeat split; [left | exact Hv].
  - intros H. destruct (IH _ H) as (w & Hin & Hw & ->).
    exists w. repeat split; [now right | exact Hw].
Qed.

Lemma reduce_invalid errorRoot versions init v :
  v ∈ versions → valid_version v = false →
  ∃ e, reduce (accumulate errorRoot) versions init = Throw e.
Proof.
  revert init; induction versions as [|w versions IH]; intros init Hin Hv.
  - now apply elem_of_nil in Hin.
  - cbn [reduce].
    destruct (accumulate_cases errorRoot init w) as [[-> _]|[[r ->] Hw]]; [eauto|].
    apply elem_of_cons in Hin as [->|Hin]; [congruence|]. now apply IH.
Qed.

Lemma reduce_valid errorRoot versions init :
  Forall (fun v => valid_version v = true) versions → length init = 3%nat →
  reduce (accumulate errorRoot) versions init =
    Ok (foldl (zip_with add) init (components <$> versions)).
Proof.
  intros Hall. revert init; induction Hall as [|v versions Hv _ IH]; intros init Hinit.
  - reflexivity.
  - cbn [reduce fmap list_fmap foldl]. rewrite accumulate_valid by assumption.
    apply IH. now apply length_sum.
Qed.

(** The three sums are taken column by column. *)
Lemma foldl_columns versions x0 x1 x2 :
  Forall (fun v => valid_version v = true) versions →
  foldl (zip_with add) [x0; x1; x2] (components <$> versions) =
    [foldl add x0 (column 0 versions); foldl add x1 (column 1 versions);
     foldl add x2 (column 2 versions)].
Proof.
  intros Hall. revert x0 x1 x2; induction Hall as [|v versions Hv _ IH]; intros x0 x1 x2.
  - reflexivity.
  - cbn [fmap list_fmap foldl column]. unfold components at 1.
    unfold valid_version in Hv.
    destruct (JS.split "." v) as [|a [|b [|c [|d parts]]]]; try discriminate.
    cbn [fmap list_fmap zip_with lookup list_lookup default from_option id].
    apply IH.
Qed.

(** C6 (as amended).  [_aggregateVersions] throws exactly when some version
    does not split into three numeric components, and the error then
    carries the label and such a version; when every version is valid and
    the base has three components, the result is the dotted triple of the
    sums of each component of the base and the components of the versions
    at its position.  So ["1.2.3","0.0.1"] gives "1.2.4" and ["1.x.0"] fails
    with "err: 1.x.0". *)
Theorem aggregateVersions_sums_or_throws
    (versions : list string) (errorRoot : string) (base : option string) :
  ((∃ e, _aggregateVersions versions errorRoot base = Throw e) ↔
   (∃ v, v ∈ versions ∧ valid_version v = false))
  ∧ (∀ e, _aggregateVersions versions errorRoot base = Throw e →
       ∃ v, v ∈ versions ∧ valid_version v = false ∧
            e = Error (errorRoot +:+ ": " +:+ v))
  ∧ (Forall (fun v => valid_version v = true) versions →
     ∀ b0 b1 b2, JS.split "." (default "0.0.0" base) = [b0; b1; b2] →
     _aggregateVersions versions errorRoot base =
       Ok (toString (sum b0 0 versions) +:+ "." +:+ toString (sum b1 1 versions)
             +:+ "." +:+ toString (sum b2 2 versions)))
  ∧ _aggregateVersions ["1.2.3"; "0.0.1"] "err" None = Ok "1.2.4"
  ∧ _aggregateVersions ["1.x.0"] "err" None = Throw (Error "err: 1.x.0").
Proof.
  assert (Hthrow : ∀ e, _aggregateVersions versions errorRoot base = Throw e →
            ∃ v, v ∈ versions ∧ valid_version v = false ∧ e = message errorRoot v).
  { intros e. unfold _aggregateVersions.
    destruct (reduce _ versions _) as [r|e'] eqn:E; [discriminate|].
    intros [= <-]. now apply reduce_throws in E. }
  split; [split|split; [exact Hthrow|split; [|split; reflexivity]]].
  - intros [e He]. destruct (Hthrow e He) as (v & ? & ? & _). eauto.
  - intros (v & Hin & Hv). unfold _aggregateVersions.
    destruct (reduce_invalid errorRoot versions
                (ofString <$> JS.split "." (default "0.0.0" base)) v Hin Hv) as [e ->].
    eauto.
  - intros Hall b0 b1 b2 Hbase. unfold _aggregateVersions. rewrite Hbase.
    cbn [fmap list_fmap]. rewrite reduce_valid by (assumption || reflexivity).
    rewrite foldl_columns by exact Hall. reflexivity.
Qed.

Lemma aggregateVersions_sums_or_throws_witness :
  _aggregateVersions ["1.2.3"; "0.0.1"; "10.20.30"] "tools" (Some "1.0.0") = Ok "12.22.34".
Proof.
  destruct (aggregateVersions_sums_or_throws
              ["1.2.3"; "0.0.1"; "10.20.30"] "tools" (Some "1.0.0"))
    as (_ & _ & Hsum & _).
  rewrite (Hsum ltac:(repeat constructor) "1" "0" "0" eq_refl). reflexivity.
Defined.

(** C6 (the claim fails as stated).  The base is not checked and need not
    be a triple: on the valid version "1.2.3" and the base "1.2.3.4" the
    result is "2.4.6.4", not the triple "2.4.6" of the sums; it has four
    components, the fourth one that of the base. *)
Lemma aggregateVersions_keeps_fourth_base_component :
  valid_version "1.2.3" = true
  ∧ _aggregateVersions ["1.2.3"] "err" (Some "1.2.3.4") = Ok "2.4.6.4"
  ∧ _aggregateVersions ["1.2.3"] "err" (Some "1.2.3.4") ≠ Ok "2.4.6"
  ∧ JS.split "." "2.4.6.4" = ["2"; "4"; "6"; "4"].
Proof. repeat split. discriminate. Qed.

(** Beyond the safe integers the sums are those of doubles: 2^53 + 1 is
    2^53, and components in exponent or hexadecimal form are read and
    printed as numbers. *)
Example aggregateVersions_adds_doubles :
  _aggregateVersions ["9007199254740992.0.0"; "1.0.0"] "err" None = Ok "9007199254740992.0.0"
  ∧ _aggregateVersions ["1e3.0.0"] "err" None = Ok "1000.0.0"
  ∧ _aggregateVersions ["1e21.5e-1.0x10"; "0.25e-2.1"] "err" None = Ok "1e+21.0.75.17"
  ∧ _aggregateVersions ["Infinity.0.0"; "-Infinity.0.0"] "err" None = Ok "NaN.0.0".
Proof. repeat split; vm_compute; reflexivity. Qed.

Lemma triple_components version t :
  triple version = Some t →
  components version = [Int t.1.1; Int t.1.2; Int t.2] ∧ valid_version version = true.
Proof.
  unfold triple, valid_version, numeric, components.
  destruct (JS.split "." version) as [|a [|b [|c [|d parts]]]]; cbn [fmap list_fmap];
    try discriminate;
    try (destruct (ofString a); discriminate);
    try (destruct (ofString a), (ofString b); discriminate).
  - destruct (ofString a), (ofString b), (ofString c); try discriminate.
    intros [= <-]. split; reflexivity.
  - destruct (ofString a), (ofString b), (ofString c); discriminate.
Qed.

Lemma add3_grows b ts :
  Forall nonneg3 ts →
  let total := foldl add3 b ts in
  (b.1.1 ≤ total.1.1 ∧ b.1.2 ≤ total.1.2 ∧ b.2 ≤ total.2)%Z.
Proof.
  intros Hall. revert b; induction Hall as [|t ts Ht _ IH]; intros b; cbn [foldl].
  - cbv zeta. lia.
  - specialize (IH (add3 b t)). cbv zeta in *. destruct Ht as (? & ? & ?).
    destruct b as [[b0 b1] b2], t as [[t0 t1] t2]. cbn in *. lia.
Qed.

Lemma of_Z_safe z : (0 ≤ z ≤ 2 ^ 53)%Z → of_Z z = Int z.
Proof.
  intros H. unfold of_Z, safe. rewrite Z.abs_eq by lia.
  destruct (Z.leb_spec z (2 ^ 53)); [reflexivity | lia].
Qed.

Lemma toString_safe z : (0 ≤ z ≤ 2 ^ 53)%Z → toString (Int z) = pretty z.
Proof.
  intros H. cbn [toString]. unfold safe. rewrite Z.abs_eq by lia.
  destruct (Z.leb_spec z (2 ^ 53)); [reflexivity | lia].
Qed.

Lemma sum_of_triples versions ts b :
  Forall2 (fun v t => triple v = Some t) versions ts →
  Forall nonneg3 ts → nonneg3 b → safe3 (foldl add3 b ts) →
  foldl (zip_with add) [Int b.1.1; Int b.1.2; Int b.2] (components <$> versions) =
    let total := foldl add3 b ts in [Int total.1.1; Int total.1.2; Int total.2].
Proof.
  intros Hts. revert b; induction Hts as [|v t versions ts Hv _ IH]; intros b Hall Hb Hsafe.
  - reflexivity.
  - apply Forall_cons in Hall as [Ht Hall].
    cbn [fmap list_fmap foldl] in *.
    destruct (triple_components _ _ Hv) as [-> _].
    cbn [zip_with add] in *.
    pose proof (add3_grows (add3 b t) ts Hall) as Hgrow. cbv zeta in Hgrow.
    assert (Hsum : nonneg3 (add3 b t)).
    { unfold nonneg3, add3 in *. cbn [fst snd]. lia. }
    unfold safe3 in Hsafe. unfold nonneg3 in Hb, Ht, Hsum.
    replace (of_Z (b.1.1 + t.1.1)) with (Int (add3 b t).1.1)
      by (symmetry; apply of_Z_safe; unfold add3 in *; cbn [fst snd] in *; lia).
    replace (of_Z (b.1.2 + t.1.2)) with (Int (add3 b t).1.2)
      by (symmetry; apply of_Z_safe; unfold add3 in *; cbn [fst snd] in *; lia).
    replace (of_Z (b.2 + t.2)) with (Int (add3 b t).2)
      by (symmetry; apply of_Z_safe; unfold add3 in *; cbn [fst snd] in *; lia).
    apply (IH (add3 b t)); assumption.
Qed.

(** For versions and a base in plain form, without negative components and
    with sums within the safe integers, the result is the dotted triple of
    the integer sums. *)
Lemma aggregateVersions_plain_integers versions errorRoot base ts b :
  Forall2 (fun v t => triple v = Some t) versions ts →
  triple (default "0.0.0" base) = Some b →
  Forall nonneg3 ts → nonneg3 b → safe3 (foldl add3 b ts) →
  _aggregateVersions versions errorRoot base = Ok (dotted (foldl add3 b ts)).
Proof.
  intros Hts Hbase Hall Hb Hsafe. unfold _aggregateVersions.
  destruct (triple_components _ _ Hbase) as [Hcomp _]. unfold components in Hcomp.
  rewrite Hcomp, reduce_valid, (sum_of_triples _ ts) by
    (assumption || reflexivity ||
     (clear -Hts; induction Hts as [|???? H]; constructor;
        [now apply triple_components in H | assumption])).
  pose proof (add3_grows b ts Hall) as Hgrow. cbv zeta in *.
  unfold safe3 in Hsafe. unfold nonneg3 in Hb.
  unfold join_numbers, dotted. cbn [fmap list_fmap].
  rewrite !toString_safe by lia. reflexivity.
Qed.

(** C9.  An empty component is read as the number 0 and passes the numeric
    check: "1..3" is accepted and, on the default base, aggregates to
    "1.0.3"; even ".." is accepted, as three zeros. *)
Theorem aggregateVersions_reads_empty_component_as_zero :
  ofString EmptyString = Int 0
  ∧ numeric EmptyString = true
  ∧ JS.split "." "1..3" = ["1"; EmptyString; "3"]
  ∧ valid_version "1..3" = true
  ∧ _aggregateVersions ["1..3"] "err" None = Ok "1.0.3"
  ∧ _aggregateVersions [".."; "1..3"] "err" None = Ok "1.0.3".
Proof. repeat split. Qed.

End AggregateFacts.

(** ** Version selection *)
Module VersionsFacts.
Import Versions.

(** With nothing but pre-releases the filter leaves nothing to fold, and the
    seed, the first element of the array, is the result. *)
Lemma getLatestVersion_all_prerelease first second rest :
  Forall (fun v => isPreReleaseVersion v = true) (first :: second :: rest) →
  getLatestVersion (first :: second :: rest) = Ok (Some first).
Proof.
  intros Hall. unfold getLatestVersion.
  replace (filter _ (first :: second :: rest)) with (@nil string); [reflexivity|].
  symmetry. induction Hall as [|v vs Hv _ IH]; [reflexivity|].
  rewrite filter_cons_False by congruence. exact IH.
Qed.

(** C1 (code at the spec's example).  "2.0.0-beta" is a pre-release and
    "1.0.0" is the only release of the array, yet
    [getLatestVersion(["2.0.0-beta","1.0.0"])] is "2.0.0-beta": the fold
    over the releases starts from the first element of the unfiltered
    array, and "1.0.0" is not greater than it. *)
Theorem getLatestVersion_seed_outranks_release :
  isPreReleaseVersion "2.0.0-beta" = true
  ∧ isPreReleaseVersion "1.0.0" = false
  ∧ filter (fun v => isPreReleaseVersion v = false) ["2.0.0-beta"; "1.0.0"] = ["1.0.0"]
  ∧ Semver.gt "1.0.0" "2.0.0-beta" = Ok false
  ∧ getLatestVersion ["2.0.0-beta"; "1.0.0"] = Ok (Some "2.0.0-beta").
Proof. repeat split; vm_compute; reflexivity. Qed.

Example getLatestVersion_release_first :
  getLatestVersion ["1.0.0"; "2.0.0-beta"; "1.2.0"; "1.1.0"] = Ok (Some "1.2.0").
Proof. vm_compute. reflexivity. Qed.

Example getLatestVersion_empty : getLatestVersion [] = Ok None.
Proof. reflexivity. Qed.

Example getLatestVersion_single : getLatestVersion ["1.0.0"] = Ok (Some "1.0.0").
Proof. reflexivity. Qed.

End VersionsFacts.

(** ** Tool links *)
Module LinksFacts.
Import Links LinksSpec.

(** [linkAndQueue] both links the resource and queues the request for it. *)
Lemma linkAndQueue_links_and_queues
    (toUrn toUrl : EntitySpec.t → string) (fromUrl : string → EntitySpec.t)
    (r : request) (name : string) (spec : EntitySpec.t) :
  linkAndQueue toUrn toUrl fromUrl r name (Some spec) =
    ([LinkResource name (toUrn spec); Queue name (toUrl spec)], Ok tt).
Proof. reflexivity. Qed.

(** C5 (as amended).  [addBasicToolLinks] links, as self, the URN of the
    identity overlaid with the handler's tool and tool version, and, as
    sibling, the URN of the identity that keeps type, provider, namespace,
    name and revision, has no tool version, and has the identity's tool
    name, or the handler's when the identity has none. *)
Theorem addBasicToolLinks_self_and_sibling
    (toUrn : EntitySpec.t → string) (fromUrl : string → EntitySpec.t)
    (toolSpec : ToolSpec) (r : request) (spec : EntitySpec.t) :
  let sibling := siblingSpec toolSpec spec in
  addBasicToolLinks toUrn fromUrl toolSpec r (Some spec) =
    ([LinkResource "self" (toUrn (withTool toolSpec spec)); LinkSiblings (toUrn sibling)],
     Ok tt)
  ∧ EntitySpec.type sibling = EntitySpec.type spec
  ∧ EntitySpec.provider sibling = EntitySpec.provider spec
  ∧ EntitySpec.namespace sibling = EntitySpec.namespace spec
  ∧ EntitySpec.name sibling = EntitySpec.name spec
  ∧ EntitySpec.revision sibling = EntitySpec.revision spec
  ∧ EntitySpec.toolVersion sibling = None
  ∧ EntitySpec.tool sibling =
      match EntitySpec.tool spec with
      | Some (String c s) => Some (String c s)
      | _ => Some (tool toolSpec)
      end
  ∧ EntitySpec.tool (withTool toolSpec spec) = Some (tool toolSpec)
  ∧ EntitySpec.toolVersion (withTool toolSpec spec) = Some (toolVersion toolSpec).
Proof.
  repeat split. cbn. unfold or_else. now destruct (EntitySpec.tool spec) as [[|c s]|].
Qed.

(** C5 (the claim fails as stated).  For redie 0.3.0 the sibling link
    carries the revision 0.3.0; it is not the URN of the identity with the
    version cleared. *)
Lemma sibling_link_keeps_revision :
  let r := {| casedSpec := Some redie; url := "cd:/npm/npmjs/-/redie/0.3.0" |} in
  trace (addBasicToolLinks show_urn (fun _ => redie) clearlydefined r (Some redie)) =
    [LinkResource "self" "npm:npmjs:-:redie:0.3.0:clearlydefined:1.1.2";
     LinkSiblings "npm:npmjs:-:redie:0.3.0:clearlydefined:-"]
  ∧ show_urn (without_versions clearlydefined redie) = "npm:npmjs:-:redie:-:clearlydefined:-"
  ∧ LinkSiblings (show_urn (without_versions clearlydefined redie))
      ∉ trace (addBasicToolLinks show_urn (fun _ => redie) clearlydefined r (Some redie)).
Proof.
  repeat split. cbv zeta. vm_compute. intros H.
  repeat (apply elem_of_cons in H as [H|H]; [discriminate|]).
  now apply elem_of_nil in H.
Qed.

End LinksFacts.

(** ** Attachments *)
Module AttachmentsFacts.
Import Attachments AttachmentsSpec.

Section Files.
Variable sha256_hex : string → string.
Variable join : string → string → string.

Lemma attach_each_spec readFileSync location stash public files :
  let doc := (attach_each sha256_hex join readFileSync location stash public files).1 in
  ∃ added,
    _attachments doc = Some (stash ++ added) ∧
    attachments doc = Some (public ++ (publish <$> added)) ∧
    Forall (fun a => token a = computeToken sha256_hex (attachment a)) added.
Proof.
  revert stash public; induction files as [|file files IH]; intros stash public.
  - exists []. cbn. rewrite !app_nil_r. auto.
  - cbn [attach_each]. destruct (readFileSync (join location file)) as [content|e].
    + destruct (IH (stash ++ [{| path := file; token := computeToken sha256_hex content;
                                 attachment := content |}])
                   (public ++ [{| listed_path := file;
                                  listed_token := computeToken sha256_hex content |}]))
        as (added & Hs & Hp & Hall).
      eexists (_ :: added). cbv zeta in *. rewrite Hs, Hp, <- !app_assoc.
      repeat split. constructor; [reflexivity | exact Hall].
    + exists []. cbn. rewrite !app_nil_r. auto.
Qed.

Lemma attachFiles_consistent readFileSync doc files location :
  consistent sha256_hex doc →
  consistent sha256_hex (attachFiles sha256_hex join readFileSync doc files location).1.
Proof.
  intros Hdoc. unfold attachFiles. destruct files as [[|file files]|]; try exact Hdoc.
  destruct (attach_each_spec readFileSync location (default [] (_attachments doc))
              (default [] (attachments doc)) (file :: files)) as (added & Hs & _ & Hall).
  unfold consistent. cbv zeta in Hs. rewrite Hs. cbn. apply Forall_app. auto.
Qed.

(** C7.  The token recorded for an attachment is the hash of its content
    and of nothing else: two stashed records with the same content have
    the same token, whatever their paths, documents, locations and file
    systems; and attaching two paths that hold the same content to a
    fresh document gives two records with one token, in the stash and in
    the public list. *)
Theorem attachment_token_depends_on_content_only
    (fs1 fs2 : string → res string) (doc1 doc2 : document)
    (files1 files2 : option (list string)) (location1 location2 : string)
    (a1 a2 : stashed) :
  consistent sha256_hex doc1 → consistent sha256_hex doc2 →
  a1 ∈ default [] (_attachments (attachFiles sha256_hex join fs1 doc1 files1 location1).1) →
  a2 ∈ default [] (_attachments (attachFiles sha256_hex join fs2 doc2 files2 location2).1) →
  attachment a1 = attachment a2 →
  token a1 = token a2
  ∧ ∀ fs location p1 p2 content,
      fs (join location p1) = Ok content → fs (join location p2) = Ok content →
      attachFiles sha256_hex join fs {| _attachments := None; attachments := None |}
                  (Some [p1; p2]) location =
        ({| _attachments :=
              Some [ {| path := p1; token := computeToken sha256_hex content;
                        attachment := content |};
                     {| path := p2; token := computeToken sha256_hex content;
                        attachment := content |} ];
            attachments :=
              Some [ {| listed_path := p1; listed_token := computeToken sha256_hex content |};
                     {| listed_path := p2; listed_token := computeToken sha256_hex content |} ]
         |}, Ok tt).
Proof.
  intros H1 H2 Hin1 Hin2 Hsame. split.
  - apply (attachFiles_consistent fs1 _ files1 location1) in H1.
    apply (attachFiles_consistent fs2 _ files2 location2) in H2.
    unfold consistent in H1, H2. rewrite Forall_forall in H1, H2.
    rewrite (H1 _ Hin1), (H2 _ Hin2). now rewrite Hsame.
  - intros fs location p1 p2 content Hp1 Hp2. cbn. rewrite Hp1. cbn. now rewrite Hp2.
Qed.

End Files.

Lemma attachment_token_depends_on_content_only_witness :
  let doc := (attachFiles String.rev slash_join two_copies
                {| _attachments := None; attachments := None |}
                (Some ["LICENSE"; "docs/COPYING"]) "/tmp/cd-1").1 in
  let a1 := {| path := "LICENSE"; token := "esneciL TIM"; attachment := "MIT License" |} in
  let a2 := {| path := "docs/COPYING"; token := "esneciL TIM"; attachment := "MIT License" |} in
  _attachments doc = Some [a1; a2] ∧ token a1 = token a2.
Proof.
  intros doc a1 a2. split; [reflexivity|].
  refine (proj1 (attachment_token_depends_on_content_only String.rev slash_join
            two_copies two_copies {| _attachments := None; attachments := None |}
            {| _attachments := None; attachments := None |}
            (Some ["LICENSE"; "docs/COPYING"]) (Some ["LICENSE"; "docs/COPYING"])
            "/tmp/cd-1" "/tmp/cd-1" a1 a2 _ _ _ _ eq_refl)).
  - constructor.
  - constructor.
  - apply list_elem_of_here.
  - apply list_elem_of_further, list_elem_of_here.
Defined.

End AttachmentsFacts.

(** ** Manifest resolution *)
Module MavenFacts.
Import MavenExtract MavenSpec.

Lemma merge_fragments_lookup k fragments :
  merge_fragments fragments !! k = override_lookup k fragments.
Proof.
  induction fragments as [|f fragments IH]; [apply lookup_empty|].
  cbn [merge_fragments foldr override_lookup].
  destruct (project_fields f !! k) as [v|] eqn:E.
  - now apply lookup_union_Some_l.
  - rewrite lookup_union_r by exact E. exact IH.
Qed.

Lemma get_defined v k : v ≠ VUndef → get v k = Ok (default VUndef (own v !! k)).
Proof. now destruct v. Qed.

Lemma strip_defined pom pom' : strip pom = Ok pom' → pom' ≠ VUndef.
Proof.
  unfold strip. destruct pom; [discriminate| | |];
    cbn [get mbind res_bind];
    destruct (foldl _ _ _); cbn; congruence.
Qed.

Lemma _mergePomInto_spec pom m :
  pom ≠ VUndef → summary m ≠ VUndef →
  _mergePomInto pom m =
    Ok {| summary :=
            VObj {[ "project" := VObj (project_fields pom ∪ project_fields (summary m)) ]};
          poms := pom :: poms m |}.
Proof.
  intros Hpom Hsum. unfold _mergePomInto.
  rewrite (get_defined _ _ Hsum), (get_defined _ _ Hpom). reflexivity.
Qed.

Lemma project_fields_summary fields :
  project_fields (VObj {[ "project" := VObj fields ]}) = fields.
Proof. unfold project_fields. cbn [own]. now rewrite lookup_singleton_eq. Qed.

Section Resolver.
Variable parseString : string → res value.
Variable fetchPom : EntitySpec.t → res (Z * string).

Lemma resolves_head content fragments :
  resolves parseString fetchPom content fragments →
  ∃ pom descriptor ancestors,
    parseString (JS.trim content) = Ok pom ∧ strip pom = Ok descriptor ∧
    fragments = descriptor :: ancestors.
Proof. destruct 1; eauto 10. Qed.

(** The summary that [_getManifest] builds for a descriptor: the descriptor
    itself when it names no parent, and otherwise an object with the one
    field [project], the merge of the fragments. *)
Lemma _getManifest_resolves content fragments :
  resolves parseString fetchPom content fragments →
  ∀ fuel, (length fragments ≤ fuel)%nat →
  ∃ m descriptor ancestors,
    _getManifest parseString fetchPom fuel content = Some (Ok m) ∧
    poms m = fragments ∧
    fragments = descriptor :: ancestors ∧
    summary m =
      (if has_parent descriptor
       then VObj {[ "project" := VObj (merge_fragments fragments) ]}
       else descriptor) ∧
    summary m ≠ VUndef ∧
    project_fields (summary m) = merge_fragments fragments.
Proof.
  induction 1 as [content pom descriptor Hparse Hstrip Hleaf
                 |content pom descriptor spec file Hparse Hstrip Hpar Hspec Hfetch
                 |content pom descriptor spec code file ancestors
                    Hparse Hstrip Hpar Hspec Hfetch Hcode Hrest IH];
    intros [|fuel] Hfuel; cbn [length] in Hfuel; try lia;
    cbn [_getManifest]; rewrite Hparse; cbn [mbind res_bind]; rewrite Hstrip;
    pose proof (strip_defined _ _ Hstrip) as Hdef.
  - rewrite Hleaf. eexists _, descriptor, []. split; [reflexivity|]. cbn [poms summary].
    rewrite Hleaf. split; [reflexivity|]. split; [reflexivity|]. split; [reflexivity|].
    split; [exact Hdef|].
    cbn [merge_fragments foldr]. now rewrite (right_id_L ∅ (∪)).
  - rewrite Hpar. unfold _fetchParentPomManifest. rewrite Hspec, Hfetch. cbn [Z.eqb Pos.eqb].
    rewrite _mergePomInto_spec by (exact Hdef || discriminate).
    eexists _, descriptor, []. split; [reflexivity|]. cbn [poms summary].
    rewrite Hpar, project_fields_summary.
    split; [reflexivity|]. split; [reflexivity|]. split; [reflexivity|].
    split; [discriminate | reflexivity].
  - rewrite Hpar. unfold _fetchParentPomManifest. rewrite Hspec, Hfetch.
    apply Z.eqb_neq in Hcode. rewrite Hcode.
    destruct (IH fuel ltac:(lia)) as (m & d & a & -> & Hpoms & _ & _ & Hsum & Hfields).
    rewrite _mergePomInto_spec by assumption.
    eexists _, descriptor, ancestors. split; [reflexivity|]. cbn [poms summary].
    rewrite Hpar, Hpoms, Hfields, project_fields_summary.
    split; [reflexivity|]. split; [reflexivity|]. split; [reflexivity|].
    split; [discriminate | reflexivity].
Qed.

(** C3.  For a descriptor whose chain of ancestors resolves, resolution
    returns (given fuel for the length of the chain) a manifest whose
    fragment list is the chain in order, child first, and whose first
    fragment is the parsed and stripped descriptor itself.  The summary of a
    descriptor without parent is the descriptor; otherwise it is an object
    with the one field [project], the override merge of the fragments: each
    project field has the value it has in the first fragment that defines
    it. *)
Theorem manifest_is_ordered_override_merge (content : string) (fragments : list value) :
  resolves parseString fetchPom content fragments →
  ∃ pom descriptor,
    parseString (JS.trim content) = Ok pom ∧ strip pom = Ok descriptor ∧
    ∀ fuel, (length fragments ≤ fuel)%nat →
    ∃ m, _getManifest parseString fetchPom fuel content = Some (Ok m) ∧
         poms m = fragments ∧
         poms m !! 0%nat = Some descriptor ∧
         summary m =
           (if has_parent descriptor
            then VObj {[ "project" := VObj (merge_fragments (poms m)) ]}
            else descriptor) ∧
         project_fields (summary m) = merge_fragments (poms m) ∧
         ∀ k, project_fields (summary m) !! k = override_lookup k (poms m).
Proof.
  intros Hres.
  destruct (resolves_head _ _ Hres) as (pom & descriptor & ancestors & Hp & Hs & Hfrag).
  exists pom, descriptor. split; [exact Hp|]. split; [exact Hs|].
  intros fuel Hfuel.
  destruct (_getManifest_resolves _ _ Hres fuel Hfuel)
    as (m & d & a & Hm & Hpoms & Hhead & Hsum & _ & Hfields).
  assert (d = descriptor) as -> by congruence.
  exists m. rewrite Hpoms. split; [exact Hm|]. split; [reflexivity|].
  split; [now rewrite Hfrag|]. split; [exact Hsum|]. split; [exact Hfields|].
  intros k. rewrite Hfields. apply merge_fragments_lookup.
Qed.

Lemma strip_project fields :
  strip (VObj {[ "project" := VObj fields ]}) = Ok (stripped fields).
Proof.
  unfold strip, stripped. cbn [get own]. rewrite lookup_singleton_eq.
  cbn. now rewrite insert_singleton_eq.
Qed.

(** C4.  When the descriptor declares a parent and the fetch of that
    parent answers 404, the parent counts as the empty manifest and
    resolution succeeds without going further: the summary is the
    descriptor itself, stripped, and it is the only fragment. *)
Theorem missing_parent_is_empty_contribution
    (content : string) (fields : gmap string value) (spec : EntitySpec.t)
    (file : string) (fuel : nat) :
  parseString (JS.trim content) = Ok (VObj {[ "project" := VObj fields ]}) →
  has_parent (stripped fields) = true →
  parent_spec (stripped fields) = Ok spec →
  fetchPom spec = Ok (404%Z, file) →
  _fetchParentPomManifest fetchPom (_getManifest parseString fetchPom fuel)
      (stripped fields) = Some (Ok {| summary := VObj ∅; poms := [] |})
  ∧ ∃ m, _getManifest parseString fetchPom (S fuel) content = Some (Ok m) ∧
         summary m = stripped fields ∧
         poms m = [stripped fields] ∧
         length (poms m) = 1%nat.
Proof.
  intros Hparse Hpar Hspec Hfetch.
  assert (Hparent : _fetchParentPomManifest fetchPom
            (_getManifest parseString fetchPom fuel) (stripped fields) =
            Some (Ok {| summary := VObj ∅; poms := [] |})).
  { unfold _fetchParentPomManifest. now rewrite Hspec, Hfetch. }
  split; [exact Hparent|].
  exists {| summary := stripped fields; poms := [stripped fields] |}.
  repeat split.
  cbn [_getManifest]. rewrite Hparse. cbn [mbind res_bind].
  rewrite strip_project, Hpar, Hparent.
  unfold _mergePomInto, stripped. cbn [get own summary poms mbind res_bind].
  rewrite lookup_empty, lookup_singleton_eq. cbn [default].
  unfold assign. cbn [own]. now rewrite (right_id_L ∅ (∪)).
Qed.

End Resolver.

Lemma child_resolves :
  resolves parse_example fetch_example "<child/>"
    [stripped child_fields; stripped parent_fields; stripped root_fields].
Proof.
  eapply resolves_parent;
    [reflexivity | apply strip_project | reflexivity | reflexivity | reflexivity
    | discriminate |].
  eapply resolves_parent;
    [reflexivity | apply strip_project | reflexivity | reflexivity | reflexivity
    | discriminate |].
  eapply resolves_root; [reflexivity | apply strip_project | reflexivity].
Defined.

Lemma manifest_is_ordered_override_merge_witness :
  ∃ m, _getManifest parse_example fetch_example 3 "<child/>" = Some (Ok m) ∧
       poms m = [stripped child_fields; stripped parent_fields; stripped root_fields] ∧
       project_fields (summary m) !! "name" = Some (text "Child") ∧
       project_fields (summary m) !! "url" = Some (text "https://example.org/parent") ∧
       project_fields (summary m) !! "licenses" = Some (text "MIT") ∧
       project_fields (summary m) !! "build" = None.
Proof.
  destruct (manifest_is_ordered_override_merge parse_example fetch_example
              "<child/>" _ child_resolves) as (pom & descriptor & _ & _ & H).
  destruct (H 3%nat (le_n 3)) as (m & Hm & Hpoms & _ & _ & _ & Hlookup).
  exists m. split; [exact Hm|]. split; [exact Hpoms|].
  rewrite !Hlookup, Hpoms. repeat split; vm_compute; reflexivity.
Defined.

Lemma missing_parent_is_empty_contribution_witness :
  ∃ m, _getManifest parse_example fetch_example 1 "<orphan/>" = Some (Ok m) ∧
       summary m = stripped orphan_fields ∧ length (poms m) = 1%nat.
Proof.
  destruct (missing_parent_is_empty_contribution parse_example fetch_example
              "<orphan/>" orphan_fields
              (EntitySpec.make (Some "maven") (Some "mavencentral") (Some "org.example")
                 (Some "gone") (Some "0") None)
              EmptyString 0 eq_refl eq_refl eq_refl eq_refl) as (_ & m & Hm & Hsum & _ & Hlen).
  exists m. auto.
Defined.

End MavenFacts.

(** ** Splitting, joining and trimming *)
Module TextFacts.
Import JS JSFacts TextSpec.

Lemma str_take_app p s : str_take (String.length p) (p +:+ s) = p.
Proof.
  induction p as [|c p IH]; [now destruct s|].
  rewrite append_cons. cbn [String.length str_take]. now rewrite IH.
Qed.

Lemma prefix_head_mismatch c sep a s :
  Ascii.eqb a c = false → String.prefix (String c sep) (String a s) = false.
Proof.
  intros H. cbn [String.prefix]. destruct (ascii_dec c a) as [->|]; [|reflexivity].
  now rewrite Ascii.eqb_refl in H.
Qed.

(** A separator does not occur in a text that lacks its first code unit. *)
Lemma indexOf_lacks c sep p : lacks c p = true → indexOf (String c sep) p = None.
Proof.
  induction p as [|a p IH]; [reflexivity|].
  cbn [lacks]. intros [Ha Hp]%andb_prop. apply negb_true_iff in Ha.
  rewrite indexOf_cons, prefix_head_mismatch, IH by assumption. reflexivity.
Qed.

(** After such a text, the first occurrence of the separator is the one
    that follows it. *)
Lemma indexOf_app_lacks c sep p s :
  lacks c p = true →
  indexOf (String c sep) (p +:+ String c sep +:+ s) = Some (String.length p).
Proof.
  induction p as [|a p IH].
  - intros _. change (EmptyString +:+ String c sep +:+ s) with (String c sep +:+ s).
    apply indexOf_prefix.
  - cbn [lacks]. intros [Ha Hp]%andb_prop. apply negb_true_iff in Ha.
    rewrite append_cons, indexOf_cons, prefix_head_mismatch, IH by assumption.
    reflexivity.
Qed.

Lemma str_drop_past p sep s :
  str_drop (String.length p + String.length sep) (p +:+ sep +:+ s) = s.
Proof.
  induction p as [|c p IH]; [exact (str_drop_app sep s)|].
  rewrite append_cons. exact IH.
Qed.

(** [split] undoes [join] on texts that lack the first code unit of the
    separator. *)
Lemma split_join c sep x xs :
  Forall (fun x => lacks c x = true) (x :: xs) →
  split (String c sep) (join (String c sep) (x :: xs)) = x :: xs.
Proof.
  revert x; induction xs as [|y xs IH]; intros x Hall.
  - apply Forall_cons in Hall as [Hx _]. cbn [join].
    rewrite split_unfold by discriminate. now rewrite indexOf_lacks.
  - apply Forall_cons in Hall as [Hx Hall].
    change (join (String c sep) (x :: y :: xs))
      with (x +:+ String c sep +:+ join (String c sep) (y :: xs)).
    rewrite split_unfold by discriminate.
    rewrite indexOf_app_lacks, str_take_app, str_drop_past, IH by assumption.
    reflexivity.
Qed.

Lemma join_cons sep x xs :
  xs ≠ [] → join sep (x :: xs) = x +:+ sep +:+ join sep xs.
Proof. now destruct xs. Qed.

Lemma str_drop_drop n m s : str_drop n (str_drop m s) = str_drop (m + n) s.
Proof.
  revert s; induction m as [|m IH]; intros s; [reflexivity|].
  destruct s as [|a s]; [now destruct n|]. apply IH.
Qed.

(** [join] undoes [split], whatever the text. *)
Lemma join_split sep s : sep ≠ EmptyString → join sep (split sep s) = s.
Proof.
  intros Hsep. remember (String.length s) as n eqn:Hn.
  revert s Hn; induction n as [n IH] using lt_wf_ind; intros s ->.
  rewrite split_unfold by exact Hsep.
  destruct (indexOf sep s) as [i|] eqn:E; [|reflexivity].
  pose proof (indexOf_bound _ _ _ E) as Hb.
  destruct (indexOf_Some _ _ _ E) as [Hp _]. apply prefix_split in Hp.
  assert (0 < String.length sep)%nat by (destruct sep; [congruence | simpl; lia]).
  rewrite join_cons by now apply split_nonempty.
  rewrite (IH (String.length (str_drop (i + String.length sep) s)))
    by (rewrite ?str_length_drop; lia || reflexivity).
  rewrite <- str_drop_drop, <- Hp. apply str_take_drop.
Qed.

Lemma trimEnd_keeps s c :
  is_ws c = false → trimEnd (s +:+ String c EmptyString) = s +:+ String c EmptyString.
Proof.
  intros Hc. induction s as [|a s IH].
  - change (trimEnd (String c EmptyString) = String c EmptyString).
    cbn [trimEnd]. now rewrite Hc.
  - rewrite append_cons. cbn [trimEnd]. rewrite IH.
    now destruct (s +:+ String c EmptyString) eqn:E; [destruct s; discriminate|].
Qed.

(** The result of [trimEnd] is empty or ends in a code unit that is not a
    blank. *)
Lemma trimEnd_shape s :
  trimEnd s = EmptyString ∨
  ∃ r c, trimEnd s = r +:+ String c EmptyString ∧ is_ws c = false.
Proof.
  induction s as [|a s IH]; [now left|].
  cbn [trimEnd]. destruct IH as [->|(r & c & -> & Hc)].
  - destruct (is_ws a) eqn:Ha; [now left|].
    right. exists EmptyString, a. now split.
  - right. exists (String a r), c. split; [|exact Hc].
    rewrite append_cons.
    now destruct (r +:+ String c EmptyString) eqn:E; [destruct r; discriminate|].
Qed.

Lemma trimEnd_idempotent s : trimEnd (trimEnd s) = trimEnd s.
Proof.
  destruct (trimEnd_shape s) as [->|(r & c & -> & Hc)]; [reflexivity|].
  now apply trimEnd_keeps.
Qed.

Lemma trimStart_head s :
  trimStart s = EmptyString ∨ ∃ c r, trimStart s = String c r ∧ is_ws c = false.
Proof.
  induction s as [|a s IH]; [now left|].
  cbn [trimStart]. destruct (is_ws a) eqn:Ha; [exact IH|]. right. eauto.
Qed.

(** [trimEnd] does not touch the first code unit of a text that starts with
    a code unit that is not a blank. *)
Lemma trimEnd_head c r :
  is_ws c = false → ∃ r', trimEnd (String c r) = String c r'.
Proof.
  intros Hc. cbn [trimEnd]. destruct (trimEnd r); [rewrite Hc|]; eauto.
Qed.

Lemma trimStart_fixed c r : is_ws c = false → trimStart (String c r) = String c r.
Proof. intros Hc. cbn [trimStart]. now rewrite Hc. Qed.

(** [trim] is idempotent: a trimmed text is left as it is. *)
Lemma trim_idempotent s : trim (trim s) = trim s.
Proof.
  unfold trim. destruct (trimStart_head s) as [->|(c & r & -> & Hc)]; [reflexivity|].
  destruct (trimEnd_head c r Hc) as [r' E]. rewrite E, trimStart_fixed by exact Hc.
  rewrite <- E. apply trimEnd_idempotent.
Qed.

Lemma trim_trimmed s : trimmed (trim s).
Proof. apply trim_idempotent. Qed.

End TextFacts.

(** ** The docker processors, further *)
Module DockerMoreFacts.
Import JS JSFacts TextSpec TextFacts DockerExtract DockerSpec DockerFacts DockerMoreSpec.

Lemma lacks_app c a b : lacks c (a +:+ b) = lacks c a && lacks c b.
Proof.
  induction a as [|x a IH]; [reflexivity|].
  rewrite append_cons. cbn [lacks]. rewrite IH. now rewrite andb_assoc.
Qed.

Lemma str_length_app a b : String.length (a +:+ b) = (String.length a + String.length b)%nat.
Proof.
  induction a as [|x a IH]; [reflexivity|]. rewrite append_cons. cbn. now rewrite IH.
Qed.

Lemma join_nonempty sep x xs : x ≠ EmptyString → join sep (x :: xs) ≠ EmptyString.
Proof.
  intros Hx. destruct xs; cbn [join]; [exact Hx|].
  destruct x; [congruence|]. now rewrite append_cons.
Qed.

Lemma dpkg_line_nonempty r : dpkg_line r ≠ EmptyString.
Proof.
  intros H. apply (f_equal String.length) in H. unfold dpkg_line in H.
  rewrite !str_length_app in H. cbn in H. lia.
Qed.

(** A record of the form name, delimiter, version is read back as it was
    written. *)
Lemma dpkg_record_line r :
  lacks "_" r.1 = true → indexOf "___" r.2 = None →
  dpkg_record (dpkg_line r) = (r.1, Some r.2).
Proof.
  intros Hname Hversion. unfold dpkg_record, dpkg_line.
  rewrite split_unfold by discriminate.
  rewrite (indexOf_app_lacks "_" "__" r.1 r.2 Hname), str_take_app.
  change (String.length "___") with (String.length "___").
  rewrite (str_drop_past r.1 "___" r.2), split_unfold by discriminate.
  now rewrite Hversion.
Qed.

Lemma dpkg_url_line r :
  lacks "_" r.1 = true → indexOf "___" r.2 = None →
  dpkg_url (dpkg_line r) = "cd:/dpkg/dpkg/-/" +:+ r.1 +:+ "/" +:+ r.2.
Proof.
  intros Hname Hversion. unfold dpkg_url. now rewrite dpkg_record_line.
Qed.

(** A listing written from well-formed records, one per line, is read back
    record by record: [_queueDpkgs] records exactly the component of each
    record, in order, and does not throw. *)
Theorem queueDpkgs_reads_back_records
    (r : string * string) (rs : list (string * string)) (a : option apk_listing) :
  Forall dpkg_wellformed (r :: rs) →
  _queueDpkgs {| apk := a; dpkg := Some (join LF (dpkg_line <$> (r :: rs))) |} =
    (flat_map dpkg_effects (r :: rs), Ok tt).
Proof.
  intros Hall. unfold _queueDpkgs. cbn [dpkg].
  assert (Hlines : Forall (fun x => lacks "010" x = true) (dpkg_line <$> (r :: rs))).
  { apply Forall_fmap. eapply Forall_impl; [exact Hall|].
    intros x (Hn & Hv & _ & _). unfold dpkg_line. cbn [compose].
    now rewrite !lacks_app, Hn, Hv. }
  pose proof (join_nonempty LF (dpkg_line r) (dpkg_line <$> rs) (dpkg_line_nonempty r)) as Hne.
  cbn [fmap list_fmap] in *.
  destruct (join LF (dpkg_line r :: (dpkg_line <$> rs))) as [|c t] eqn:E;
    [congruence|]. rewrite <- E. clear E Hne.
  unfold LF at 1. rewrite split_join by exact Hlines.
  rewrite _queueDpkgs_loop_spec. f_equal.
  clear Hlines. change (dpkg_line r :: (dpkg_line <$> rs)) with (dpkg_line <$> (r :: rs)).
  induction Hall as [|x xs (_ & _ & Hn & Hv) _ IH]; [reflexivity|].
  cbn [fmap list_fmap flat_map]. rewrite dpkg_url_line by assumption.
  f_equal. f_equal. exact IH.
Qed.

Lemma queueDpkgs_reads_back_records_witness :
  _queueDpkgs {| apk := None;
                 dpkg := Some ("libc6___2.24-11+deb9u3" +:+ LF +:+ "zlib1g___1:1.2.8.dfsg-5") |} =
    ([AddEmbeddedComponent "cd:/dpkg/dpkg/-/libc6/2.24-11+deb9u3";
      NewRequest "dpkg" "cd:/dpkg/dpkg/-/libc6/2.24-11+deb9u3";
      AddEmbeddedComponent "cd:/dpkg/dpkg/-/zlib1g/1:1.2.8.dfsg-5";
      NewRequest "dpkg" "cd:/dpkg/dpkg/-/zlib1g/1:1.2.8.dfsg-5"], Ok tt).
Proof.
  apply (queueDpkgs_reads_back_records ("libc6", "2.24-11+deb9u3")
           [("zlib1g", "1:1.2.8.dfsg-5")] None).
  repeat constructor.
Defined.

(** A pair of listings written from the same packages, one per line, is read
    back package by package, whatever hyphens the names and versions hold:
    [_queueApks] records exactly the component of each package, in order, and
    does not throw. *)
Theorem queueApks_reads_back_packages
    (p : string * string) (ps : list (string * string)) (d : option string) :
  Forall apk_wellformed (p :: ps) →
  _queueApks {| apk := Some {| names := join LF (fst <$> (p :: ps));
                               namesAndVersions := join LF (apk_entry <$> (p :: ps)) |};
                dpkg := d |} =
    (flat_map (fun p => [AddEmbeddedComponent (apk_url p.1 p.2);
                         NewRequest "apk" (apk_url p.1 p.2)]) (p :: ps),
     Ok tt).
Proof.
  intros Hall.
  assert (Hnames : Forall (fun x => lacks "010" x = true) (fst <$> (p :: ps))).
  { apply Forall_fmap. eapply Forall_impl; [exact Hall|]. now intros x [Hn _]. }
  assert (Hentries : Forall (fun x => lacks "010" x = true) (apk_entry <$> (p :: ps))).
  { apply Forall_fmap. eapply Forall_impl; [exact Hall|].
    intros x [Hn Hv]. unfold apk_entry. cbn [compose]. now rewrite !lacks_app, Hn, Hv. }
  cbn [fmap list_fmap] in Hnames, Hentries.
  erewrite _queueApks_equal_length; [|reflexivity|]; cbn [names namesAndVersions];
    cbn [fmap list_fmap]; unfold LF; rewrite !split_join by assumption.
  - f_equal. change (p.1 :: (fst <$> ps)) with (fst <$> (p :: ps)).
    change (apk_entry p :: (apk_entry <$> ps)) with (apk_entry <$> (p :: ps)).
    clear. induction (p :: ps) as [|x xs IH]; [reflexivity|].
    cbn [fmap list_fmap zip_with flat_map]. rewrite IH.
    unfold apk_effects, apk_entry. cbn [fst snd]. now rewrite apk_version_prefix.
  - cbn [length]. now rewrite !length_fmap.
Qed.

Lemma queueApks_reads_back_packages_witness :
  _queueApks {| apk := Some {| names := "musl" +:+ LF +:+ "libssl1.1";
                               namesAndVersions :=
                                 "musl-1.1.20-r4" +:+ LF +:+ "libssl1.1-1.1.1b-r1" |};
                dpkg := None |} =
    ([AddEmbeddedComponent "cd:/apk/apk/-/musl/1.1.20-r4";
      NewRequest "apk" "cd:/apk/apk/-/musl/1.1.20-r4";
      AddEmbeddedComponent "cd:/apk/apk/-/libssl1.1/1.1.1b-r1";
      NewRequest "apk" "cd:/apk/apk/-/libssl1.1/1.1.1b-r1"], Ok tt).
Proof.
  apply (queueApks_reads_back_packages ("musl", "1.1.20-r4") [("libssl1.1", "1.1.1b-r1")] None).
  repeat constructor.
Defined.

Lemma _queueDpkgs_total doc : outcome (_queueDpkgs doc) = Ok tt.
Proof.
  unfold _queueDpkgs. destruct (dpkg doc) as [[|c t]|]; try reflexivity.
  now rewrite _queueDpkgs_loop_spec.
Qed.

Lemma recorded_trace doc :
  trace (_queueDpkgs doc ;; _queueApks doc) = trace (_queueDpkgs doc) ++ trace (_queueApks doc).
Proof.
  pose proof (_queueDpkgs_total doc) as Hd.
  destruct (_queueDpkgs doc) as [t1 r1]. cbn in Hd. subst r1.
  now destruct (_queueApks doc) as [t2 r2].
Qed.

Lemma recorded_outcome doc :
  outcome (_queueDpkgs doc ;; _queueApks doc) = outcome (_queueApks doc).
Proof.
  pose proof (_queueDpkgs_total doc) as Hd.
  destruct (_queueDpkgs doc) as [t1 r1]. cbn in Hd. subst r1.
  now destruct (_queueApks doc) as [t2 r2].
Qed.

Lemma _queueApks_throws doc e :
  outcome (_queueApks doc) = Throw e ↔
  e = missing_entry ∧
  ∃ a, apk doc = Some a ∧
       (length (split LF (namesAndVersions a)) < length (split LF (names a)))%nat.
Proof.
  unfold _queueApks, outcome. destruct (apk doc) as [a|].
  - rewrite _queueApks_loop_spec by lia. cbn [snd].
    pose proof (split_nonempty LF (names a) ltac:(discriminate)) as Hne.
    destruct (split LF (names a)) as [|n ns] eqn:En; [congruence|].
    case_decide as Hdec.
    + split; [discriminate|]. intros (_ & a' & Heq & Hlt).
      assert (a' = a) as -> by congruence. rewrite En in Hlt.
      cbn [length] in *. lia.
    + split.
      * intros [= <-]. split; [reflexivity|]. exists a. split; [reflexivity|].
        rewrite En. cbn [length] in *. lia.
      * now intros [-> _].
  - split; [discriminate|]. now intros (_ & a & [=] & _).
Qed.

Section Handler.
Variable inherited : stored → stored * Eff unit.
Variable clone : stored → stored.

(** [handle] after an inherited call that returns. *)
Lemma handle_after_inherited doc doc1 t :
  inherited doc = (doc1, (t, Ok tt)) →
  let doc2 := merge (clone doc1) (stored_apk doc1) (stored_dpkg doc1) in
  handle inherited clone doc =
    (doc2, (t ++ trace (_queueDpkgs (view doc2)) ++ trace (_queueApks (view doc2)),
            outcome (_queueApks (view doc2)))).
Proof.
  intros H. cbv zeta. unfold handle. rewrite H. cbn [outcome snd]. f_equal.
  set (doc2 := merge _ _ _).
  pose proof (recorded_trace (view doc2)) as Ht.
  pose proof (recorded_outcome (view doc2)) as Ho.
  unfold mbind at 1. unfold Eff_bind at 1.
  destruct (_queueDpkgs (view doc2) ;; _queueApks (view doc2)) as [t' o'].
  cbn [trace outcome fst snd] in Ht, Ho. now subst t' o'.
Qed.

(** When the inherited call throws, [handle] throws the same and does
    nothing more.  When it returns, [handle] replaces the document by the
    clone with the apk and dpkg properties merged in, records every dpkg
    line of the new document before it looks at the apk listings, and
    throws in one case only: the apk names listing of the new document has
    more lines than its name+version listing. *)
Theorem handle_faults_only_on_short_apk_listing
    (doc doc1 : stored) (t : list effect) (o : res unit) :
  inherited doc = (doc1, (t, o)) →
  match o with
  | Throw e => handle inherited clone doc = (doc1, (t, Throw e))
  | Ok _ =>
      let doc2 := merge (clone doc1) (stored_apk doc1) (stored_dpkg doc1) in
      (handle inherited clone doc).1 = doc2
      ∧ trace (handle inherited clone doc).2 =
          t ++ trace (_queueDpkgs (view doc2)) ++ trace (_queueApks (view doc2))
      ∧ ∀ e, outcome (handle inherited clone doc).2 = Throw e ↔
             e = missing_entry ∧
             ∃ a, stored_apk doc2 = Value a ∧
                  (length (split LF (namesAndVersions a)) < length (split LF (names a)))%nat
  end.
Proof.
  intros H. destruct o as [[]|e].
  - cbv zeta. rewrite (handle_after_inherited _ _ _ H). cbn [fst snd trace outcome].
    split; [reflexivity|]. split; [reflexivity|].
    intros e. fold (outcome (_queueApks (view (merge (clone doc1) (stored_apk doc1)
                                               (stored_dpkg doc1))))).
    rewrite _queueApks_throws. unfold view. cbn [apk].
    split; intros (-> & a & Ha & Hlt); (split; [reflexivity|]); exists a; (split; [|exact Hlt]).
    + destruct (stored_apk _); try discriminate. now injection Ha as ->.
    + now rewrite Ha.
  - unfold handle. now rewrite H.
Qed.

End Handler.

Section Fetch.
Variable exec : string → DockerFetch.exec_result.
Variable _getRevision : EntitySpec.t → res string.
Variable toUrl : EntitySpec.t → string.

Lemma _getApk_cases spec :
  (DockerFetch._getApk exec spec = Ok None ∧
     found_nothing (exec (DockerFetch.apk_info_command spec)))
  ∨ (∃ c t out, exec (DockerFetch.apk_info_command spec) = DockerFetch.Stdout out ∧
       trim out = String c t ∧
       match exec (DockerFetch.apk_info_v_command spec) with
       | DockerFetch.Failed e => DockerFetch._getApk exec spec = Throw e
       | DockerFetch.Stdout out' =>
           DockerFetch._getApk exec spec =
             Ok (Some {| names := String c t; namesAndVersions := trim out' |})
       end).
Proof.
  unfold DockerFetch._getApk, found_nothing.
  destruct (exec (DockerFetch.apk_info_command spec)) as [e|out]; [now left|].
  destruct (trim out) as [|c t] eqn:E; [now left|].
  right. exists c, t, out. repeat split; [exact E|].
  now destruct (exec (DockerFetch.apk_info_v_command spec)).
Qed.

(** The fetcher skips the request exactly when the revision resolves and
    neither the apk probe nor the dpkg probe finds anything. *)
Theorem fetch_skips_iff_nothing_found (spec : EntitySpec.t) (url : string) :
  DockerFetch.handle exec _getRevision toUrl spec = Ok (DockerFetch.Skipped url) ↔
  ∃ revision,
    _getRevision spec = Ok revision ∧
    url = toUrl (DockerFetch.withRevision revision spec) ∧
    found_nothing (exec (DockerFetch.apk_info_command (DockerFetch.withRevision revision spec))) ∧
    found_nothing (exec (DockerFetch.dpkg_list_command (DockerFetch.withRevision revision spec))).
Proof.
  unfold DockerFetch.handle. destruct (_getRevision spec) as [revision|e]; cbn [mbind res_bind].
  - set (spec' := DockerFetch.withRevision revision spec).
    destruct (_getApk_cases spec') as [[-> Hapk]|(c & t & out & Hout & Htrim & Hv)].
    + cbn [mbind res_bind]. unfold DockerFetch._getDpkg, found_nothing.
      destruct (exec (DockerFetch.dpkg_list_command spec')) as [e|out] eqn:Ed.
      * split; [|now intros (r & [= <-] & -> & _)].
        intros [= <-]. exists revision. fold spec'. rewrite Ed. auto.
      * destruct (trim out) as [|c t] eqn:Et.
        -- split; [|now intros (r & [= <-] & -> & _)].
           intros [= <-]. exists revision. fold spec'. rewrite Ed. auto.
        -- split; [discriminate|]. intros (r & [= <-] & _ & _ & H).
           fold spec' in H. rewrite Ed, Et in H. discriminate.
    + split.
      * destruct (exec (DockerFetch.apk_info_v_command spec')); rewrite Hv;
          cbn [mbind res_bind]; [discriminate|].
        now destruct (DockerFetch._getDpkg exec spec') as [[|]|].
      * intros (r & [= <-] & _ & H & _). fold spec' in H. unfold found_nothing in H.
        rewrite Hout, Htrim in H. discriminate.
  - split; [discriminate|]. now intros (r & [=] & _).
Qed.

Lemma stored_document_merge object doc :
  merge object (stored_apk (DockerFetch.stored_document doc))
    (stored_dpkg (DockerFetch.stored_document doc)) = DockerFetch.stored_document doc.
Proof. destruct doc as [[a|] [d|]]; reflexivity. Qed.

Lemma stored_document_view doc : view (DockerFetch.stored_document doc) = doc.
Proof. destruct doc as [[a|] [d|]]; reflexivity. Qed.

(** What the fetcher hands on, and what the two loops make of it. *)
Lemma fetched_document_shape (spec : EntitySpec.t) (url : string) (doc : document) :
  DockerFetch.handle exec _getRevision toUrl spec = Ok (DockerFetch.Document url doc) →
  (∀ a, apk doc = Some a →
        names a ≠ EmptyString ∧ trimmed (names a) ∧ trimmed (namesAndVersions a))
  ∧ (∀ listing, dpkg doc = Some listing → trimmed listing)
  ∧ ∃ component rest,
      trace (_queueDpkgs doc) ++ trace (_queueApks doc) = AddEmbeddedComponent component :: rest.
Proof.
  unfold DockerFetch.handle. destruct (_getRevision spec) as [revision|e]; [|discriminate].
  cbn [mbind res_bind]. set (spec' := DockerFetch.withRevision revision spec).
  assert (Hdpkg : ∀ listing, DockerFetch._getDpkg exec spec' = Some listing → trimmed listing).
  { unfold DockerFetch._getDpkg. destruct (exec _); [discriminate|].
    intros listing [= <-]. apply trim_trimmed. }
  assert (Hloop : ∀ c t, ∃ component rest,
            trace (_queueDpkgs_loop (split LF (String c t))) = AddEmbeddedComponent component :: rest).
  { intros c t. pose proof (split_nonempty LF (String c t) ltac:(discriminate)) as Hne.
    destruct (split LF (String c t)) as [|line lines]; [congruence|].
    rewrite _queueDpkgs_loop_spec. cbn. eauto. }
  destruct (_getApk_cases spec') as [[-> _]|(c & t & out & Hout & Htrim & Hv)].
  - cbn [mbind res_bind].
    destruct (DockerFetch._getDpkg exec spec') as [[|c t]|] eqn:Ed; try discriminate.
    intros [= <- <-]. cbn [apk dpkg]. split; [discriminate|]. split; [exact Hdpkg|].
    destruct (Hloop c t) as (component & rest & Hl).
    unfold _queueDpkgs, _queueApks. cbn [apk dpkg]. rewrite Hl. cbn. eauto.
  - destruct (exec (DockerFetch.apk_info_v_command spec')) as [e|out']; rewrite Hv;
      cbn [mbind res_bind]; [discriminate|].
    assert (Hdoc : ∀ d, ∃ component rest,
              let doc := {| apk := Some {| names := String c t; namesAndVersions := trim out' |};
                            dpkg := d |} in
              trace (_queueDpkgs doc) ++ trace (_queueApks doc) =
                AddEmbeddedComponent component :: rest).
    { intros d. cbv zeta.
      unfold _queueDpkgs, _queueApks. cbn [apk dpkg names namesAndVersions].
      destruct d as [[|c' t']|].
      2: destruct (Hloop c' t') as (component & rest & ->); cbn; eauto.
      all: cbn [trace fst mret Eff_ret app];
        pose proof (split_nonempty LF (String c t) ltac:(discriminate)) as Hn;
        pose proof (split_nonempty LF (trim out') ltac:(discriminate)) as Hv';
        destruct (split LF (String c t)) as [|n ns]; [congruence|];
        destruct (split LF (trim out')) as [|v vs]; [congruence|];
        cbn [length _queueApks_loop lookup list_lookup]; rewrite emit_bind; cbn; eauto. }
    intros H.
    assert (Hshape : apk doc = Some {| names := String c t; namesAndVersions := trim out' |}
                     ∧ dpkg doc = DockerFetch._getDpkg exec spec').
    { destruct (DockerFetch._getDpkg exec spec') as [[|]|]; injection H as _ <-; auto. }
    destruct Hshape as [Ha Hd]. destruct doc as [a d]. cbn in Ha, Hd. subst a.
    split; [|split; [intros listing Hl; apply Hdpkg; cbn in Hl; congruence|apply Hdoc]].
    intros a [= <-]. cbn [names namesAndVersions]. split; [discriminate|].
    split; [rewrite <- Htrim|]; apply trim_trimmed.
Qed.

(** A document that the fetcher hands on holds trimmed listings, with a
    names listing that is not empty, and it always gives the extract
    processor something to record: when the inherited call returns and
    leaves the apk and dpkg properties as fetched, the first effect of
    [DockerExtract.handle] after the inherited ones is an embedded
    component, whatever [clone] keeps. *)
Theorem fetched_document_yields_components
    (spec : EntitySpec.t) (url : string) (doc : document) :
  DockerFetch.handle exec _getRevision toUrl spec = Ok (DockerFetch.Document url doc) →
  (∀ a, apk doc = Some a →
        names a ≠ EmptyString ∧ trimmed (names a) ∧ trimmed (namesAndVersions a))
  ∧ (∀ listing, dpkg doc = Some listing → trimmed listing)
  ∧ ∀ (inherited : stored → stored * Eff unit) (clone : stored → stored)
      (doc1 : stored) (t : list effect),
      inherited (DockerFetch.stored_document doc) = (doc1, (t, Ok tt)) →
      stored_apk doc1 = stored_apk (DockerFetch.stored_document doc) →
      stored_dpkg doc1 = stored_dpkg (DockerFetch.stored_document doc) →
      ∃ component rest,
        trace (handle inherited clone (DockerFetch.stored_document doc)).2 =
          t ++ AddEmbeddedComponent component :: rest.
Proof.
  intros H. destruct (fetched_document_shape spec url doc H) as (Ha & Hd & c & rest & Hrec).
  split; [exact Ha|]. split; [exact Hd|].
  intros inherited clone doc1 t Hin Hapk Hdpkg.
  rewrite (handle_after_inherited _ _ _ _ _ Hin). cbv zeta. cbn [snd trace fst].
  rewrite Hapk, Hdpkg, stored_document_merge, stored_document_view.
  exists c, rest. now rewrite Hrec.
Qed.

End Fetch.

Lemma fetched_document_yields_components_witness :
  ∃ component rest,
    trace (handle (fun doc => (doc, ([LinkResource "self" "urn:docker:dockerhub:-:node"], Ok tt)))
             (fun _ => {| stored_apk := Undefined; stored_dpkg := Undefined |})
             {| stored_apk := Value {| names := "musl" +:+ LF +:+ "busybox";
                                       namesAndVersions :=
                                         "musl-1.1.20-r4" +:+ LF +:+ "busybox-1.29.3-r10" |};
                stored_dpkg := Null |}).2 =
      [LinkResource "self" "urn:docker:dockerhub:-:node"] ++ AddEmbeddedComponent component :: rest.
Proof.
  refine (proj2 (proj2 (fetched_document_yields_components alpine_exec
            (fun _ => Ok "abc") (fun _ => "cd:/docker/dockerhub/-/node/abc") node_image
            "cd:/docker/dockerhub/-/node/abc"
            {| apk := Some {| names := "musl" +:+ LF +:+ "busybox";
                              namesAndVersions :=
                                "musl-1.1.20-r4" +:+ LF +:+ "busybox-1.29.3-r10" |};
               dpkg := None |} _))
          (fun doc => (doc, ([LinkResource "self" "urn:docker:dockerhub:-:node"], Ok tt)))
          (fun _ => {| stored_apk := Undefined; stored_dpkg := Undefined |})
          _ _ eq_refl eq_refl eq_refl).
  reflexivity.
Defined.

Lemma fetch_skips_iff_nothing_found_witness :
  DockerFetch.handle (fun _ => DockerFetch.Failed (Error "no docker")) (fun _ => Ok "abc")
    (fun _ => "cd:/docker/dockerhub/-/node/abc") node_image =
  Ok (DockerFetch.Skipped "cd:/docker/dockerhub/-/node/abc").
Proof.
  apply (fetch_skips_iff_nothing_found (fun _ => DockerFetch.Failed (Error "no docker"))
           (fun _ => Ok "abc") (fun _ => "cd:/docker/dockerhub/-/node/abc") node_image).
  exists "abc". repeat split.
Defined.

Lemma handle_faults_only_on_short_apk_listing_witness :
  outcome (handle (fun doc => (doc, ([LinkResource "self" "urn:docker:dockerhub:-:node"], Ok tt)))
             (fun _ => {| stored_apk := Undefined; stored_dpkg := Undefined |})
             {| stored_apk := Value {| names := "musl" +:+ LF +:+ "zlib";
                                       namesAndVersions := "musl-1.1.20-r4" |};
                stored_dpkg := Value ("bash___4.4-5" +:+ LF +:+ "dash___0.5.8-2.4") |}).2
    = Throw missing_entry.
Proof.
  apply (proj2 (proj2 (handle_faults_only_on_short_apk_listing
           (fun doc => (doc, ([LinkResource "self" "urn:docker:dockerhub:-:node"], Ok tt)))
           (fun _ => {| stored_apk := Undefined; stored_dpkg := Undefined |})
           _ _ _ (Ok tt) eq_refl))).
  split; [reflexivity|]. eexists. split; [reflexivity|]. vm_compute. lia.
Defined.

End DockerMoreFacts.

(** ** Version selection, further *)
Module VersionsMoreFacts.
Import Versions VersionsSpec.

Lemma getLatestVersion_reduce first second rest :
  getLatestVersion (first :: second :: rest) =
    match Aggregate.reduce pick
            (filter (fun v => isPreReleaseVersion v = false) (first :: second :: rest)) first with
    | Ok v => Ok (Some v)
    | Throw e => Throw e
    end.
Proof. reflexivity. Qed.

Lemma pick_cases max current r :
  pick max current = Ok r →
  valid current ∧ valid max ∧
  (r = current ∧ Semver.gt current max = Ok true ∨ r = max ∧ Semver.gt current max = Ok false).
Proof.
  unfold pick, valid, Semver.gt.
  destruct (Semver.make current) as [vc|]; [|discriminate].
  destruct (Semver.make max) as [vm|]; [|discriminate].
  destruct (Semver.compare vc vm); intros [= <-]; eauto 10.
Qed.

Lemma pick_valid max current : valid current → valid max → ∃ r, pick max current = Ok r.
Proof.
  intros [vc Hc] [vm Hm]. unfold pick, Semver.gt. rewrite Hc, Hm. eauto.
Qed.

Lemma pick_invalid max current e :
  pick max current = Throw e → ¬ valid current ∨ ¬ valid max.
Proof.
  unfold pick, valid, Semver.gt.
  destruct (Semver.make current) as [vc|]; [|left; now intros [? ?]].
  destruct (Semver.make max) as [vm|]; [discriminate|right; now intros [? ?]].
Qed.

(** The fold returns its seed or one of the elements it went through. *)
Lemma reduce_pick_elem xs init r :
  Aggregate.reduce pick xs init = Ok r → r = init ∨ r ∈ xs.
Proof.
  revert init; induction xs as [|x xs IH]; intros init; cbn [Aggregate.reduce].
  - intros [= <-]. now left.
  - destruct (pick init x) as [m|] eqn:E; [|discriminate].
    intros H. apply IH in H as [->|H]; [|right; now right].
    apply pick_cases in E as (_ & _ & [[-> _]|[-> _]]); [right; left | now left].
Qed.

Lemma reduce_pick_throws xs init e :
  Aggregate.reduce pick xs init = Throw e → ¬ valid init ∨ ∃ x, x ∈ xs ∧ ¬ valid x.
Proof.
  revert init; induction xs as [|x xs IH]; intros init; cbn [Aggregate.reduce]; [discriminate|].
  destruct (pick init x) as [m|] eqn:E.
  - intros H. apply IH in H as [H|(y & Hy & Hv)]; [|right; exists y; split; [now right|exact Hv]].
    apply pick_cases in E as (Hx & Hi & [[-> _]|[-> _]]); [contradiction | now left].
  - intros _. apply pick_invalid in E as [H|H]; [right; exists x; split; [left|exact H] | now left].
Qed.

Lemma reduce_pick_invalid xs init x :
  x ∈ xs → ¬ valid x → ∃ e, Aggregate.reduce pick xs init = Throw e.
Proof.
  revert init; induction xs as [|y xs IH]; intros init Hin Hx.
  - now apply elem_of_nil in Hin.
  - cbn [Aggregate.reduce]. destruct (pick init y) as [m|] eqn:E; [|eauto].
    apply elem_of_cons in Hin as [->|Hin]; [|now apply IH].
    apply pick_cases in E as (Hy & _). contradiction.
Qed.

Lemma parse_make version v : Semver.parse version = Some v → Semver.make version = Ok v.
Proof.
  unfold Semver.parse. destruct (_ <? _)%nat; [discriminate|].
  destruct (Semver.match_FULL version); [|discriminate].
  destruct (Semver.make version); [|discriminate]. now intros [= ->].
Qed.

Lemma invalid_not_prerelease version : ¬ valid version → isPreReleaseVersion version = false.
Proof.
  intros H. unfold isPreReleaseVersion, Semver.prerelease.
  destruct (Semver.parse version) as [v|] eqn:E.
  - destruct H. exists v. now apply parse_make.
  - apply bool_decide_eq_false. tauto.
Qed.

(** The result of [getLatestVersion] is taken from the array: it is null
    exactly for the empty array, and otherwise it is an element of the
    array, which is the first element or is no pre-release. *)
Theorem getLatestVersion_returns_an_element (versions : list string) :
  (getLatestVersion versions = Ok None ↔ versions = [])
  ∧ ∀ r, getLatestVersion versions = Ok (Some r) →
         r ∈ versions ∧ (head versions = Some r ∨ isPreReleaseVersion r = false).
Proof.
  destruct versions as [|first [|second rest]].
  - split; [tauto|discriminate].
  - split; [split; discriminate|]. intros r [= <-]. split; [left | now left].
  - rewrite getLatestVersion_reduce.
    destruct (Aggregate.reduce pick _ first) as [r'|] eqn:E.
    + split; [split; discriminate|]. intros r [= <-].
      apply reduce_pick_elem in E as [->|[Hrel Hin]%list_elem_of_filter].
      * split; [left | now left].
      * split; [exact Hin | now right].
    + split; [split; discriminate | discriminate].
Qed.

(** On an array of two or more elements [getLatestVersion] throws exactly
    when some element, pre-release or not, is not a valid version; on a
    shorter array it never throws. *)
Theorem getLatestVersion_throws_iff_invalid (versions : list string) :
  ((length versions ≤ 1)%nat → ∀ e, getLatestVersion versions ≠ Throw e)
  ∧ ((2 ≤ length versions)%nat →
     ((∃ e, getLatestVersion versions = Throw e) ↔ ∃ v, v ∈ versions ∧ ¬ valid v)).
Proof.
  destruct versions as [|first [|second rest]]; cbn [length].
  - split; [discriminate | lia].
  - split; [discriminate | lia].
  - split; [lia|]. intros _. rewrite getLatestVersion_reduce.
    set (releases := filter _ _). split.
    + intros [e He]. destruct (Aggregate.reduce pick releases first) as [|e'] eqn:E;
        [discriminate|].
      apply reduce_pick_throws in E as [H|(x & [_ Hx]%list_elem_of_filter & Hv)].
      * exists first. split; [left | exact H].
      * eauto.
    + intros (v & Hin & Hv).
      destruct (reduce_pick_invalid releases first v) as [e ->]; [|exact Hv|eauto].
      apply list_elem_of_filter. split; [now apply invalid_not_prerelease | exact Hin].
Qed.

Lemma release_ids version v :
  Semver.parse version = Some v → isPreReleaseVersion version = false →
  Semver.prerelease_ids v = [].
Proof.
  intros Hp Hrel. unfold isPreReleaseVersion, Semver.prerelease in Hrel. rewrite Hp in Hrel.
  destruct (Semver.prerelease_ids v); [reflexivity|].
  apply bool_decide_eq_false in Hrel. destruct Hrel. discriminate.
Qed.

Lemma compare_releases a b :
  Semver.prerelease_ids a = [] → Semver.prerelease_ids b = [] →
  (Semver.compare a b = Gt ↔ ¬ main_le a b).
Proof.
  intros Ha Hb. unfold Semver.compare, Semver.compareMain, Semver.comparePre, main_le.
  rewrite Ha, Hb.
  destruct (Z.compare_spec (Semver.major a) (Semver.major b));
    destruct (Z.compare_spec (Semver.minor a) (Semver.minor b));
    destruct (Z.compare_spec (Semver.patch a) (Semver.patch b));
    split; try discriminate; try lia; reflexivity.
Qed.

Lemma gt_releases x y vx vy :
  Semver.make x = Ok vx → Semver.make y = Ok vy →
  Semver.prerelease_ids vx = [] → Semver.prerelease_ids vy = [] →
  ∃ b, Semver.gt x y = Ok b ∧ (b = false ↔ main_le vx vy).
Proof.
  intros Hx Hy Hix Hiy. unfold Semver.gt. rewrite Hx, Hy.
  pose proof (compare_releases vx vy Hix Hiy) as Hc.
  destruct (Semver.compare vx vy); eexists; (split; [reflexivity|]).
  - split; [intros _|reflexivity].
    assert (main_le vx vy ∨ ¬ main_le vx vy) as [|Hn] by (unfold main_le; lia);
      [assumption|].
    apply Hc in Hn. discriminate.
  - split; [intros _|reflexivity].
    assert (main_le vx vy ∨ ¬ main_le vx vy) as [|Hn] by (unfold main_le; lia);
      [assumption|].
    apply Hc in Hn. discriminate.
  - split; [discriminate|]. intros Hle. now apply Hc in Hle.
Qed.

Lemma parsed_release version :
  parses version → isPreReleaseVersion version = false → release version.
Proof.
  intros [v Hv] Hrel. exists v. split; [now apply parse_make | now apply (release_ids version)].
Qed.

(** Over releases the fold ends on a release that none of the elements, nor
    the seed, exceeds. *)
Lemma reduce_pick_max xs init vi :
  Semver.make init = Ok vi → Semver.prerelease_ids vi = [] → Forall release xs →
  ∃ r vr, Aggregate.reduce pick xs init = Ok r ∧
          Semver.make r = Ok vr ∧ Semver.prerelease_ids vr = [] ∧
          main_le vi vr ∧
          ∀ x vx, x ∈ xs → Semver.make x = Ok vx → main_le vx vr.
Proof.
  intros Hi Hids Hall. revert init vi Hi Hids.
  induction Hall as [|x xs (vx & Hx & Hidx) _ IH]; intros init vi Hi Hids.
  - exists init, vi. cbn [Aggregate.reduce]. repeat split; try assumption.
    + unfold main_le. lia.
    + intros x vx Hin. now apply elem_of_nil in Hin.
  - cbn [Aggregate.reduce]. unfold pick at 1.
    destruct (gt_releases x init vx vi Hx Hi Hidx Hids) as (b & -> & Hb).
    destruct b.
    + assert (Hlt : ¬ main_le vx vi) by (intros H; apply Hb in H; discriminate).
      destruct (IH x vx Hx Hidx) as (r & vr & -> & Hr & Hidr & Hle & Hmax).
      exists r, vr. repeat split; try assumption.
      * unfold main_le in *. lia.
      * intros y vy [->|Hin]%elem_of_cons Hy; [|now apply (Hmax y)].
        assert (vy = vx) as -> by congruence. exact Hle.
    + assert (Hle : main_le vx vi) by now apply Hb.
      destruct (IH init vi Hi Hids) as (r & vr & -> & Hr & Hidr & Hle' & Hmax).
      exists r, vr. repeat split; try assumption.
      intros y vy [->|Hin]%elem_of_cons Hy; [|now apply (Hmax y)].
      assert (vy = vx) as -> by congruence. unfold main_le in *. lia.
Qed.

(** When every element parses and the first element is a release,
    [getLatestVersion] returns a release of the array that no release of the
    array is greater than. *)
Theorem getLatestVersion_is_greatest_release
    (first : string) (rest : list string) :
  Forall parses (first :: rest) →
  isPreReleaseVersion first = false →
  ∃ r, getLatestVersion (first :: rest) = Ok (Some r) ∧
       r ∈ first :: rest ∧
       isPreReleaseVersion r = false ∧
       ∀ v, v ∈ first :: rest → isPreReleaseVersion v = false → Semver.gt v r = Ok false.
Proof.
  intros Hall Hfirst.
  assert (Hrel : ∀ v, v ∈ first :: rest → isPreReleaseVersion v = false → release v).
  { intros v Hin Hv. apply parsed_release; [|exact Hv].
    rewrite Forall_forall in Hall. now apply Hall. }
  destruct (Hrel first ltac:(left) Hfirst) as (vi & Hi & Hids).
  assert (Hself : ∀ v vv, Semver.make v = Ok vv → Semver.prerelease_ids vv = [] →
                          Semver.gt v v = Ok false).
  { intros v vv Hv Hidv. destruct (gt_releases v v vv vv Hv Hv Hidv Hidv) as (b & -> & Hb).
    f_equal. apply Hb. unfold main_le. lia. }
  destruct rest as [|second rest].
  - exists first. split; [reflexivity|]. split; [left|]. split; [exact Hfirst|].
    intros v ->%list_elem_of_singleton _. now apply (Hself first vi).
  - rewrite getLatestVersion_reduce. set (releases := filter _ _).
    assert (Hreleases : Forall release releases).
    { apply Forall_forall. intros v [Hv Hin]%list_elem_of_filter. now apply Hrel. }
    destruct (reduce_pick_max releases first vi Hi Hids Hreleases)
      as (r & vr & E & Hr & Hidr & _ & Hmax).
    exists r. rewrite E. split; [reflexivity|].
    assert (Hin : r ∈ releases).
    { apply reduce_pick_elem in E as [->|H]; [|exact H].
      apply list_elem_of_filter. split; [exact Hfirst | left]. }
    apply list_elem_of_filter in Hin as [Hrr Hin].
    split; [exact Hin|]. split; [exact Hrr|].
    intros v Hv Hvrel. destruct (Hrel v Hv Hvrel) as (vv & Hmv & Hidv).
    destruct (gt_releases v r vv vr Hmv Hr Hidv Hidr) as (b & -> & Hb).
    f_equal. apply Hb. apply (Hmax v); [|exact Hmv].
    apply list_elem_of_filter. now split.
Qed.

Lemma getLatestVersion_is_greatest_release_witness :
  ∃ r, getLatestVersion ["1.0.0"; "2.0.0-beta"; "1.2.0"; "1.1.0"] = Ok (Some r) ∧
       Semver.gt "1.2.0" r = Ok false ∧ Semver.gt "1.1.0" r = Ok false.
Proof.
  destruct (getLatestVersion_is_greatest_release "1.0.0" ["2.0.0-beta"; "1.2.0"; "1.1.0"])
    as (r & Hr & _ & _ & Hmax).
  - repeat constructor; vm_compute; eauto.
  - vm_compute. reflexivity.
  - exists r. split; [exact Hr|]. split; apply Hmax; try (vm_compute; reflexivity).
    + apply list_elem_of_further, list_elem_of_further, list_elem_of_here.
    + do 3 apply list_elem_of_further. apply list_elem_of_here.
Defined.

Lemma getLatestVersion_returns_an_element_witness :
  "1.2.0" ∈ ["1.0.0"; "2.0.0-beta"; "1.2.0"] ∧ isPreReleaseVersion "1.2.0" = false.
Proof.
  destruct (proj2 (getLatestVersion_returns_an_element ["1.0.0"; "2.0.0-beta"; "1.2.0"])
              "1.2.0") as [Hin [H|H]].
  - vm_compute. reflexivity.
  - discriminate H.
  - split; assumption.
Defined.

Lemma getLatestVersion_throws_iff_invalid_witness :
  ∃ e, getLatestVersion ["1.0.0"; "latest"] = Throw e.
Proof.
  apply (proj2 (getLatestVersion_throws_iff_invalid ["1.0.0"; "latest"]) (le_n 2)).
  exists "latest". split; [apply list_elem_of_further, list_elem_of_here|].
  intros [v Hv]. vm_compute in Hv. discriminate Hv.
Defined.

End VersionsMoreFacts.

(** ** Printing a number and reading it back *)
Module NumberFacts.
Import JS JSFacts TextSpec TextFacts Number NumberSpec.

Lemma decimal_char c :
  is_decimal c = true →
  is_ws c = false ∧ Ascii.eqb c "." = false ∧
  ∃ d, digit_of c = Some d ∧ (0 ≤ d < 10)%Z.
Proof.
  destruct c as [[] [] [] [] [] [] [] []]; try discriminate; intros _;
    (split; [reflexivity|]; split; [reflexivity|]; eexists; split;
       [vm_compute; reflexivity|]; lia).
Qed.

Lemma pretty_char_digit d :
  (d < 10)%N →
  is_decimal (pretty_N_char d) = true ∧ digit_of (pretty_N_char d) = Some (Z.of_N d).
Proof.
  intros H.
  assert (d = 0 ∨ d = 1 ∨ d = 2 ∨ d = 3 ∨ d = 4 ∨ d = 5 ∨ d = 6 ∨ d = 7 ∨ d = 8 ∨ d = 9)%N
    as Hd by lia.
  repeat destruct Hd as [->|Hd]; try subst d; split; reflexivity.
Qed.

Lemma pretty_go_decimal x s : all_decimal s = true → all_decimal (pretty_N_go x s) = true.
Proof.
  revert s. induction (N.lt_wf_0 x) as [x _ IH]; intros s Hs.
  assert (x = 0 ∨ 0 < x)%N as [->|Hx] by lia; [exact Hs|].
  rewrite pretty_N_go_step by exact Hx. apply IH; [now apply N.div_lt|].
  cbn [all_decimal]. rewrite Hs.
  now destruct (pretty_char_digit (x `mod` 10)) as [-> _]; [apply N.mod_lt|].
Qed.

Lemma pretty_go_nonempty x s : s ≠ EmptyString → pretty_N_go x s ≠ EmptyString.
Proof.
  revert s. induction (N.lt_wf_0 x) as [x _ IH]; intros s Hs.
  assert (x = 0 ∨ 0 < x)%N as [->|Hx] by lia; [exact Hs|].
  rewrite pretty_N_go_step by exact Hx. apply IH; [now apply N.div_lt | discriminate].
Qed.

(** Reading the digits that [pretty_N_go] puts in front of a text. *)
Lemma pretty_go_digits x s :
  ∃ k : nat, ∀ acc,
    digits_from 10 acc (pretty_N_go x s) =
    digits_from 10 (acc * 10 ^ Z.of_nat k + Z.of_N x) s.
Proof.
  revert s. induction (N.lt_wf_0 x) as [x _ IH]; intros s.
  assert (x = 0 ∨ 0 < x)%N as [->|Hx] by lia.
  - exists 0%nat. intros acc. rewrite pretty_N_go_0. f_equal. cbn. lia.
  - destruct (IH (x `div` 10)%N ltac:(now apply N.div_lt)
                (String (pretty_N_char (x `mod` 10)) s)) as [k Hk].
    exists (S k). intros acc. rewrite pretty_N_go_step, Hk by exact Hx.
    cbn [digits_from].
    destruct (pretty_char_digit (x `mod` 10)) as [_ ->]; [now apply N.mod_lt|].
    assert ((Z.of_N (x `mod` 10) <? 10)%Z = true) as ->.
    { apply Z.ltb_lt. pose proof (N.mod_lt x 10). lia. }
    f_equal. rewrite Nat2Z.inj_succ, Z.pow_succ_r by lia.
    pose proof (N.div_mod x 10 ltac:(lia)) as Hdm.
    apply (f_equal Z.of_N) in Hdm. rewrite N2Z.inj_add, N2Z.inj_mul in Hdm.
    change (Z.of_N 10) with 10%Z in Hdm. lia.
Qed.

(** The decimal text of a natural number: digits only, not empty, and read
    back as the number. *)
Lemma pretty_N_decimal (n : N) :
  all_decimal (pretty n) = true ∧ pretty n ≠ EmptyString ∧
  digits 10 (pretty n) = Some (Z.of_N n).
Proof.
  unfold pretty, pretty_N. case_decide as Hn; [subst; repeat split; discriminate|].
  assert (Hne : pretty_N_go n EmptyString ≠ EmptyString).
  { rewrite pretty_N_go_step by lia. apply pretty_go_nonempty. discriminate. }
  split; [now apply pretty_go_decimal|]. split; [exact Hne|].
  unfold digits. destruct (pretty_N_go n EmptyString) eqn:E; [congruence|]. rewrite <- E.
  destruct (pretty_go_digits n EmptyString) as [k Hk]. rewrite Hk.
  reflexivity.
Qed.

Lemma all_decimal_lacks_dot s : all_decimal s = true → lacks "." s = true.
Proof.
  induction s as [|c s IH]; [reflexivity|].
  cbn [all_decimal lacks]. intros [Hc Hs]%andb_prop.
  destruct (decimal_char c Hc) as (_ & -> & _). now rewrite IH.
Qed.

Lemma trimEnd_decimal s : all_decimal s = true → trimEnd s = s.
Proof.
  induction s as [|c s IH]; [reflexivity|].
  cbn [all_decimal trimEnd]. intros [Hc Hs]%andb_prop. rewrite IH by exact Hs.
  destruct (decimal_char c Hc) as (-> & _). now destruct s.
Qed.

Lemma trim_decimal s : all_decimal s = true → trim s = s.
Proof.
  intros Hs. unfold trim. destruct s as [|c s]; [reflexivity|].
  pose proof Hs as [Hc _]%andb_prop. destruct (decimal_char c Hc) as (Hws & _).
  cbn [trimStart]. rewrite Hws. now apply trimEnd_decimal.
Qed.

(** A text of digits is read as a decimal literal. *)
Lemma numeric_literal_decimal s :
  all_decimal s = true → numeric_literal s = unsigned_decimal s.
Proof.
  destruct s as [|c1 s]; [reflexivity|]. cbn [all_decimal]. intros [H1 Hs]%andb_prop.
  destruct c1 as [[] [] [] [] [] [] [] []]; try discriminate; try reflexivity.
  destruct s as [|c2 s]; [reflexivity|]. cbn [all_decimal] in Hs.
  apply andb_prop in Hs as [H2 _].
  destruct c2 as [[] [] [] [] [] [] [] []]; try discriminate; reflexivity.
Qed.

Lemma ofString_decimal s z :
  all_decimal s = true → digits 10 s = Some z → ofString s = of_Z z.
Proof.
  intros Hs Hz. unfold ofString. rewrite trim_decimal by exact Hs.
  destruct s as [|c r]; [discriminate|].
  rewrite numeric_literal_decimal by exact Hs. unfold unsigned_decimal.
  destruct (String.eqb_spec (String c r) "Infinity") as [Heq|_];
    [rewrite Heq in Hz; discriminate|].
  now rewrite Hz.
Qed.

(** Printing a safe integer that is not negative and reading the text back
    gives the integer. *)
Lemma ofString_pretty z : (0 ≤ z ≤ 2 ^ 53)%Z → ofString (pretty z) = Int z.
Proof.
  intros Hz.
  assert (pretty z = pretty (Z.to_N z)) as ->.
  { destruct z as [|p|p]; [reflexivity | reflexivity | lia]. }
  destruct (pretty_N_decimal (Z.to_N z)) as (Hd & _ & Hdigits).
  rewrite (ofString_decimal _ _ Hd Hdigits), Z2N.id by lia.
  unfold of_Z, safe. rewrite Z.abs_eq by lia.
  destruct (Z.leb_spec z (2 ^ 53)); [reflexivity | lia].
Qed.

Lemma pretty_lacks_dot z : (0 ≤ z)%Z → lacks "." (pretty z) = true.
Proof.
  intros Hz.
  assert (pretty z = pretty (Z.to_N z)) as ->.
  { destruct z as [|p|p]; [reflexivity | reflexivity | lia]. }
  apply all_decimal_lacks_dot. now destruct (pretty_N_decimal (Z.to_N z)).
Qed.

(** Rounding leaves the safe integers as they are, so the short cuts that
    [of_Z] and [add] take on them agree with the rounding of the exact
    value. *)
Lemma round_ratio_safe z : (Z.abs z ≤ 2 ^ 53)%Z → round_ratio z 1 = Int z.
Proof.
  intros Hz. unfold round_ratio.
  destruct (Z.eqb_spec z 0) as [->|Hnz]; [reflexivity|].
  set (a := Z.abs z). assert (Ha : (0 < a)%Z) by (subst a; lia).
  change (Z.log2 1) with 0%Z. rewrite Z.sub_0_r.
  pose proof (Z.log2_nonneg a) as Hl0.
  pose proof (Z.log2_spec a Ha) as [Hlo Hhi].
  assert (Hl53 : (Z.log2 a ≤ 53)%Z).
  { rewrite <- (Z.log2_pow2 53) by lia. apply Z.log2_le_mono. subst a; lia. }
  destruct (Z.leb_spec 0 (Z.log2 a)) as [_|?]; [|lia].
  rewrite Z.mul_1_l.
  destruct (Z.ltb_spec a (2 ^ Z.log2 a)) as [?|_]; [lia|].
  assert (Hsa : ((if z <? 0 then -1 else 1) * a = z)%Z).
  { subst a. destruct (Z.ltb_spec z 0); lia. }
  rewrite Z.max_l by lia.
  set (u := (Z.log2 a - 52)%Z) in *.
  destruct (Z.ltb_spec u 0) as [Hu|Hu].
  - rewrite Z.div_1_r, Z.mod_1_r. change (2 * 0 <? 1)%Z with true. cbv iota.
    destruct (Z.leb_spec 0 u) as [?|_]; [lia|].
    assert (Hp : (0 < 2 ^ (- u))%Z) by (apply Z.pow_pos_nonneg; lia).
    assert (Hg : Z.gcd (a * 2 ^ (- u)) (2 ^ (- u)) = (2 ^ (- u))%Z).
    { rewrite Z.gcd_comm. apply Z.divide_gcd_iff; [lia|]. apply Z.divide_factor_r. }
    rewrite Hg, Z.eqb_refl, Z.div_mul by lia. now rewrite Hsa.
  - destruct (Z.leb_spec 0 u) as [_|?]; [|lia].
    rewrite Z.mul_1_l.
    assert (Hu01 : u = 0%Z ∨ u = 1%Z) by lia.
    destruct Hu01 as [Hu0|Hu1].
    + rewrite Hu0. change (2 ^ 0)%Z with 1%Z. rewrite Z.div_1_r, Z.mod_1_r, Z.mul_1_r.
      change (2 * 0 <? 1)%Z with true. cbv iota.
      destruct (Z.leb_spec (2 ^ 1024) a) as [Hbig|_].
      { exfalso. assert (2 ^ 53 < 2 ^ 1024)%Z by (apply Z.pow_lt_mono_r; lia). subst a; lia. }
      now rewrite Hsa.
    + assert (Ha53 : a = (2 ^ 53)%Z).
      { assert (Z.log2 a = 53%Z) as Hl by lia. rewrite Hl in Hlo. subst a; lia. }
      rewrite Hu1, Ha53. change (2 ^ 1)%Z with 2%Z.
      change (2 ^ 53 / 2)%Z with (2 ^ 52)%Z. change ((2 ^ 53) mod 2)%Z with 0%Z.
      change (2 * 0 <? 2)%Z with true. cbv iota.
      change (2 ^ 52 * 2)%Z with (2 ^ 53)%Z.
      destruct (Z.leb_spec (2 ^ 1024) (2 ^ 53)) as [Hbig|_].
      { exfalso. assert (2 ^ 53 < 2 ^ 1024)%Z by (apply Z.pow_lt_mono_r; lia). lia. }
      rewrite <- Ha53. now rewrite Hsa.
Qed.

Lemma of_Z_rounds z : of_Z z = round_ratio z 1.
Proof.
  unfold of_Z, safe. destruct (Z.leb_spec (Z.abs z) (2 ^ 53)); [|reflexivity].
  symmetry. now apply round_ratio_safe.
Qed.

Lemma add_rounds x y : add (Int x) (Int y) = round_ratio (x * 1 + y * 1) (1 * 1).
Proof. cbn [add]. rewrite of_Z_rounds. f_equal; lia. Qed.

(** The general printing, on safe integers, gives the decimal digits that
    [toString] takes directly. *)
Example print_ratio_safe_integers :
  forallb (fun z => String.eqb (print_ratio z 1) (pretty z))
    [1; 9; 10; 99; 100; 1200; 123456789; 1000000000000000; 9007199254740991;
     9007199254740992; -5; -1200; -9007199254740992]%Z = true.
Proof. vm_compute. reflexivity. Qed.

(** Reading and printing beyond the safe integers. *)
Example toString_ofString :
  (fun s => toString (ofString s)) <$>
    ["9007199254740993"; "1e21"; "123456789012345680000"; "1e-7"; "0x1F"; " 12 ";
     "5e-324"; "1.7976931348623159e308"; "-1e-400"; "1e"; "0.1"]
  = ["9007199254740992"; "1e+21"; "123456789012345680000"; "1e-7"; "31"; "12";
     "5e-324"; "Infinity"; "0"; "NaN"; "0.1"].
Proof. vm_compute. reflexivity. Qed.

Example add_doubles :
  toString (add (ofString "0.1") (ofString "0.2")) = "0.30000000000000004"
  ∧ toString (add (ofString "9007199254740992") (ofString "1")) = "9007199254740992"
  ∧ toString (add (ofString "1e308") (ofString "1e308")) = "Infinity".
Proof. repeat split; vm_compute; reflexivity. Qed.

End NumberFacts.

(** ** Version aggregation, further *)
Module AggregateMoreFacts.
Import Number Aggregate AggregateSpec AggregateFacts AggregateMoreSpec.

(** The error names the first version that fails the check: the versions
    before it are read, the ones after it are not. *)
Theorem aggregateVersions_reports_first_invalid
    (before after : list string) (version errorRoot : string) (base : option string) :
  Forall (fun v => valid_version v = true) before →
  valid_version version = false →
  _aggregateVersions (before ++ version :: after) errorRoot base =
    Throw (Error (errorRoot +:+ ": " +:+ version)).
Proof.
  intros Hbefore Hversion. unfold _aggregateVersions.
  generalize (ofString <$> JS.split "." (default "0.0.0" base)). intros init.
  revert init; induction Hbefore as [|v before Hv _ IH]; intros init; cbn [app reduce].
  - now rewrite accumulate_invalid.
  - destruct (accumulate_cases errorRoot init v) as [[_ H]|[[r ->] _]]; [congruence|].
    apply IH.
Qed.

Lemma aggregateVersions_reports_first_invalid_witness :
  _aggregateVersions ["1.2.3"; "1.x.0"; "y.0.0"] "tools" None = Throw (Error "tools: 1.x.0").
Proof.
  apply (aggregateVersions_reports_first_invalid ["1.2.3"] ["y.0.0"] "1.x.0" "tools" None).
  - repeat constructor.
  - reflexivity.
Defined.

Lemma plain_triples versions :
  Forall plain versions →
  Forall2 (fun v t => triple v = Some t) versions (omap triple versions) ∧
  Forall nonneg3 (omap triple versions).
Proof.
  induction 1 as [|v versions (t & Ht & Hn) _ [IH1 IH2]]; [split; constructor|].
  cbn [omap list_omap]. rewrite Ht. split; now constructor.
Qed.

Lemma aggregateVersions_total versions errorRoot base b :
  Forall plain versions →
  triple (default "0.0.0" base) = Some b → nonneg3 b → safe3 (total b versions) →
  _aggregateVersions versions errorRoot base = Ok (dotted (total b versions)).
Proof.
  intros [H2 Hn]%plain_triples Hb Hbn Hsafe.
  now apply aggregateVersions_plain_integers.
Qed.

Lemma add3_swap b x y : add3 (add3 b x) y = add3 (add3 b y) x.
Proof.
  destruct b as [[??]?], x as [[??]?], y as [[??]?]. unfold add3. cbn. f_equal; [f_equal|]; lia.
Qed.

Lemma foldl_add3_Permutation b ts ts' : ts ≡ₚ ts' → foldl add3 b ts = foldl add3 b ts'.
Proof.
  intros H. revert b; induction H as [|x ts ts' _ IH|x y ts|ts1 ts2 ts3 _ IH1 _ IH2]; intros b.
  - reflexivity.
  - apply IH.
  - cbn [foldl]. now rewrite add3_swap.
  - now rewrite IH1.
Qed.

(** The order of plain versions does not matter: while the sums stay within
    the safe integers, any rearrangement of the versions aggregates to the
    same string. *)
Theorem aggregateVersions_ignores_order
    (versions versions' : list string) (errorRoot : string) (base : option string)
    (b : Z * Z * Z) :
  versions ≡ₚ versions' →
  Forall plain versions →
  triple (default "0.0.0" base) = Some b → nonneg3 b → safe3 (total b versions) →
  _aggregateVersions versions' errorRoot base = _aggregateVersions versions errorRoot base.
Proof.
  intros Hperm Hplain Hb Hbn Hsafe.
  assert (Htotal : total b versions' = total b versions).
  { unfold total. apply foldl_add3_Permutation. now rewrite Hperm. }
  rewrite (aggregateVersions_total versions errorRoot base b) by assumption.
  rewrite (aggregateVersions_total versions' errorRoot base b);
    [now rewrite Htotal | now rewrite <- Hperm | assumption | assumption | now rewrite Htotal].
Qed.

Lemma aggregateVersions_ignores_order_witness :
  _aggregateVersions ["0.0.1"; "10.20.30"; "1.2.3"] "tools" None =
  _aggregateVersions ["1.2.3"; "0.0.1"; "10.20.30"] "tools" None.
Proof.
  apply (aggregateVersions_ignores_order ["1.2.3"; "0.0.1"; "10.20.30"]
           ["0.0.1"; "10.20.30"; "1.2.3"] "tools" None (0, 0, 0)%Z).
  - apply (Permutation_app_comm ["1.2.3"] ["0.0.1"; "10.20.30"]).
  - repeat constructor; eexists; (split; [reflexivity | vm_compute; intuition discriminate]).
  - reflexivity.
  - vm_compute. intuition discriminate.
  - vm_compute. intuition discriminate.
Defined.

(** The string that an aggregation returns is itself a plain version, with
    the components it was printed from. *)
Lemma triple_dotted t : nonneg3 t → safe3 t → triple (dotted t) = Some t.
Proof.
  intros (H1 & H2 & H3) (S1 & S2 & S3). unfold triple, components.
  change (dotted t) with (JS.join "." [pretty t.1.1; pretty t.1.2; pretty t.2]).
  rewrite (TextFacts.split_join "." EmptyString)
    by (repeat constructor; now apply NumberFacts.pretty_lacks_dot).
  cbn [fmap list_fmap]. rewrite !NumberFacts.ofString_pretty by lia.
  now destruct t as [[??]?].
Qed.

Lemma total_app b vs1 vs2 : total b (vs1 ++ vs2) = total (total b vs1) vs2.
Proof. unfold total. now rewrite omap_app, foldl_app. Qed.

Lemma total_nonneg b versions : Forall plain versions → nonneg3 b → nonneg3 (total b versions).
Proof.
  intros [_ Hn]%plain_triples Hb. unfold total.
  pose proof (add3_grows b _ Hn) as Hg. cbv zeta in Hg.
  unfold nonneg3 in *. lia.
Qed.

(** Aggregation can be done in steps: the result for a first batch of plain
    versions, used as the base for a second batch, gives what the two
    batches give together. *)
Theorem aggregateVersions_in_steps
    (vs1 vs2 : list string) (errorRoot : string) (base : option string) (b : Z * Z * Z) :
  Forall plain (vs1 ++ vs2) →
  triple (default "0.0.0" base) = Some b → nonneg3 b → safe3 (total b (vs1 ++ vs2)) →
  ∃ r, _aggregateVersions vs1 errorRoot base = Ok r ∧
       _aggregateVersions vs2 errorRoot (Some r) =
         _aggregateVersions (vs1 ++ vs2) errorRoot base.
Proof.
  intros [Hp1 Hp2]%Forall_app Hb Hbn Hsafe.
  rewrite total_app in Hsafe.
  assert (Hn1 : nonneg3 (total b vs1)) by now apply total_nonneg.
  assert (Hs1 : safe3 (total b vs1)).
  { destruct (plain_triples vs2 Hp2) as [_ Hn2].
    pose proof (add3_grows (total b vs1) _ Hn2) as Hg. cbv zeta in Hg.
    fold (total (total b vs1) vs2) in Hg. unfold safe3 in *. lia. }
  exists (dotted (total b vs1)). split; [now apply aggregateVersions_total|].
  rewrite (aggregateVersions_total vs2 errorRoot (Some (dotted (total b vs1))) (total b vs1));
    [|assumption | now apply triple_dotted | assumption | assumption].
  rewrite (aggregateVersions_total (vs1 ++ vs2) errorRoot base b);
    [now rewrite total_app | now apply Forall_app | assumption | assumption
    | now rewrite total_app].
Qed.

Lemma aggregateVersions_in_steps_witness :
  _aggregateVersions ["1.2.3"; "0.0.1"] "tools" (Some "1.0.0") = Ok "2.2.4" ∧
  _aggregateVersions ["10.20.30"] "tools" (Some "2.2.4") =
    _aggregateVersions ["1.2.3"; "0.0.1"; "10.20.30"] "tools" (Some "1.0.0").
Proof.
  destruct (aggregateVersions_in_steps ["1.2.3"; "0.0.1"] ["10.20.30"] "tools"
              (Some "1.0.0") (1, 0, 0)%Z) as (r & Hr & Hsteps).
  - repeat constructor; eexists; (split; [reflexivity | vm_compute; intuition discriminate]).
  - reflexivity.
  - vm_compute. intuition discriminate.
  - vm_compute. intuition discriminate.
  - assert (r = "2.2.4") as -> by (vm_compute in Hr; congruence). now split.
Defined.

End AggregateMoreFacts.

(** ** Attachments and links, further *)
Module BaseMoreFacts.
Import Attachments AttachmentsSpec AttachmentsMoreSpec.

Section Files.
Variable sha256_hex : string → string.
Variable join : string → string → string.

Lemma attach_each_until readFileSync location stash public files :
  ∃ read rest contents,
    files = read ++ rest ∧
    Forall2 (fun f c => readFileSync (join location f) = Ok c) read contents ∧
    (attach_each sha256_hex join readFileSync location stash public files).1 =
      {| _attachments := Some (stash ++ zip_with (stash_of sha256_hex) read contents);
         attachments := Some (public ++ zip_with (entry_of sha256_hex) read contents) |} ∧
    match (attach_each sha256_hex join readFileSync location stash public files).2 with
    | Ok _ => rest = []
    | Throw e => ∃ f rest', rest = f :: rest' ∧ readFileSync (join location f) = Throw e
    end.
Proof.
  revert stash public; induction files as [|file files IH]; intros stash public.
  - exists [], [], []. cbn. rewrite !app_nil_r. repeat split; constructor.
  - cbn [attach_each]. destruct (readFileSync (join location file)) as [content|e] eqn:E.
    + destruct (IH (stash ++ [stash_of sha256_hex file content])
                   (public ++ [entry_of sha256_hex file content]))
        as (read & rest & contents & -> & Hread & Hdoc & Hout).
      exists (file :: read), rest, (content :: contents).
      split; [reflexivity|]. split; [now constructor|]. split; [|exact Hout].
      unfold stash_of, entry_of in *. rewrite Hdoc, <- !app_assoc. reflexivity.
    + exists [], (file :: files), []. cbn. rewrite !app_nil_r.
      repeat split; [constructor|]. eauto.
Qed.

(** [attachFiles] only appends, and it is not atomic.  With no files it
    returns at once and sets up nothing.  Otherwise it goes through the files
    in order up to the first one it cannot read: for each file read, one
    record goes to the end of the stash and one to the end of the public
    list, both under the relative path as given and with the token of the
    content read at the joined path; at a file it cannot read it throws the
    error of that read, and the records made so far stay. *)
Theorem attachFiles_appends_until_unreadable
    (readFileSync : string → res string) (doc : document)
    (files : option (list string)) (location : string) :
  match files with
  | None | Some [] => attachFiles sha256_hex join readFileSync doc files location = (doc, Ok tt)
  | Some list =>
      ∃ read rest contents,
        list = read ++ rest ∧
        Forall2 (fun f c => readFileSync (join location f) = Ok c) read contents ∧
        (attachFiles sha256_hex join readFileSync doc files location).1 =
          {| _attachments :=
               Some (default [] (_attachments doc)
                       ++ zip_with (stash_of sha256_hex) read contents);
             attachments :=
               Some (default [] (attachments doc)
                       ++ zip_with (entry_of sha256_hex) read contents) |} ∧
        match (attachFiles sha256_hex join readFileSync doc files location).2 with
        | Ok _ => rest = []
        | Throw e => ∃ f rest', rest = f :: rest' ∧ readFileSync (join location f) = Throw e
        end
  end.
Proof.
  destruct files as [[|file files]|]; try reflexivity.
  apply attach_each_until.
Qed.

(** [attachInterestinglyNamedFiles] only appends, and only files that the
    glob found: the stash and the public list of the document grow by the
    records of some first names of the glob's result in the folder of the
    location, each under its path joined to the folder and with the content
    read below the location.  Without location, with a glob that fails or
    finds nothing, both lists stay as they are. *)
Theorem named_files_are_appended_under_folder
    (glob : string → string → res (list string)) (readFileSync : string → res string)
    (doc : document) (location : option string) (folder : string) :
  let doc' := (NamedFiles.attachInterestinglyNamedFiles sha256_hex join glob readFileSync
                 doc location folder).1 in
  ∃ names contents,
    default [] (_attachments doc') =
      default [] (_attachments doc)
        ++ zip_with (stash_of sha256_hex) (join folder <$> names) contents ∧
    default [] (attachments doc') =
      default [] (attachments doc)
        ++ zip_with (entry_of sha256_hex) (join folder <$> names) contents ∧
    length names = length contents ∧
    (names ≠ [] →
     ∃ dir files rest,
       location = Some dir ∧
       glob (NamedFiles.buildGlob NamedFiles.patterns) (join dir folder) = Ok files ∧
       files = names ++ rest ∧
       Forall2 (fun name content => readFileSync (join dir (join folder name)) = Ok content)
               names contents).
Proof.
  cbv zeta. unfold NamedFiles.attachInterestinglyNamedFiles.
  assert (Hsame : ∀ o : res unit,
    ∃ names contents,
      default [] (_attachments (doc, o).1) =
        default [] (_attachments doc)
          ++ zip_with (stash_of sha256_hex) (join folder <$> names) contents ∧
      default [] (attachments (doc, o).1) =
        default [] (attachments doc)
          ++ zip_with (entry_of sha256_hex) (join folder <$> names) contents ∧
      length names = length contents ∧
      (names ≠ [] →
       ∃ dir files rest,
         location = Some dir ∧
         glob (NamedFiles.buildGlob NamedFiles.patterns) (join dir folder) = Ok files ∧
         files = names ++ rest ∧
         Forall2 (fun name content => readFileSync (join dir (join folder name)) = Ok content)
                 names contents)).
  { intros o. exists [], []. cbn. rewrite !app_nil_r. repeat split. congruence. }
  destruct location as [dir|]; [|apply Hsame].
  destruct (glob _ (join dir folder)) as [[|file files]|e] eqn:Hglob; try apply Hsame.
  clear Hsame.
  destruct (attach_each_until readFileSync dir (default [] (_attachments doc))
              (default [] (attachments doc)) (join folder <$> file :: files))
    as (read & rest & contents & Hsplit & Hread & Hdoc & _).
  unfold attachFiles.
  destruct (join folder <$> file :: files) as [|p ps] eqn:Hpaths; [discriminate|].
  rewrite Hdoc. cbn [_attachments attachments default from_option id].
  assert (Hnames : read = join folder <$> take (length read) (file :: files)).
  { rewrite fmap_take, Hpaths, Hsplit. now rewrite take_app_length. }
  exists (take (length read) (file :: files)), contents.
  rewrite <- Hnames. split; [reflexivity|]. split; [reflexivity|]. split.
  - rewrite <- (Forall2_length _ _ _ Hread). rewrite Hnames at 2. now rewrite length_fmap.
  - intros _. exists dir, (file :: files), (drop (length read) (file :: files)).
    split; [reflexivity|]. split; [exact Hglob|]. split; [now rewrite take_drop|].
    rewrite Hnames in Hread. now apply Forall2_fmap_l in Hread.
Qed.

End Files.

Section Links.
Variable toUrn : EntitySpec.t → string.
Variable toUrl : EntitySpec.t → string.
Variable fromUrl : string → EntitySpec.t.

Lemma setTool_setTool a b spec :
  ToolLinks.setTool a (ToolLinks.setTool b spec) = ToolLinks.setTool a spec.
Proof. reflexivity. Qed.

(** [linkAndQueueTool] links the spec with the tool set and queues the url of
    the spec as it was before.  On a request with a cased spec the tool stays
    set on that spec: the request then answers [toSpec] with the tool, and a
    second call queues the url of the spec with the first tool.  A request
    without cased spec is left as it was. *)
Theorem linkAndQueueTool_leaves_tool_on_cased_spec
    (r : Links.request) (name : string) (tool : option string) :
  let chosen := default name tool in
  let r' := (ToolLinks.linkAndQueueTool toUrn toUrl fromUrl r name tool).1 in
  (ToolLinks.linkAndQueueTool toUrn toUrl fromUrl r name tool).2 =
    ([LinkCollection name (toUrn (ToolLinks.setTool chosen (Links.toSpec fromUrl r)));
      Queue chosen (toUrl (Links.toSpec fromUrl r))], Ok tt)
  ∧ (Links.casedSpec r = None → r' = r)
  ∧ (∀ spec, Links.casedSpec r = Some spec →
       Links.toSpec fromUrl r' = ToolLinks.setTool chosen spec ∧
       ∀ name2 tool2,
         (ToolLinks.linkAndQueueTool toUrn toUrl fromUrl r' name2 (Some tool2)).2 =
           ([LinkCollection name2 (toUrn (ToolLinks.setTool tool2 spec));
             Queue tool2 (toUrl (ToolLinks.setTool chosen spec))], Ok tt)).
Proof.
  cbv zeta. unfold ToolLinks.linkAndQueueTool. cbn [fst snd].
  split; [reflexivity|]. split.
  - now intros ->.
  - intros spec Hspec. rewrite Hspec. unfold Links.toSpec. cbn [Links.casedSpec default].
    rewrite Hspec. cbn [default]. split; reflexivity.
Qed.

End Links.

Lemma linkAndQueueTool_leaves_tool_on_cased_spec_witness :
  let r := {| Links.casedSpec := Some LinksSpec.redie; Links.url := "cd:/npm/npmjs/-/redie/0.3.0" |} in
  let r' := (ToolLinks.linkAndQueueTool LinksSpec.show_urn LinksSpec.show_urn
               (fun _ => LinksSpec.redie) r "scancode" None).1 in
  (ToolLinks.linkAndQueueTool LinksSpec.show_urn LinksSpec.show_urn
     (fun _ => LinksSpec.redie) r' "licensee" None).2 =
    ([LinkCollection "licensee" "npm:npmjs:-:redie:0.3.0:licensee:-";
      Queue "licensee" "npm:npmjs:-:redie:0.3.0:scancode:-"], Ok tt).
Proof.
  intros r r'.
  destruct (linkAndQueueTool_leaves_tool_on_cased_spec LinksSpec.show_urn LinksSpec.show_urn
              (fun _ => LinksSpec.redie) r "scancode" None) as (_ & _ & H).
  destruct (H LinksSpec.redie eq_refl) as [_ H2].
  exact (H2 "licensee" "licensee").
Defined.

End BaseMoreFacts.

(** ** Manifest resolution, further *)
Module MavenMoreFacts.
Import MavenExtract MavenSpec MavenFacts MavenMoreSpec.

(** The index keys of arrays and strings are decimal texts, so no other
    name is among them. *)
Lemma indexed_lookup_name items k :
  NumberSpec.all_decimal k = false → indexed items !! k = None.
Proof.
  intros Hk. unfold indexed. apply not_elem_of_list_to_map_1.
  intros (y & -> & Hy)%list_elem_of_fmap.
  apply elem_of_lookup_imap_1 in Hy as (i & v & -> & _). cbn [fst] in Hk.
  destruct (NumberFacts.pretty_N_decimal (N.of_nat i)) as [Hd _].
  unfold pretty, pretty_nat in Hk. congruence.
Qed.

Lemma own_lookup_name v k :
  NumberSpec.all_decimal k = false → (∀ fields, v ≠ VObj fields) → own v !! k = None.
Proof.
  intros Hk Hv. destruct v as [|s|items|fields]; cbn [own].
  - apply lookup_empty.
  - now apply indexed_lookup_name.
  - now apply indexed_lookup_name.
  - now destruct (Hv fields).
Qed.

(** What [strip] returns: the parsed object with its project, and a project
    that is an object has lost the five fields. *)
Lemma strip_shape pom descriptor :
  strip pom = Ok descriptor →
  ∀ k, k ∈ stripped_fields → project_fields descriptor !! k = None.
Proof.
  unfold strip. intros H k Hk.
  assert (Hdec : NumberSpec.all_decimal k = false).
  { unfold stripped_fields in Hk.
    repeat (apply elem_of_cons in Hk as [->|Hk]; [reflexivity|]). now apply elem_of_nil in Hk. }
  destruct pom as [|s|items|fields]; [discriminate| | |].
  - cbn [get own] in H. rewrite indexed_lookup_name in H by reflexivity. discriminate.
  - cbn [get own] in H. rewrite indexed_lookup_name in H by reflexivity. discriminate.
  - cbn [get own] in H. destruct (fields !! "project") as [project|] eqn:E;
      [|discriminate]. cbn [default mbind res_bind] in H.
    unfold stripped_fields in H.
    destruct project as [|s|items|pf]; cbn [foldl mbind res_bind delete_field] in H;
      [discriminate| | |]; injection H as <-;
      unfold project_fields; cbn [own]; rewrite lookup_insert_eq;
      cbn [default from_option id own].
    + now apply indexed_lookup_name.
    + now apply indexed_lookup_name.
    + unfold stripped_fields in Hk.
      repeat (apply elem_of_cons in Hk as [->|Hk];
              [now repeat first [rewrite lookup_delete_eq
                                | rewrite lookup_delete_ne by discriminate]|]).
      now apply elem_of_nil in Hk.
Qed.

Lemma resolves_stripped parseString fetchPom content fragments :
  resolves parseString fetchPom content fragments →
  ∀ fragment k, fragment ∈ fragments → k ∈ stripped_fields →
                project_fields fragment !! k = None.
Proof.
  induction 1 as [content pom descriptor _ Hstrip _
                 |content pom descriptor spec file _ Hstrip _ _ _
                 |content pom descriptor spec code file ancestors _ Hstrip _ _ _ _ _ IH];
    intros fragment k Hin Hk.
  - apply list_elem_of_singleton in Hin as ->. now apply (strip_shape pom).
  - apply list_elem_of_singleton in Hin as ->. now apply (strip_shape pom).
  - apply elem_of_cons in Hin as [->|Hin]; [now apply (strip_shape pom) | now apply IH].
Qed.

Lemma first_trimmed_trimmed parent k s :
  first_trimmed parent k = Ok s → TextSpec.trimmed s.
Proof.
  unfold first_trimmed. destruct (get parent k) as [elements|]; [|discriminate].
  cbn [mbind res_bind]. destruct (get elements "0") as [element|]; [|discriminate].
  cbn [mbind res_bind]. destruct element; try discriminate.
  intros [= <-]. apply TextFacts.trim_trimmed.
Qed.

(** The parent is always looked up as a maven component of mavencentral,
    without tool, under a group id, an artifact id and a version that carry
    no blanks around them. *)
Theorem parent_spec_has_trimmed_coordinates (descriptor : value) (spec : EntitySpec.t) :
  parent_spec descriptor = Ok spec →
  EntitySpec.type spec = Some "maven" ∧ EntitySpec.provider spec = Some "mavencentral" ∧
  EntitySpec.tool spec = None ∧ EntitySpec.toolVersion spec = None ∧
  ∃ groupId artifactId version,
    EntitySpec.namespace spec = Some groupId ∧ EntitySpec.name spec = Some artifactId ∧
    EntitySpec.revision spec = Some version ∧
    TextSpec.trimmed groupId ∧ TextSpec.trimmed artifactId ∧ TextSpec.trimmed version.
Proof.
  unfold parent_spec. destruct (get descriptor "project") as [project|]; [|discriminate].
  cbn [mbind res_bind]. destruct (get project "parent") as [parents|]; [|discriminate].
  cbn [mbind res_bind]. destruct (get parents "0") as [parent|]; [|discriminate].
  cbn [mbind res_bind].
  destruct (first_trimmed parent "groupId") as [g|] eqn:Eg; [|discriminate].
  destruct (first_trimmed parent "artifactId") as [a|] eqn:Ea; [|discriminate].
  destruct (first_trimmed parent "version") as [v|] eqn:Ev; [|discriminate].
  cbn [mbind res_bind]. intros [= <-]. cbn. repeat split.
  exists g, a, v. repeat split; eauto using first_trimmed_trimmed.
Qed.

Lemma parent_spec_has_trimmed_coordinates_witness :
  EntitySpec.namespace
    (EntitySpec.make (Some "maven") (Some "mavencentral") (Some "org.example")
       (Some "parent") (Some "2") None) = Some "org.example"
  ∧ TextSpec.trimmed "org.example".
Proof.
  destruct (parent_spec_has_trimmed_coordinates (stripped child_fields)
              (EntitySpec.make (Some "maven") (Some "mavencentral") (Some "org.example")
                 (Some "parent") (Some "2") None) eq_refl)
    as (_ & _ & _ & _ & g & a & v & Hg & _ & _ & Hgt & _).
  split; [reflexivity|]. cbn in Hg. injection Hg as <-. exact Hgt.
Defined.

Section Resolver.
Variable parseString : string → res value.
Variable fetchPom : EntitySpec.t → res (Z * string).

(** A failure at any level of the ancestor chain, other than a parent that
    is not found, is the failure of the whole resolution: with fuel for the
    levels down to the failing one, [_getManifest] throws that error. *)
Theorem resolution_fails_with_first_failure (content : string) (depth : nat) (e : error) :
  breaks parseString fetchPom content depth e →
  ∀ fuel, (depth ≤ fuel)%nat →
  _getManifest parseString fetchPom fuel content = Some (Throw e).
Proof.
  induction 1 as [content e Hd
                 |content descriptor e Hd Hpar Hspec
                 |content descriptor spec e Hd Hpar Hspec Hfetch
                 |content descriptor spec code file depth e Hd Hpar Hspec Hfetch Hcode _ IH];
    intros [|fuel] Hfuel; try lia; cbn [_getManifest]; rewrite Hd; try reflexivity;
    rewrite Hpar; unfold _fetchParentPomManifest; rewrite Hspec; try reflexivity;
    rewrite Hfetch; try reflexivity.
  apply Z.eqb_neq in Hcode. rewrite Hcode. now rewrite IH by lia.
Qed.

(** The fields that [_getManifest] deletes stay out of the manifest: for a
    chain that resolves, none of build, dependencies, dependencyManagement,
    modules and profiles is a project field of any fragment, nor of the
    summary, whatever the ancestors declare. *)
Theorem manifest_has_no_stripped_field
    (content : string) (fragments : list value) (fuel : nat) (k : string) :
  resolves parseString fetchPom content fragments →
  (length fragments ≤ fuel)%nat →
  k ∈ stripped_fields →
  ∃ m, _getManifest parseString fetchPom fuel content = Some (Ok m) ∧
       (∀ fragment, fragment ∈ poms m → project_fields fragment !! k = None) ∧
       project_fields (summary m) !! k = None.
Proof.
  intros Hres Hfuel Hk.
  destruct (_getManifest_resolves _ _ _ _ Hres fuel Hfuel)
    as (m & d & a & Hm & Hpoms & _ & _ & _ & Hfields).
  pose proof (resolves_stripped _ _ _ _ Hres) as Hnone.
  exists m. split; [exact Hm|]. rewrite Hpoms. split; [intros f Hf; now apply Hnone|].
  rewrite Hfields, merge_fragments_lookup.
  clear -Hnone Hk. induction fragments as [|f fragments IH]; [reflexivity|].
  cbn [override_lookup]. rewrite (Hnone f k) by (assumption || left).
  apply IH. intros f' k' Hf'. apply Hnone. now right.
Qed.

End Resolver.

Lemma resolution_fails_with_first_failure_witness :
  _getManifest parse_example fetch_broken 2 "<child/>" = Some (Throw (Error "ECONNRESET")).
Proof.
  apply (resolution_fails_with_first_failure parse_example fetch_broken "<child/>" 2);
    [|lia].
  eapply breaks_ancestor;
    [reflexivity | reflexivity | reflexivity | reflexivity | discriminate |].
  eapply breaks_fetch; reflexivity.
Defined.

Lemma manifest_has_no_stripped_field_witness :
  ∃ m, _getManifest parse_example fetch_example 3 "<child/>" = Some (Ok m) ∧
       project_fields (summary m) !! "modules" = None.
Proof.
  destruct (manifest_has_no_stripped_field parse_example fetch_example "<child/>" _ 3
              "modules" child_resolves) as (m & Hm & _ & Hs).
  - cbn. lia.
  - unfold stripped_fields. do 3 apply list_elem_of_further. apply list_elem_of_here.
  - eauto.
Defined.

End MavenMoreFacts.

(** ** The maven handler *)
Module MavenHandleFacts.
Import MavenExtract MavenSpec MavenHandle MavenHandleSpec.

(** The manifest has the fields [summary] and [poms] only: a path that
    starts at [project] leads nowhere. *)
Lemma lodash_get_manifest_project (m : manifest) (rest : list string) :
  lodash_get (manifest_value m) ("project" :: rest) = VUndef.
Proof.
  unfold manifest_value. cbn [lodash_get own].
  rewrite lookup_insert_ne by discriminate. rewrite lookup_singleton_ne by discriminate.
  now destruct rest.
Qed.

(** [_discoverCandidateSourceLocations] finds no candidate, whatever the
    manifest holds: the manifest has the fields [summary] and [poms], and
    the path [project.scm.url] starts at neither. *)
Theorem candidate_locations_always_empty (m : manifest) :
  _discoverCandidateSourceLocations m = [].
Proof.
  unfold _discoverCandidateSourceLocations.
  now rewrite lodash_get_manifest_project.
Qed.

Section Handler.
Variable source : Type.
Variable toUrn : EntitySpec.t → string.
Variable toUrl : EntitySpec.t → string.
Variable fromUrl : string → EntitySpec.t.
Variable parseString : string → res value.
Variable fetchPom : EntitySpec.t → res (Z * string).
Variable readFile : string → res string.
Variable toISOString : Z → res string.
Variable sourceFinder : EntitySpec.t → list value → res (option source).
Variable sourceArchive : EntitySpec.t → source.
Variable sourceEntity : source → EntitySpec.t.
Variable sourceExtension : string.
Variable sha256_hex : string → string.
Variable join : string → string → string.
Variable glob : string → string → res (list string).
Variable readFileSync : string → res string.

Local Abbreviation handle := (handle source toUrn toUrl fromUrl parseString fetchPom readFile
                      toISOString sourceFinder sourceArchive sourceEntity sourceExtension
                      sha256_hex join glob readFileSync).
Local Abbreviation _createDocument := (_createDocument source toISOString sourceFinder sourceArchive
                               sourceExtension).
Local Abbreviation _discoverSource := (_discoverSource source sourceFinder sourceArchive sourceExtension).
Local Abbreviation linkSource := (linkSource source toUrn toUrl fromUrl sourceEntity).
Local Abbreviation unset := {| Attachments._attachments := None; Attachments.attachments := None |}.

Lemma addBasicToolLinks_tool_links (r : Links.request) :
  Links.addBasicToolLinks toUrn fromUrl toolSpec r (Some (Links.toSpec fromUrl r)) =
    (tool_links toUrn fromUrl r, Ok tt).
Proof. reflexivity. Qed.

Lemma linkSource_source_links (r : Links.request) (d : document source) :
  linkSource r d = (source_links toUrn toUrl sourceEntity (sourceInfo source d), Ok tt).
Proof. unfold linkSource, source_links. now destruct (sourceInfo source d). Qed.

Lemma _discoverSource_fallback spec m rd :
  _discoverSource spec m rd =
    (first ← sourceFinder spec []; Ok (fallback sourceArchive sourceExtension spec rd first)).
Proof.
  unfold MavenHandle._discoverSource, fallback, _discoverCandidateSourceLocations.
  rewrite lodash_get_manifest_project.
  change (filter _ [VUndef]) with (@nil value).
  destruct (sourceFinder spec []) as [[found|]|e]; cbn [mbind res_bind]; try reflexivity.
  destruct (ec rd) as [extensions|]; cbn [default from_option id].
  - now destruct (bool_decide (sourceExtension ∈ extensions)).
  - case_bool_decide as H; [|reflexivity]. now apply elem_of_nil in H.
Qed.

(** What [_createDocument] leaves of the document it is given, however it
    ends: the version, and nothing else. *)
Lemma _createDocument_fresh old spec m rd :
  let d := (_createDocument old spec m rd).1 in
  version source d = version source old ∧ location source d = None ∧
  registryData source d = rd ∧ manifest_of source d = Some m ∧
  attached source d = unset.
Proof.
  cbv zeta. unfold MavenHandle._createDocument.
  destruct rd as [rd|]; [|now cbn].
  destruct (match timestamp rd with
            | Some 0%Z | None => Ok None
            | Some t => date ← toISOString t; Ok (Some date)
            end) as [date|e]; [|now cbn].
  destruct (MavenHandle._discoverSource _ _ _ _ _ _ _) as [found|e]; now cbn.
Qed.

(** Outside the processing mode [handle] reads nothing and resolves
    nothing: the document stays as it is, and the only effects are the link
    and the queued request of the source that the document already names,
    none when it names no source. *)
Theorem handle_traversal_only_follows_source (fuel : nat) (r : request source) :
  processMode source r ≠ "process" →
  handle fuel r =
    Some (doc source r,
          (source_links toUrn toUrl sourceEntity (sourceInfo source (doc source r)), Ok tt)).
Proof.
  intros Hmode. unfold MavenHandle.handle, isProcessing.
  destruct (String.eqb_spec (processMode source r) "process") as [E|_]; [contradiction|].
  now rewrite linkSource_source_links.
Qed.

(** In the processing mode, on a readable descriptor whose ancestor chain
    resolves and with registry data, [handle] makes the two tool links and
    replaces the document: the new one has the schema version, the manifest
    of the chain and the registry data, and neither the location nor any
    attachment, whatever the directory holds.  It then ends in one of three
    ways.  When the timestamp cannot be printed, it throws that error, and
    the document has no release date and no source.  When the source
    finder, which is asked with no candidate, rejects, it throws that error,
    and the document has the release date and no source.  Otherwise it
    succeeds: the document has the release date and, as source, what the
    finder found or else the fallback archive, and the link and the queued
    request of that source follow the tool links. *)
Theorem handle_processing_replaces_document
    (fuel : nat) (r : request source) (file content : string) (fragments : list value)
    (rd : registry) :
  processMode source r = "process" →
  location source (doc source r) = Some file →
  readFile file = Ok content →
  resolves parseString fetchPom content fragments →
  (length fragments ≤ fuel)%nat →
  registryData source (doc source r) = Some rd →
  ∃ m, _getManifest parseString fetchPom fuel content = Some (Ok m) ∧
       poms m = fragments ∧
       let spec := Links.toSpec fromUrl (spec_of source r) in
       let links := tool_links toUrn fromUrl (spec_of source r) in
       let fresh date found :=
         {| version := Some schemaVersion; location := None;
            registryData := Some rd; manifest_of := Some m;
            releaseDate := date; sourceInfo := found; attached := unset |} in
       handle fuel r =
         Some match release_date toISOString rd with
              | Throw e => (fresh None None, (links, Throw e))
              | Ok date =>
                  match sourceFinder spec [] with
                  | Throw e => (fresh date None, (links, Throw e))
                  | Ok first =>
                      let found := fallback sourceArchive sourceExtension spec rd first in
                      (fresh date found,
                       (links ++ source_links toUrn toUrl sourceEntity found, Ok tt))
                  end
              end.
Proof.
  intros Hmode Hfile Hread Hres Hfuel Hrd.
  destruct (MavenFacts._getManifest_resolves parseString fetchPom content fragments Hres
              fuel Hfuel) as (m & _ & _ & Hm & Hpoms & _).
  exists m. split; [exact Hm|]. split; [exact Hpoms|]. cbv zeta.
  unfold MavenHandle.handle, isProcessing. rewrite Hmode. cbn [String.eqb Ascii.eqb Bool.eqb].
  cbn [stamped location registryData]. rewrite Hfile, Hread, Hm, Hrd.
  rewrite addBasicToolLinks_tool_links.
  unfold MavenHandle._createDocument. rewrite _discoverSource_fallback.
  assert (Hdated : match timestamp rd with
                   | Some 0%Z | None => Ok None
                   | Some t => date ← toISOString t; Ok (Some date)
                   end = release_date toISOString rd).
  { unfold release_date. destruct (timestamp rd) as [[|t|t]|]; try reflexivity;
      now destruct (toISOString _). }
  rewrite Hdated. destruct (release_date toISOString rd) as [date|e].
  - destruct (sourceFinder _ []) as [first|e]; cbn [mbind res_bind].
    + cbn. destruct (fallback _ _ _ _ first); cbn; now rewrite ?app_nil_r.
    + cbn. now rewrite ?app_nil_r.
  - cbn. now rewrite ?app_nil_r.
Qed.

(** In the processing mode the version is stamped and the two tool links
    are made before anything can fail: whatever the call ends with, the
    document has the schema version, and the effects are the tool links,
    followed on success by the links of the source of the document and on
    failure by nothing. *)
Theorem handle_processing_links_tool_first
    (fuel : nat) (r : request source) (d : document source) (t : list effect)
    (o : res unit) :
  processMode source r = "process" →
  handle fuel r = Some (d, (t, o)) →
  version source d = Some schemaVersion ∧
  t = tool_links toUrn fromUrl (spec_of source r)
        ++ match o with
           | Ok _ => source_links toUrn toUrl sourceEntity (sourceInfo source d)
           | Throw _ => []
           end.
Proof.
  intros Hmode. unfold MavenHandle.handle, isProcessing. rewrite Hmode.
  cbn [String.eqb Ascii.eqb Bool.eqb]. rewrite addBasicToolLinks_tool_links.
  set (links := tool_links toUrn fromUrl (spec_of source r)).
  set (old := stamped source (doc source r)).
  destruct (match location source old with
            | Some file => readFile file
            | None => Throw (TypeError "The path argument must be a string")
            end) as [content|e].
  2:{ intros [= <- <- <-]. split; reflexivity. }
  destruct (_getManifest parseString fetchPom fuel content) as [[m|e]|]; [| |discriminate].
  2:{ intros [= <- <- <-]. split; reflexivity. }
  pose proof (_createDocument_fresh old (Links.toSpec fromUrl (spec_of source r)) m
                (registryData source old)) as Hfresh. cbv zeta in Hfresh.
  destruct (_createDocument old _ m _) as [d' [[]|e]]; cbn [fst] in Hfresh;
    destruct Hfresh as (Hv & Hloc & _ & _ & _).
  - rewrite Hloc. cbn [NamedFiles.attachInterestinglyNamedFiles].
    rewrite linkSource_source_links. intros [= <- <- <-].
    split; [exact Hv|]. reflexivity.
  - intros [= <- <- <-]. split; [exact Hv|]. reflexivity.
Qed.

End Handler.

Lemma handle_traversal_only_follows_source_witness :
  handle_example 0 (request_example "traverse") = Some (document_example, ([], Ok tt)).
Proof.
  apply (handle_traversal_only_follows_source EntitySpec.t LinksSpec.show_urn
           LinksSpec.show_urn (fun _ => child) parse_example fetch_example read_example
           iso_example (fun _ _ => Ok None) archive_example (fun info => info)
           "-sources.jar" String.rev AttachmentsSpec.slash_join
           (fun _ _ => Ok ["LICENSE"]) (fun _ => Ok "MIT License") 0
           (request_example "traverse")).
  discriminate.
Defined.

Lemma handle_processing_replaces_document_witness :
  ∃ m, poms m = [stripped child_fields; stripped parent_fields; stripped root_fields] ∧
       handle_example 3 (request_example "process") =
         Some ({| version := Some "1.1.2"; location := None;
                  registryData := Some registry_example; manifest_of := Some m;
                  releaseDate := Some "2017-07-14T02:40:00.000Z";
                  sourceInfo := Some (archive_example child);
                  attached := {| Attachments._attachments := None;
                                 Attachments.attachments := None |} |},
               ([LinkResource "self" "maven:mavencentral:org.example:child:3:clearlydefined:1.1.2";
                 LinkSiblings "maven:mavencentral:org.example:child:3:clearlydefined:-";
                 LinkResource "source" "sourcearchive:mavencentral:org.example:child:3:-:-";
                 Queue "source" "sourcearchive:mavencentral:org.example:child:3:-:-"], Ok tt)).
Proof.
  assert (Hres : resolves parse_example fetch_example ("<child/>" +:+ JS.LF)
                   [stripped child_fields; stripped parent_fields; stripped root_fields]).
  { eapply resolves_parent; [reflexivity | apply MavenFacts.strip_project | reflexivity
      | reflexivity | reflexivity | discriminate |].
    eapply resolves_parent; [reflexivity | apply MavenFacts.strip_project | reflexivity
      | reflexivity | reflexivity | discriminate |].
    eapply resolves_root; [reflexivity | apply MavenFacts.strip_project | reflexivity]. }
  destruct (handle_processing_replaces_document EntitySpec.t LinksSpec.show_urn
              LinksSpec.show_urn (fun _ => child) parse_example fetch_example read_example
              iso_example (fun _ _ => Ok None) archive_example (fun info => info)
              "-sources.jar" String.rev AttachmentsSpec.slash_join
              (fun _ _ => Ok ["LICENSE"]) (fun _ => Ok "MIT License")
              3 (request_example "process") "/tmp/cd-abc/child-3.pom"
              ("<child/>" +:+ JS.LF) _ registry_example
              eq_refl eq_refl eq_refl Hres (le_n 3) eq_refl)
    as (m & _ & Hpoms & Hrun).
  exists m. split; [exact Hpoms|]. exact Hrun.
Defined.

Lemma handle_processing_links_tool_first_witness :
  ∃ d t, handle_example 3 (request_example "process") = Some (d, (t, Ok tt)) ∧
         version EntitySpec.t d = Some "1.1.2" ∧ length t = 4%nat.
Proof.
  destruct (handle_example 3 (request_example "process")) as [[d [t [[]|e]]]|] eqn:E;
    try (vm_compute in E; discriminate).
  exists d, t. split; [reflexivity|].
  destruct (handle_processing_links_tool_first EntitySpec.t LinksSpec.show_urn
              LinksSpec.show_urn (fun _ => child) parse_example fetch_example read_example
              iso_example (fun _ _ => Ok None) archive_example (fun info => info)
              "-sources.jar" String.rev AttachmentsSpec.slash_join
              (fun _ _ => Ok ["LICENSE"]) (fun _ => Ok "MIT License")
              3 (request_example "process") d t (Ok tt) eq_refl E) as [Hv ->].
  split; [exact Hv|].
  assert (Hd : sourceInfo EntitySpec.t d = Some (archive_example child)).
  { vm_compute in E. now injection E as <- _. }
  rewrite Hd. reflexivity.
Defined.

End MavenHandleFacts.
